(** * HRM analysis engine: a shallow embedding of the JavaScript sources

    The development follows [js/app.js] (the [DataProcessor] class and the
    numeric utilities [mean], [movingAverage], [calculateDerivative],
    [normalizeArray], [detectMeltRegions], [findTm]) and the archive parser
    [EDSParser.formatForHRMAnalyzer].

    Numbers.  A JavaScript number is modelled by [jsnum]: an exact rational,
    one of the two infinities, or NaN.  The special values follow IEEE 754
    (0/0 is NaN, x/0 is infinite, every comparison with NaN is false).
    Finite arithmetic is exact: rounding and overflow of binary64 are not
    modelled, and the negative zero is identified with zero.  Array lengths
    and indices are integers ([nat] for lengths, [Z] where the source
    computes with them). *)

From Stdlib Require Import QArith Qcanon Qround Qcabs Lqa.
From stdpp Require Import gmap strings list pretty.

(** ** JavaScript numbers *)

Module JS.

Inductive jsnum : Type :=
| Fin (q : Qc)
| PInf
| NInf
| NaN.

#[export] Instance jsnum_eq_dec : EqDecision jsnum.
Proof. solve_decision. Defined.

Definition zero : jsnum := Fin 0%Qc.
Definition one : jsnum := Fin 1%Qc.

(** The literal of a decimal constant such as [0.5], given as a fraction. *)
Definition lit (q : Q) : jsnum := Fin (Q2Qc q).

(** The number of an integer, for [arr.length] used in arithmetic. *)
Definition of_Z (z : Z) : jsnum := Fin (Q2Qc (inject_Z z)).
Definition of_nat (n : nat) : jsnum := of_Z (Z.of_nat n).

Definition isNaN (x : jsnum) : bool :=
  match x with NaN => true | _ => false end.

Definition isFinite (x : jsnum) : bool :=
  match x with Fin _ => true | _ => false end.

(** Unary minus, [-d]. *)
Definition neg (x : jsnum) : jsnum :=
  match x with
  | Fin q => Fin (- q)%Qc
  | PInf => NInf
  | NInf => PInf
  | NaN => NaN
  end.

(** [x + y]. *)
Definition add (x y : jsnum) : jsnum :=
  match x, y with
  | NaN, _ | _, NaN => NaN
  | Fin a, Fin b => Fin (a + b)%Qc
  | PInf, NInf | NInf, PInf => NaN
  | PInf, _ | _, PInf => PInf
  | NInf, _ | _, NInf => NInf
  end.

(** [x - y]. *)
Definition sub (x y : jsnum) : jsnum := add x (neg y).

(** [x / y]. *)
Definition div (x y : jsnum) : jsnum :=
  match x, y with
  | NaN, _ | _, NaN => NaN
  | Fin a, Fin b =>
      if decide (b = 0%Qc) then
        if decide (a = 0%Qc) then NaN
        else if decide (0 < a)%Qc then PInf else NInf
      else Fin (a / b)%Qc
  | Fin _, _ => zero
  | PInf, Fin b => if decide (0 <= b)%Qc then PInf else NInf
  | NInf, Fin b => if decide (0 <= b)%Qc then NInf else PInf
  | _, _ => NaN
  end.

(** [Math.abs(x)]. *)
Definition abs (x : jsnum) : jsnum :=
  match x with
  | Fin q => Fin (Qcabs q)
  | PInf | NInf => PInf
  | NaN => NaN
  end.

(** [x > y]; false as soon as one side is NaN. *)
Definition gt (x y : jsnum) : bool :=
  match x, y with
  | NaN, _ | _, NaN => false
  | Fin a, Fin b => bool_decide (b < a)%Qc
  | PInf, PInf => false
  | PInf, _ => true
  | Fin _, NInf => true
  | _, _ => false
  end.

(** [x <= y]; false as soon as one side is NaN. *)
Definition le (x y : jsnum) : bool :=
  match x, y with
  | NaN, _ | _, NaN => false
  | _, _ => negb (gt x y)
  end.

(** [Math.floor(n * c)] for an array length [n] and a decimal constant [c],
    computed exactly.  For the two constants of the source, 0.1 and 0.9,
    and every array length, the binary64 product has the same floor: the
    constants are off by a relative 2^-54 at most, which rounds away when
    [n * c] is an integer and cannot reach the next integer otherwise. *)
Definition floor_mul (n : nat) (c : Q) : Z :=
  Qfloor (inject_Z (Z.of_nat n) * c)%Q.

End JS.

Export JS.

Declare Scope js_scope.
Delimit Scope js_scope with js.
Bind Scope js_scope with jsnum.
Infix "+" := JS.add : js_scope.
Infix "-" := JS.sub : js_scope.
Infix "/" := JS.div : js_scope.
Notation "- x" := (JS.neg x) : js_scope.
Infix ">?" := JS.gt (at level 70) : js_scope.

(** ** Arrays *)

(** [arr[i]] read inside an arithmetic expression: an index out of range
    gives [undefined], which every arithmetic operator turns into NaN. *)
Definition get (arr : list jsnum) (i : nat) : jsnum := default NaN (arr !! i).

(** [arr.slice(start, end)], with JavaScript's treatment of negative and
    oversized indices. *)
Definition slice {A} (arr : list A) (start end_ : Z) : list A :=
  let len := Z.of_nat (length arr) in
  let k := if (start <? 0)%Z then Z.max (len + start) 0 else Z.min start len in
  let final := if (end_ <? 0)%Z then Z.max (len + end_) 0 else Z.min end_ len in
  take (Z.to_nat (final - k)) (drop (Z.to_nat k) arr).

(** ** Statistical functions ([js/app.js], utilities) *)

Definition mean (arr : list jsnum) : jsnum :=
  (fold_left (fun sum val => sum + val) arr zero / of_nat (length arr))%js.

Definition movingAverage (arr : list jsnum) (windowSize : Z) : list jsnum :=
  let halfWindow := (windowSize `div` 2)%Z in
  let len := Z.of_nat (length arr) in
  map (fun i : nat =>
         let start := Z.max 0 (Z.of_nat i - halfWindow) in
         let end_ := Z.min len (Z.of_nat i + halfWindow + 1) in
         let window := slice arr start end_ in
         mean window)
      (seq 0 (length arr)).

Definition calculateDerivative (xValues yValues : list jsnum) : list jsnum :=
  map (fun i : nat =>
         if decide (i = 0%nat) then
           let dx := (get xValues 1 - get xValues 0)%js in
           let dy := (get yValues 1 - get yValues 0)%js in
           (dy / dx)%js
         else if decide (i = (length xValues - 1)%nat) then
           let dx := (get xValues i - get xValues (i - 1))%js in
           let dy := (get yValues i - get yValues (i - 1))%js in
           (dy / dx)%js
         else
           let dx := (get xValues (i + 1) - get xValues (i - 1))%js in
           let dy := (get yValues (i + 1) - get yValues (i - 1))%js in
           (dy / dx)%js)
      (seq 0 (length xValues)).

(** The function mapped over the array by [normalizeArray]. *)
Definition normalizeValue (preMeltAvg postMeltAvg val : jsnum) : jsnum :=
  ((val - postMeltAvg) / (preMeltAvg - postMeltAvg))%js.

Definition normalizeArray (arr : list jsnum)
    (preStart preEnd postStart postEnd : Z) : list jsnum :=
  let preMeltValues := slice arr preStart preEnd in
  let postMeltValues := slice arr postStart postEnd in
  let preMeltAvg := mean preMeltValues in
  let postMeltAvg := mean postMeltValues in
  map (normalizeValue preMeltAvg postMeltAvg) arr.

Record Regions : Type := mkRegions {
  preStart : Z;
  preEnd : Z;
  postStart : Z;
  postEnd : Z
}.

#[export] Instance Regions_eq_dec : EqDecision Regions.
Proof. solve_decision. Defined.

Definition detectMeltRegions (temperatures fluorescence : list jsnum) : Regions :=
  let preEnd := floor_mul (length temperatures) (1 # 10) in
  let preStart := 0%Z in
  let postStart := floor_mul (length temperatures) (9 # 10) in
  let postEnd := Z.of_nat (length temperatures) in
  mkRegions preStart preEnd postStart postEnd.

(** The loop of [findTm]: [i] is the index of the head of the part of
    [derivative] still to scan. *)
Fixpoint findTm_loop (derivative : list jsnum) (i maxDerivIdx : nat)
    (maxDeriv : jsnum) : nat :=
  match derivative with
  | [] => maxDerivIdx
  | d :: rest =>
      if (abs d >? abs maxDeriv)%js
      then findTm_loop rest (S i) i d
      else findTm_loop rest (S i) maxDerivIdx maxDeriv
  end.

(** The index [maxDerivIdx] at the end of [findTm]. *)
Definition findTm_index (derivative : list jsnum) : nat :=
  findTm_loop (tail derivative) 1 0 (get derivative 0).

(** [findTm]; [None] is [undefined] (an index past the temperatures). *)
Definition findTm (temperatures derivative : list jsnum) : option jsnum :=
  temperatures !! findTm_index derivative.

(** ** The tabular reading *)

(** A cell of a parsed table, as [parseFloat] reads it: [CNum x] is a cell
    from which [parseFloat] reads the number [x] (a number, or a text that
    starts with one, such as the text [Infinity]); [CNull] is a cell from
    which it reads none ([null], an empty or a non-numeric text). *)
Inductive cell : Type :=
| CNull
| CNum (x : jsnum).

#[export] Instance cell_eq_dec : EqDecision cell.
Proof. solve_decision. Defined.

(** A row is a JavaScript object from field names to cells. *)
Abbreviation Row := (gmap string cell).

(** [parseFloat(row[header])]; a field the row lacks is [undefined]. *)
Definition parseFloat (c : option cell) : jsnum :=
  match c with
  | Some (CNum x) => x
  | Some CNull | None => NaN
  end.

Record RawData : Type := mkRawData {
  filename : string;
  headers : list string;
  tempHeader : string;
  data : list Row;
  sampleCount : nat
}.

(** ** The data processor ([DataProcessor] in [js/app.js]) *)

Record Sample : Type := mkSample {
  name : string;
  fluorescence : list jsnum;
  visible : bool;
  normalized : option (list jsnum);
  derivative : option (list jsnum);
  tm : option jsnum;
  difference : option (list jsnum)
}.

#[export] Instance Sample_eq_dec : EqDecision Sample.
Proof. solve_decision. Defined.

Definition set_visible (v : bool) (s : Sample) : Sample :=
  mkSample (name s) (fluorescence s) v (normalized s) (derivative s) (tm s)
           (difference s).
Definition set_normalized (n : list jsnum) (s : Sample) : Sample :=
  mkSample (name s) (fluorescence s) (visible s) (Some n) (derivative s) (tm s)
           (difference s).
Definition set_derivative_tm (d : list jsnum) (t : option jsnum) (s : Sample)
    : Sample :=
  mkSample (name s) (fluorescence s) (visible s) (normalized s) (Some d) t
           (difference s).
Definition set_difference (d : list jsnum) (s : Sample) : Sample :=
  mkSample (name s) (fluorescence s) (visible s) (normalized s) (derivative s)
           (tm s) (Some d).

Record ProcessedData : Type := mkProcessedData {
  temperatures : list jsnum;
  samples : list Sample;
  regions : option Regions
}.

(** The reference selected in the settings: [null], or a value on which
    [parseInt] gives an integer ([Some z]) or NaN ([None]). *)
Inductive reference : Type :=
| RefNull
| RefValue (parsed : option Z).

Record Settings : Type := mkSettings {
  normalizationMode : string;
  smoothingWindow : Z;
  referenceSample : reference
}.

(** The argument of [analyze]: the settings it overrides. *)
Record SettingsPatch : Type := mkPatch {
  patch_normalizationMode : option string;
  patch_smoothingWindow : option Z;
  patch_referenceSample : option reference
}.

(** [{ ...this.settings, ...settings }]. *)
Definition merge_settings (s : Settings) (p : SettingsPatch) : Settings :=
  mkSettings (default (normalizationMode s) (patch_normalizationMode p))
             (default (smoothingWindow s) (patch_smoothingWindow p))
             (default (referenceSample s) (patch_referenceSample p)).

Record DataProcessor : Type := mkDataProcessor {
  rawData : option RawData;
  processedData : option ProcessedData;
  settings : Settings
}.

(** What a method does besides updating the processor.  The listener of
    the application for the event [sampleVisibilityChanged]
    ([onSampleVisibilityChanged]) reads the processed data to set the
    hidden flags of the charts and the check boxes; it calls no method of
    the processor. *)
Inductive effect : Type :=
| Toast (title message kind : string)
| Loading (show : bool)
| Warn (header : string)
| Dispatch (event : string).

(** The constructor of [DataProcessor]. *)
Definition new_DataProcessor : DataProcessor :=
  mkDataProcessor None None (mkSettings "auto" 5 RefNull).

(** [v || 0] for a number or [undefined]. *)
Definition or_zero (v : option jsnum) : jsnum :=
  match v with
  | None | Some NaN => zero
  | Some x => x
  end.

(** One pass of [fillMissingValues]: the [map] with its running value. *)
Fixpoint fill_pass (lastVal : jsnum) (arr : list (option jsnum)) : list jsnum :=
  match arr with
  | [] => []
  | None :: rest => lastVal :: fill_pass lastVal rest
  | Some v :: rest => v :: fill_pass v rest
  end.

Definition fillMissingValues (arr : list (option jsnum)) : list jsnum :=
  let lastVal := or_zero (head (omap id arr)) in
  let forwardFilled := Some <$> fill_pass lastVal arr in
  let nextVal := or_zero (head (omap id (reverse forwardFilled))) in
  reverse (fill_pass nextVal (reverse forwardFilled)).

(** The rows kept by step 1 of [extractSamples]. *)
Definition validRows (raw : RawData) : list Row :=
  filter (fun row => isNaN (parseFloat (row !! tempHeader raw)) = false)
         (data raw).

(** The column of one header over the valid rows, [null] where the cell
    does not parse. *)
Definition columnValues (rows : list Row) (header : string)
    : list (option jsnum) :=
  map (fun row : Row =>
         let val := parseFloat (row !! header) in
         if isNaN val then None else Some val)
      rows.

Definition validCount (fluorescence : list (option jsnum)) : nat :=
  length (filter (fun f => f <> None) fluorescence).

(** [coverage] of a column, for [n] temperatures. *)
Definition coverage (fluorescence : list (option jsnum)) (n : nat) : jsnum :=
  (of_nat (validCount fluorescence) / of_nat n)%js.

(** The body of the [headers.forEach] of [extractSamples]. *)
Definition extractColumn (raw : RawData) (rows : list Row) (n : nat)
    (acc : list Sample * list effect) (header : string)
    : list Sample * list effect :=
  if decide (header = tempHeader raw) then acc
  else
    let fluorescence := columnValues rows header in
    if (coverage fluorescence n >? lit (5 # 10))%js then
      let filledFluorescence := fillMissingValues fluorescence in
      (acc.1 ++ [mkSample header filledFluorescence true None None None None],
       acc.2)
    else (acc.1, acc.2 ++ [Warn header]).

Definition extractSamples (dp : DataProcessor) : DataProcessor * list effect :=
  match rawData dp with
  | None => (dp, [])
  | Some raw =>
      let rows := validRows raw in
      if decide (length rows = 0%nat) then
        (dp, [Toast "Error" "No valid temperature data found" "error"])
      else
        let temperatures :=
          map (fun row : Row => parseFloat (row !! tempHeader raw)) rows in
        let '(samples, log) :=
          fold_left (extractColumn raw rows (length temperatures))
                    (headers raw) ([], []) in
        if decide (length samples = 0%nat) then
          (dp, log ++ [Toast "Error" "No valid samples found. Check CSV format."
                             "error"])
        else
          (mkDataProcessor (rawData dp)
             (Some (mkProcessedData temperatures samples None))
             (settings dp),
           log)
  end.

Definition setData (dp : DataProcessor) (parsedData : RawData)
    : DataProcessor * list effect :=
  extractSamples
    (mkDataProcessor (Some parsedData) (processedData dp) (settings dp)).

(** Stage 2 of [analyze], for one sample. *)
Definition normalizeSample (r : Regions) (sample : Sample) : Sample :=
  let normalized :=
    normalizeArray (fluorescence sample)
                   (preStart r) (preEnd r) (postStart r) (postEnd r) in
  set_normalized normalized sample.

(** Stage 3 of [analyze], for one sample; [None] is the [TypeError] of
    reading a sample that has no [normalized] array. *)
Definition deriveSample (temperatures : list jsnum) (window : Z)
    (sample : Sample) : option Sample :=
  nrm ← normalized sample;
  let smoothed := movingAverage nrm window in
  let deriv := calculateDerivative temperatures smoothed in
  let negDeriv := map neg deriv in
  let tm := findTm temperatures negDeriv in
  Some (set_derivative_tm negDeriv tm sample).

(** The [map] of stage 4, for the sample at index [idx]. *)
Definition differenceSample (refIdx : nat) (reference : list jsnum)
    (idx : nat) (sample : Sample) : option Sample :=
  if decide (idx = refIdx) then
    Some (set_difference (replicate (length reference) zero) sample)
  else
    nrm ← normalized sample;
    let diff := imap (fun i val => (val - get reference i)%js) nrm in
    Some (set_difference diff sample).

(** Stage 4 of [analyze]. *)
Definition differenceStage (ref : reference) (derivativeSamples : list Sample)
    : option (list Sample) :=
  match ref with
  | RefNull => Some derivativeSamples
  | RefValue None => Some derivativeSamples
  | RefValue (Some refIdx) =>
      if decide (0 <= refIdx < Z.of_nat (length derivativeSamples))%Z then
        refSample ← derivativeSamples !! Z.to_nat refIdx;
        reference ← normalized refSample;
        mapM (fun p : nat * Sample =>
                differenceSample (Z.to_nat refIdx) reference p.1 p.2)
             (imap pair derivativeSamples)
      else Some derivativeSamples
  end.

(** The [try] block of [analyze]; [None] is an exception thrown in it. *)
Definition analyze_try (st : Settings) (pd : ProcessedData)
    : option ProcessedData :=
  sample0 ← samples pd !! 0%nat;
  let regions := detectMeltRegions (temperatures pd) (fluorescence sample0) in
  let normalizedSamples := map (normalizeSample regions) (samples pd) in
  derivativeSamples ←
    mapM (deriveSample (temperatures pd) (smoothingWindow st)) normalizedSamples;
  differenceSamples ← differenceStage (referenceSample st) derivativeSamples;
  Some (mkProcessedData (temperatures pd) differenceSamples (Some regions)).

(** [analyze].  The message of the error toast is the message of the
    exception, which is not modelled. *)
Definition analyze (dp : DataProcessor) (patch : SettingsPatch)
    : DataProcessor * option ProcessedData * list effect :=
  match processedData dp with
  | None => (dp, None, [Toast "No data" "Please upload data first" "error"])
  | Some pd =>
      let st := merge_settings (settings dp) patch in
      match analyze_try st pd with
      | Some pd' =>
          (mkDataProcessor (rawData dp) (Some pd') st, Some pd',
           [Loading true; Loading false;
            Toast "Analysis complete" "Data processed successfully" "success";
            Dispatch "analysisComplete"])
      | None =>
          (mkDataProcessor (rawData dp) (Some pd) st, None,
           [Loading true; Loading false;
            Toast "Analysis error" "" "error"])
      end
  end.

(** [samples[sampleIndex].visible = f(samples[sampleIndex].visible)]. *)
Definition update_visible (f : bool -> bool) (sampleIndex : nat)
    (pd : ProcessedData) : ProcessedData :=
  mkProcessedData (temperatures pd)
    (alter (fun s => set_visible (f (visible s)) s) sampleIndex (samples pd))
    (regions pd).

Definition toggleSampleVisibility (dp : DataProcessor) (sampleIndex : nat)
    : DataProcessor * list effect :=
  match processedData dp with
  | Some pd =>
      if decide (is_Some (samples pd !! sampleIndex)) then
        (mkDataProcessor (rawData dp)
           (Some (update_visible negb sampleIndex pd)) (settings dp),
         [Dispatch "sampleVisibilityChanged"])
      else (dp, [])
  | None => (dp, [])
  end.

Definition setSampleVisibility (dp : DataProcessor) (sampleIndex : nat)
    (visible : bool) : DataProcessor * list effect :=
  match processedData dp with
  | Some pd =>
      if decide (is_Some (samples pd !! sampleIndex)) then
        (mkDataProcessor (rawData dp)
           (Some (update_visible (fun _ => visible) sampleIndex pd))
           (settings dp),
         [Dispatch "sampleVisibilityChanged"])
      else (dp, [])
  | None => (dp, [])
  end.

Definition setAllSamplesVisibility (dp : DataProcessor) (visible : bool)
    : DataProcessor * list effect :=
  match processedData dp with
  | Some pd =>
      (mkDataProcessor (rawData dp)
         (Some (mkProcessedData (temperatures pd)
                  (map (set_visible visible) (samples pd)) (regions pd)))
         (settings dp),
       [Dispatch "sampleVisibilityChanged"])
  | None => (dp, [])
  end.

(** ** The archive parser ([EDSParser]) *)

Module EDSParser.

(** A sample record as [parseMeltCurveResult] builds it. *)
Record ParsedSample : Type := mkParsedSample {
  wellNumber : nat;
  sampleName : string;
  detector : string;
  task : string;
  tmValues : string;
  temperatures : list jsnum;
  rnValues : list jsnum;
  deltaRnTemperatures : list jsnum;
  deltaRnValues : list jsnum
}.

(** [s.sampleName || `Well_${s.wellNumber + 1}`]. *)
Definition baseName (s : ParsedSample) : string :=
  if decide (sampleName s = "") then "Well_" +:+ pretty (wellNumber s + 1)%nat
  else sampleName s.

(** The body of the first [samples.forEach]: the accumulator holds
    [headers] and [usedNames]. *)
Definition headerStep (acc : list string * gset string)
    (p : nat * ParsedSample) : list string * gset string :=
  let idx := p.1 in
  let s := p.2 in
  let name := baseName s in
  let name :=
    if decide (name ∈ acc.2) then name +:+ "_" +:+ pretty (idx + 1)%nat
    else name in
  (acc.1 ++ [name], acc.2 ∪ {[name]}).

Definition buildHeaders (samples : list ParsedSample) : list string :=
  (fold_left headerStep (imap pair samples) (["Temperature"], ∅)).1.

(** The body of the second [samples.forEach], for row [i]. *)
Definition rowStep (headers : list string) (i : nat) (row : Row)
    (p : nat * ParsedSample) : Row :=
  let idx := p.1 in
  let s := p.2 in
  let colName := default "undefined" (headers !! (idx + 1)%nat) in
  <[colName := match rnValues s !! i with
               | Some v => CNum v
               | None => CNull
               end]> row.

Definition buildRow (headers : list string) (samples : list ParsedSample)
    (refTemps : list jsnum) (i : nat) : Row :=
  fold_left (rowStep headers i) (imap pair samples)
            {["Temperature" := CNum (get refTemps i)]}.

(** [formatForHRMAnalyzer]; [None] is the [TypeError] of reading
    [samples[0]] in an empty list. *)
Definition formatForHRMAnalyzer (samples : list ParsedSample)
    : option RawData :=
  s0 ← samples !! 0%nat;
  let refTemps := temperatures s0 in
  let headers := buildHeaders samples in
  let data :=
    map (buildRow headers samples refTemps) (seq 0 (length refTemps)) in
  Some (mkRawData "eds_file" headers "Temperature" data (length samples)).

End EDSParser.

(** ** Predicates used to state the properties *)

(** No element of the array is NaN. *)
Definition NaN_free (d : list jsnum) : Prop :=
  Forall (fun x => isNaN x = false) d.

(** [i] is the first index of [d] whose absolute value is maximal: no
    element has a larger absolute value, and every earlier element has a
    strictly smaller one.  Both comparisons are JavaScript's. *)
Definition first_max_abs (d : list jsnum) (i : nat) : Prop :=
  (i < length d)%nat /\
  (forall j, (j < length d)%nat ->
             JS.le (abs (get d j)) (abs (get d i)) = true) /\
  (forall j, (j < i)%nat -> (abs (get d i) >? abs (get d j))%js = true).

(** The regions satisfy the ordering invariant for an axis of [n] points. *)
Definition regions_ordered (r : Regions) (n : nat) : Prop :=
  (0 <= preStart r <= preEnd r)%Z /\ (preEnd r <= postStart r)%Z /\
  (postStart r <= postEnd r)%Z /\ (postEnd r <= Z.of_nat n)%Z.

(** The affine map [v |-> v / (a - b) - b / (a - b)] on the rationals, and
    its inverse. *)
Definition affine_norm (a b v : Qc) : Qc := (/ (a - b) * v + - (b / (a - b)))%Qc.
Definition affine_denorm (a b y : Qc) : Qc := (y * (a - b) + b)%Qc.

(** The end-to-end scenario of the specification: five temperatures from
    60.0 to 62.0 and one sample. *)
Definition scenario_temperatures : list jsnum :=
  [lit 60; lit (605 # 10); lit 61; lit (615 # 10); lit 62].
Definition scenario_fluorescence : list jsnum :=
  [lit 100; lit 100; lit 80; lit 20; lit 20].
Definition scenario_data : ProcessedData :=
  mkProcessedData scenario_temperatures
    [mkSample "Sample1" scenario_fluorescence true None None None None] None.

(** What the analysis makes of the sample of the scenario. *)
Definition scenario_sample : Sample :=
  mkSample "Sample1" scenario_fluorescence true
           (Some (replicate 5 NaN)) (Some (replicate 5 NaN)) (Some (lit 60)) None.

(** Every element of the array is NaN. *)
Definition all_NaN (l : list jsnum) : Prop := Forall (fun x => x = NaN) l.

(** What stages 2 and 3 of [analyze] make of one sample, as a total
    function: the sample with its normalized curve, its negated derivative
    and its Tm. *)
Definition derivedSample (temperatures : list jsnum) (window : Z) (r : Regions)
    (sample : Sample) : Sample :=
  let nrm :=
    normalizeArray (fluorescence sample)
                   (preStart r) (preEnd r) (postStart r) (postEnd r) in
  let negDeriv :=
    map neg (calculateDerivative temperatures (movingAverage nrm window)) in
  set_derivative_tm negDeriv (findTm temperatures negDeriv)
                    (set_normalized nrm sample).

(** What stage 4 makes of the sample at index [idx], given the normalized
    curve [reference] of the reference sample at index [refIdx]. *)
Definition differencedSample (refIdx : nat) (reference : list jsnum)
    (idx : nat) (sample : Sample) : Sample :=
  if decide (idx = refIdx) then
    set_difference (replicate (length reference) zero) sample
  else
    set_difference
      (imap (fun i val => (val - get reference i)%js)
            (default [] (normalized sample)))
      sample.

(** The reference of the settings selects no sample of a list of [n]. *)
Definition no_reference (ref : reference) (n : nat) : Prop :=
  match ref with
  | RefNull | RefValue None => True
  | RefValue (Some r) => ~ (0 <= r < Z.of_nat n)%Z
  end.

#[export] Instance no_reference_dec (ref : reference) (n : nat) :
  Decision (no_reference ref n).
Proof. destruct ref as [|[r|]]; simpl; apply _. Defined.

(** Everything of a sample but its visibility flag, and everything of the
    processed data but the visibility flags. *)
Definition numeric_fields (s : Sample) :=
  (name s, fluorescence s, normalized s, derivative s, tm s, difference s).
Definition numeric_state (pd : ProcessedData) :=
  (temperatures pd, regions pd, map numeric_fields (samples pd)).
Definition visibility (pd : ProcessedData) : list bool :=
  map visible (samples pd).

(** The number of rows in which the cell of a column reads as something
    other than NaN, and the number in which it reads as a finite number. *)
Definition present (rows : list Row) (header : string) : nat :=
  length (filter (fun row : Row => isNaN (parseFloat (row !! header)) = false)
                 rows).
Definition finite_cells (rows : list Row) (header : string) : nat :=
  length (filter (fun row : Row => isFinite (parseFloat (row !! header)) = true)
                 rows).

(** The fraction [k / n] as a rational. *)
Definition fraction (k n : nat) : Q :=
  (inject_Z (Z.of_nat k) / inject_Z (Z.of_nat n))%Q.

#[export] Instance Qlt_decision (a b : Q) : Decision (a < b)%Q.
Proof.
  destruct (Qlt_le_dec a b) as [H|H]; [left; exact H|right].
  by apply Qle_not_lt.
Defined.

(** A header names a sample column whose coverage is above one half, or
    one whose coverage is not. *)
Definition accepted (raw : RawData) (h : string) : Prop :=
  h <> tempHeader raw /\
  (1 # 2 < fraction (present (validRows raw) h) (length (validRows raw)))%Q.
Definition dropped (raw : RawData) (h : string) : Prop :=
  h <> tempHeader raw /\
  ~ (1 # 2 < fraction (present (validRows raw) h) (length (validRows raw)))%Q.

#[export] Instance accepted_dec (raw : RawData) (h : string) :
  Decision (accepted raw h).
Proof. unfold accepted. apply _. Defined.
#[export] Instance dropped_dec (raw : RawData) (h : string) :
  Decision (dropped raw h).
Proof. unfold dropped. apply _. Defined.

(** The sample that [extractSamples] makes of an accepted column. *)
Definition columnSample (rows : list Row) (header : string) : Sample :=
  mkSample header (fillMissingValues (columnValues rows header)) true
           None None None None.

(** A reading of four rows: column [A] has two readable cells out of four,
    column [B] three out of four. *)
Definition coverage_row (t a b : cell) : Row :=
  list_to_map [("Temperature", t); ("A", a); ("B", b)].
Definition coverage_raw : RawData :=
  mkRawData "coverage.csv" ["Temperature"; "A"; "B"] "Temperature"
    [coverage_row (CNum (lit 60)) (CNum (lit 10)) (CNum (lit 7));
     coverage_row (CNum (lit 61)) CNull (CNum (lit 6));
     coverage_row (CNum (lit 62)) (CNum (lit 8)) CNull;
     coverage_row (CNum (lit 63)) CNull (CNum (lit 4))]
    2.
Definition coverage_processor : DataProcessor :=
  mkDataProcessor (Some coverage_raw) None (settings new_DataProcessor).

(** A reading of three rows whose column [S] holds the text [Infinity]
    twice and an empty cell once. *)
Definition infinity_row (t s : cell) : Row :=
  list_to_map [("Temperature", t); ("S", s)].
Definition infinity_raw : RawData :=
  mkRawData "infinity.csv" ["Temperature"; "S"] "Temperature"
    [infinity_row (CNum (lit 60)) (CNum PInf);
     infinity_row (CNum (lit 61)) (CNum PInf);
     infinity_row (CNum (lit 62)) CNull]
    1.
Definition infinity_processor : DataProcessor :=
  mkDataProcessor (Some infinity_raw) None (settings new_DataProcessor).

(** The names of the samples a processor holds. *)
Definition sample_names (dp : DataProcessor) : option (list string) :=
  (fun pd => map name (samples pd)) <$> processedData dp.

(** Three sample records of an archive, named [A_3], [A] and [A]; the
    first has a single Rn value for two temperatures. *)
Definition collision_samples : list EDSParser.ParsedSample :=
  [EDSParser.mkParsedSample 0 "A_3" "SNP" "Target" ""
     [lit 60; lit 61] [lit 1] [] [];
   EDSParser.mkParsedSample 1 "A" "SNP" "Target" ""
     [lit 60; lit 61] [lit 2; lit 3] [] [];
   EDSParser.mkParsedSample 2 "A" "SNP" "Target" ""
     [lit 60; lit 61] [lit 4; lit 5] [] []].

(** Two sample records without a name, both in well 0. *)
Definition unnamed_samples : list EDSParser.ParsedSample :=
  [EDSParser.mkParsedSample 0 "" "SNP" "Target" "" [lit 60; lit 61]
     [lit 1; lit 2] [] [];
   EDSParser.mkParsedSample 0 "" "SNP" "Target" "" [lit 60; lit 61]
     [lit 3; lit 4] [] []].

(** The cell that the archive parser writes for sample [s] in row [i]. *)
Definition rnCell (s : EDSParser.ParsedSample) (i : nat) : cell :=
  match EDSParser.rnValues s !! i with
  | Some v => CNum v
  | None => CNull
  end.

(** The name that the archive parser gives to the sample at index [idx],
    the names [earlier] being in use. *)
Definition headerName (earlier : list string) (idx : nat)
    (s : EDSParser.ParsedSample) : string :=
  if decide (EDSParser.baseName s ∈ earlier)
  then EDSParser.baseName s +:+ "_" +:+ pretty (idx + 1)%nat
  else EDSParser.baseName s.

(** The cell of column [h] in row [i] of a parsed archive, and the number
    of cells of that row. *)
Definition output_cell (out : option RawData) (i : nat) (h : string)
    : option cell :=
  raw ← out; row ← data raw !! i; row !! h.
Definition output_row_size (out : option RawData) (i : nat) : option nat :=
  raw ← out; row ← data raw !! i; Some (size row).

(** * Further parts of the sources *)

(** ** Export ([DataProcessor.exportProcessedData]) *)

(** A cell of the export table: a header text, a number, or [undefined]
    (an array read past its end). *)
Inductive export_cell : Type :=
| EText (s : string)
| ENumber (x : jsnum)
| EUndefined.

#[export] Instance export_cell_eq_dec : EqDecision export_cell.
Proof. solve_decision. Defined.

(** [arr[i]] pushed into a row. *)
Definition cell_at (arr : list jsnum) (i : nat) : export_cell :=
  match arr !! i with
  | Some x => ENumber x
  | None => EUndefined
  end.

(** The body of the [samples.forEach] that builds the header row. *)
Definition exportHeaderStep (headers : list export_cell) (sample : Sample)
    : list export_cell :=
  let headers := headers ++ [EText (name sample +:+ "_Raw")] in
  let headers :=
    if normalized sample is Some _
    then headers ++ [EText (name sample +:+ "_Normalized")] else headers in
  let headers :=
    if derivative sample is Some _
    then headers ++ [EText (name sample +:+ "_Derivative")] else headers in
  let headers :=
    if difference sample is Some _
    then headers ++ [EText (name sample +:+ "_Difference")] else headers in
  headers.

(** The body of the [samples.forEach] that builds the row of index [i]. *)
Definition exportRowStep (i : nat) (row : list export_cell) (sample : Sample)
    : list export_cell :=
  let row := row ++ [cell_at (fluorescence sample) i] in
  let row :=
    match normalized sample with
    | Some n => row ++ [cell_at n i]
    | None => row
    end in
  let row :=
    match derivative sample with
    | Some d => row ++ [cell_at d i]
    | None => row
    end in
  let row :=
    match difference sample with
    | Some d => row ++ [cell_at d i]
    | None => row
    end in
  row.

(** [exportProcessedData]; [None] is [null]. *)
Definition exportProcessedData (dp : DataProcessor)
    : option (list (list export_cell)) :=
  match processedData dp with
  | None => None
  | Some pd =>
      let headers :=
        fold_left exportHeaderStep (samples pd) [EText "Temperature"] in
      let rows :=
        map (fun i : nat =>
               fold_left (exportRowStep i) (samples pd)
                         [cell_at (temperatures pd) i])
            (seq 0 (length (temperatures pd))) in
      Some (headers :: rows)
  end.

(** ** The text of the archive ([EDSParser.parseMeltCurveResult])

    A JavaScript string is modelled by a Rocq string, character by
    character (the characters are the code units, below 256).  The
    builtins [String.prototype.trim] and [parseFloat] are parameters. *)

Definition tab : Ascii.ascii := Ascii.ascii_of_nat 9.
Definition lf : Ascii.ascii := Ascii.ascii_of_nat 10.
Definition cr : Ascii.ascii := Ascii.ascii_of_nat 13.

(** [s.split(sep)] for a separator of one character. *)
Fixpoint split (sep : Ascii.ascii) (s : string) : list string :=
  match s with
  | EmptyString => [EmptyString]
  | String c s' =>
      if decide (c = sep) then EmptyString :: split sep s'
      else match split sep s' with
           | part :: parts => String c part :: parts
           | [] => [String c EmptyString]
           end
  end.

(** The replacement of every carriage return followed by a line feed by
    a line feed. *)
Fixpoint replace_crlf (s : string) : string :=
  match s with
  | EmptyString => EmptyString
  | String c s' =>
      match s' with
      | String c' s'' =>
          if decide (c = cr /\ c' = lf) then String lf (replace_crlf s'')
          else String c (replace_crlf s')
      | EmptyString => String c EmptyString
      end
  end.

(** The replacement of every carriage return by a line feed. *)
Fixpoint replace_cr (s : string) : string :=
  match s with
  | EmptyString => EmptyString
  | String c s' => String (if decide (c = cr) then lf else c) (replace_cr s')
  end.

(** [s.substring(n)]. *)
Fixpoint substring_from (n : nat) (s : string) : string :=
  match n, s with
  | O, _ => s
  | S n', String _ s' => substring_from n' s'
  | S _, EmptyString => EmptyString
  end.

(** [parseInt] on a string of decimal digits. *)
Definition digit_value (c : Ascii.ascii) : option nat :=
  let n := Ascii.nat_of_ascii c in
  if decide (48 <= n <= 57)%nat then Some (n - 48)%nat else None.
Fixpoint parseInt_digits (acc : nat) (s : string) : nat :=
  match s with
  | EmptyString => acc
  | String c s' => parseInt_digits (10 * acc + default 0%nat (digit_value c)) s'
  end.
Fixpoint all_digits (s : string) : bool :=
  match s with
  | EmptyString => true
  | String c s' => bool_decide (is_Some (digit_value c)) && all_digits s'
  end.

(** No character of [s] is a line terminator, so that [.*] matches [s]. *)
Fixpoint no_line_terminator (s : string) : bool :=
  match s with
  | EmptyString => true
  | String c s' => bool_decide (c <> lf /\ c <> cr) && no_line_terminator s'
  end.

(** The groups of the match of the sample-line pattern on a line, if it
    matches: a non-empty run of digits, three non-empty fields without a
    tab, and the rest of the line (any characters but line terminators),
    separated by tabs. *)
Definition sampleMatch (line : string)
    : option (string * string * string * string * string) :=
  match split tab line with
  | g1 :: g2 :: g3 :: g4 :: g5 :: rest =>
      let tail := String.concat (String tab EmptyString) (g5 :: rest) in
      if all_digits g1 && bool_decide (g1 <> EmptyString)
         && bool_decide (g2 <> EmptyString) && bool_decide (g3 <> EmptyString)
         && bool_decide (g4 <> EmptyString) && no_line_terminator tail
      then Some (g1, g2, g3, g4, tail)
      else None
  | _ => None
  end.

(** The labels of the field lines, each followed by a tab. *)
Definition label (name : string) : string := name +:+ String tab EmptyString.

Definition set_temperatures (v : list jsnum) (s : EDSParser.ParsedSample) :=
  EDSParser.mkParsedSample (EDSParser.wellNumber s) (EDSParser.sampleName s)
    (EDSParser.detector s) (EDSParser.task s) (EDSParser.tmValues s)
    v (EDSParser.rnValues s) (EDSParser.deltaRnTemperatures s)
    (EDSParser.deltaRnValues s).
Definition set_rnValues (v : list jsnum) (s : EDSParser.ParsedSample) :=
  EDSParser.mkParsedSample (EDSParser.wellNumber s) (EDSParser.sampleName s)
    (EDSParser.detector s) (EDSParser.task s) (EDSParser.tmValues s)
    (EDSParser.temperatures s) v (EDSParser.deltaRnTemperatures s)
    (EDSParser.deltaRnValues s).
Definition set_deltaRnTemperatures (v : list jsnum) (s : EDSParser.ParsedSample) :=
  EDSParser.mkParsedSample (EDSParser.wellNumber s) (EDSParser.sampleName s)
    (EDSParser.detector s) (EDSParser.task s) (EDSParser.tmValues s)
    (EDSParser.temperatures s) (EDSParser.rnValues s) v
    (EDSParser.deltaRnValues s).
Definition set_deltaRnValues (v : list jsnum) (s : EDSParser.ParsedSample) :=
  EDSParser.mkParsedSample (EDSParser.wellNumber s) (EDSParser.sampleName s)
    (EDSParser.detector s) (EDSParser.task s) (EDSParser.tmValues s)
    (EDSParser.temperatures s) (EDSParser.rnValues s)
    (EDSParser.deltaRnTemperatures s) v.

(** [samples.push(currentSample)] when there is a current sample with at
    least one temperature. *)
Definition pushCurrent (samples : list EDSParser.ParsedSample)
    (currentSample : option EDSParser.ParsedSample)
    : list EDSParser.ParsedSample :=
  match currentSample with
  | Some c =>
      if decide (0 < length (EDSParser.temperatures c))%nat
      then samples ++ [c] else samples
  | None => samples
  end.

(** The first loop: the header lines at the start are skipped. *)
Fixpoint skipHeaders (lines : list string) : list string :=
  match lines with
  | [] => []
  | line :: rest =>
      if String.prefix "Session Name" line || String.prefix (label "Well") line
      then skipHeaders rest else lines
  end.

Section Builtins.

Variable trim : string -> string.
Variable parseFloatString : string -> jsnum.

(** The loop of [parseTabValues] over the parts. *)
Fixpoint parseTabValues_loop (parts : list string) : list jsnum :=
  match parts with
  | [] => []
  | part :: rest =>
      let trimmed := trim part in
      if decide (trimmed = EmptyString) then parseTabValues_loop rest
      else
        let num := parseFloatString trimmed in
        if isNaN num then parseTabValues_loop rest
        else num :: parseTabValues_loop rest
  end.

Definition parseTabValues (str : string) : list jsnum :=
  parseTabValues_loop (split tab str).

(** The body of the second loop, for one line: the state is [samples]
    and [currentSample]. *)
Definition scanLine
    (st : list EDSParser.ParsedSample * option EDSParser.ParsedSample)
    (line : string)
    : list EDSParser.ParsedSample * option EDSParser.ParsedSample :=
  if decide (trim line = EmptyString) then st
  else
    match sampleMatch line with
    | Some (g1, g2, g3, g4, g5) =>
        (pushCurrent st.1 st.2,
         Some (EDSParser.mkParsedSample (parseInt_digits 0 g1) g2 g3 g4 g5
                 [] [] [] []))
    | None =>
        match st.2 with
        | Some c =>
            if String.prefix (label "Sample Temperatures") line then
              (st.1, Some (set_temperatures
                 (parseTabValues
                    (substring_from (String.length (label "Sample Temperatures"))
                                    line)) c))
            else if String.prefix (label "Rn values") line then
              (st.1, Some (set_rnValues
                 (parseTabValues
                    (substring_from (String.length (label "Rn values")) line))
                 c))
            else if String.prefix (label "Delta Rn Sample Temperatures") line then
              (st.1, Some (set_deltaRnTemperatures
                 (parseTabValues
                    (substring_from
                       (String.length (label "Delta Rn Sample Temperatures"))
                       line)) c))
            else if String.prefix (label "Delta Rn values") line then
              (st.1, Some (set_deltaRnValues
                 (parseTabValues
                    (substring_from (String.length (label "Delta Rn values"))
                                    line)) c))
            else st
        | None => st
        end
    end.

(** The lines of the text, and the samples collected from them. *)
Definition textLines (meltText : string) : list string :=
  split lf (replace_cr (replace_crlf meltText)).

Definition parseSamples (meltText : string) : list EDSParser.ParsedSample :=
  let st := fold_left scanLine (skipHeaders (textLines meltText)) ([], None) in
  pushCurrent st.1 st.2.

(** [parseMeltCurveResult]; [inl] is the message of the error thrown. *)
Definition parseMeltCurveResult (meltText : string) : string + RawData :=
  let samples := parseSamples meltText in
  if decide (length samples = 0%nat) then
    inl "No valid melt curve data found in file"
  else
    match EDSParser.formatForHRMAnalyzer samples with
    | Some parsed => inr parsed
    | None => inl "TypeError"
    end.

(** [parseEDSFile] once the archive is open: [meltResultFile] is the text
    of the entry [apldbio/sds/meltcuve_result.txt], if the archive has
    it.  Every error is thrown again with a prefix. *)
Definition parseEDSFile (meltResultFile : option string) : string + RawData :=
  let result :=
    match meltResultFile with
    | Some meltText => parseMeltCurveResult meltText
    | None => inl "No HRM/melt curve data found in this .eds file"
    end in
  match result with
  | inl message => inl ("Failed to parse .eds file: " +:+ message)
  | inr parsed => inr parsed
  end.

End Builtins.

(** ** Validation of a delimited file ([validateCSVData], [parseCSVFile])

    The order in which [Object.keys] lists the fields of a row is a
    parameter. *)

Section ObjectKeys.

Variable Object_keys : Row -> list string.

(** [validateCSVData]; [inl] is the error of an invalid result, [inr] the
    headers and the temperature header of a valid one. *)
Definition validateCSVData (data : list Row) : string + (list string * string) :=
  match data with
  | [] => inl "No data found in file"
  | row0 :: _ =>
      if decide (length (Object_keys row0) < 2)%nat then
        inl "File must have at least 2 columns (Temperature + 1 sample)"
      else
        let headers := Object_keys row0 in
        let tempHeader := default "undefined" (headers !! 0%nat) in
        let firstTemp := parseFloat (row0 !! tempHeader) in
        if isNaN firstTemp then
          inl "First column must contain temperature values"
        else inr (headers, tempHeader)
  end.

(** The [complete] callback of [parseCSVFile]: the reading it stores, or
    the message of the error it rejects with. *)
Definition parseCSVFile_complete (fileName : string) (data : list Row)
    : string + RawData :=
  match validateCSVData data with
  | inl error => inl error
  | inr (headers, tempHeader) =>
      inr (mkRawData fileName headers tempHeader data (length headers - 1))
  end.

End ObjectKeys.

(** ** File names ([getFileExtension], [FileHandler.handleFiles])

    The builtin [String.prototype.toLowerCase] is a parameter. *)

Definition dot : Ascii.ascii := Ascii.ascii_of_nat 46.

(** The loop of [s.lastIndexOf(c0)]: [i] is the index of the head of
    [s], [found] the last index found so far. *)
Fixpoint lastIndexOf_loop (c0 : Ascii.ascii) (i found : Z) (s : string) : Z :=
  match s with
  | EmptyString => found
  | String c s' =>
      lastIndexOf_loop c0 (i + 1) (if decide (c = c0) then i else found) s'
  end.

(** [s.lastIndexOf(c0)], -1 when [c0] does not occur. *)
Definition lastIndexOf (c0 : Ascii.ascii) (s : string) : Z :=
  lastIndexOf_loop c0 0 (-1) s.

(** [x >>> 0] on an integer. *)
Definition toUint32 (x : Z) : Z := (x `mod` 2 ^ 32)%Z.

(** [s.slice(start)] for [start >= 0]. *)
Fixpoint slice_from (start : Z) (s : string) : string :=
  match s with
  | EmptyString => EmptyString
  | String _ s' => if (start <=? 0)%Z then s else slice_from (start - 1) s'
  end.

Section LowerCase.

Variable toLowerCase : string -> string.

Definition getFileExtension (filename : string) : string :=
  toLowerCase
    (slice_from (toUint32 (lastIndexOf dot filename - 1) + 2) filename).

(** What [handleFiles] does with the names of the files it is given: the
    error toast of an empty or a wholly invalid selection, or the file it
    parses and with which parser.  [skipped] is the number shown in the
    "Some files skipped" toast, which is raised when it is not 0. *)
Inductive fileChoice : Type :=
| NoFiles
| InvalidFiles
| ParseEDS (name : string) (skipped : nat)
| ParseCSV (name : string) (skipped : nat).

Definition validExtensions : list string := ["csv"; "tsv"; "txt"; "eds"].

Definition handleFiles (names : list string) : fileChoice :=
  if decide (length names = 0%nat) then NoFiles
  else
    let validFiles :=
      filter (fun name => getFileExtension name ∈ validExtensions) names in
    match validFiles with
    | [] => InvalidFiles
    | file :: _ =>
        let skipped := (length names - length validFiles)%nat in
        if decide (getFileExtension file = "eds") then ParseEDS file skipped
        else ParseCSV file skipped
    end.

End LowerCase.

(** ** Colours ([generateColors]) *)

Definition baseColors : list string :=
  ["hsl(210, 90%, 50%)"; "hsl(30, 90%, 50%)"; "hsl(150, 70%, 40%)";
   "hsl(280, 70%, 50%)"; "hsl(0, 80%, 50%)"; "hsl(180, 70%, 40%)";
   "hsl(320, 70%, 50%)"; "hsl(60, 90%, 40%)"].

(** [baseColors[i % baseColors.length]]; the index is always in range. *)
Definition baseColor (i : nat) : string :=
  default "undefined" (baseColors !! (i mod length baseColors)%nat).

Definition generateColors (count : nat) : list string :=
  map baseColor (seq 0 count).

(** ** The charts ([ChartManager] in [js/chartManager.js])

    A chart is the configuration object handed to [Chart]: its labels and
    its datasets (the chart type and the options, which are constants, are
    left out).  Whether the page holds the canvas of a chart, and the
    builtin [toFixed] behind [formatNumber], are parameters. *)

Module ChartManager.

Record Dataset : Type := mkDataset {
  label : string;
  data : list jsnum;
  borderColor : option string;
  backgroundColor : string;
  borderWidth : Z;
  pointRadius : Z;
  pointHoverRadius : Z;
  hidden : bool;
  tension : jsnum
}.

Record Chart : Type := mkChart {
  labels : list jsnum;
  datasets : list Dataset
}.

(** The degree sign. *)
Definition degree : Ascii.ascii := Ascii.ascii_of_nat 176.

Definition set_hidden (h : bool) (d : Dataset) : Dataset :=
  mkDataset (label d) (data d) (borderColor d) (backgroundColor d)
            (borderWidth d) (pointRadius d) (pointHoverRadius d) h (tension d).

(** The object literal of the four [map] callbacks, for a label and a
    curve; [colors !! idx] is [None] where [this.colors[idx]] is
    [undefined]. *)
Definition dataset (colors : list string) (label : string) (data : list jsnum)
    (idx : nat) (sample : Sample) : Dataset :=
  mkDataset label data (colors !! idx)
            (default "undefined" (colors !! idx) +:+ "20")
            2 0 4 (negb (visible sample)) (lit (1 # 10)).

Section Page.

Variable hasCanvas : string -> bool.
Variable formatNumber : option jsnum -> Z -> string.

(** The datasets of the four charts.  After the [filter] the curve of a
    sample is present, so the default is never used. *)
Definition rawDatasets (colors : list string) (samples : list Sample)
    : list Dataset :=
  imap (fun idx sample =>
          dataset colors (name sample) (fluorescence sample) idx sample)
       samples.

Definition normalizedDatasets (colors : list string) (samples : list Sample)
    : list Dataset :=
  imap (fun idx sample =>
          dataset colors (name sample) (default [] (normalized sample))
                  idx sample)
       (filter (fun sample => is_Some (normalized sample)) samples).

Definition derivativeDatasets (colors : list string) (samples : list Sample)
    : list Dataset :=
  imap (fun idx sample =>
          dataset colors
            (name sample +:+ " (Tm: " +:+ formatNumber (tm sample) 1
             +:+ String degree "C)")
            (default [] (derivative sample)) idx sample)
       (filter (fun sample => is_Some (derivative sample)) samples).

Definition differenceDatasets (colors : list string) (samples : list Sample)
    : list Dataset :=
  imap (fun idx sample =>
          dataset colors (name sample) (default [] (difference sample))
                  idx sample)
       (filter (fun sample => is_Some (difference sample)) samples).

(** [createRawChart], [createNormalizedChart], [createDerivativeChart] and
    [createDifferenceChart], called on destroyed charts: the chart they
    store, [None] when they store none. *)
Definition createRawChart (colors : list string)
    (temperatures : list jsnum) (samples : list Sample) : option Chart :=
  if hasCanvas "rawChart"
  then Some (mkChart temperatures (rawDatasets colors samples)) else None.

Definition createNormalizedChart (colors : list string)
    (temperatures : list jsnum) (samples : list Sample) : option Chart :=
  if hasCanvas "normalizedChart"
  then Some (mkChart temperatures (normalizedDatasets colors samples))
  else None.

Definition createDerivativeChart (colors : list string)
    (temperatures : list jsnum) (samples : list Sample) : option Chart :=
  if hasCanvas "derivativeChart"
  then Some (mkChart temperatures (derivativeDatasets colors samples))
  else None.

Definition createDifferenceChart (colors : list string)
    (temperatures : list jsnum) (samples : list Sample) : option Chart :=
  if hasCanvas "differenceChart" then
    let datasets := differenceDatasets colors samples in
    if decide (length datasets = 0%nat) then None
    else Some (mkChart temperatures datasets)
  else None.

Record Charts : Type := mkCharts {
  raw : option Chart;
  normalized : option Chart;
  derivative : option Chart;
  difference : option Chart
}.

Record State : Type := mkState {
  charts : Charts;
  colors : list string
}.

(** The constructor. *)
Definition new_ChartManager : State :=
  mkState (mkCharts None None None None) [].

Definition createCharts (cm : State) (data : option ProcessedData) : State :=
  match data with
  | None => cm
  | Some d =>
      let colors := generateColors (length (samples d)) in
      mkState
        (mkCharts (createRawChart colors (temperatures d) (samples d))
                  (createNormalizedChart colors (temperatures d) (samples d))
                  (createDerivativeChart colors (temperatures d) (samples d))
                  (createDifferenceChart colors (temperatures d) (samples d)))
        colors
  end.

(** The body of [updateCharts] for one chart. *)
Definition updateChart (samples : list Sample) (chart : option Chart)
    : option Chart :=
  match chart with
  | None => None
  | Some c =>
      Some (mkChart (labels c)
              (imap (fun idx dataset =>
                       match samples !! idx with
                       | Some sample => set_hidden (negb (visible sample)) dataset
                       | None => dataset
                       end)
                    (datasets c)))
  end.

Definition updateCharts (cm : State) (data : option ProcessedData) : State :=
  match data with
  | None => cm
  | Some d =>
      mkState
        (mkCharts (updateChart (samples d) (raw (charts cm)))
                  (updateChart (samples d) (normalized (charts cm)))
                  (updateChart (samples d) (derivative (charts cm)))
                  (updateChart (samples d) (difference (charts cm))))
        (colors cm)
  end.

Definition getColors (cm : State) : list string := colors cm.

End Page.

End ChartManager.

(** ** The reference menu ([HRMAnalyzer.populateReferenceSamples])

    The options that the menu holds after the placeholder: the number
    assigned to [option.value] and the text of the option.  The menu
    stores the value as its decimal text, which [runAnalysis] hands to
    [analyze], where [parseInt] reads the number back. *)

Definition populateReferenceSamples (data : RawData) : list (Z * string) :=
  omap id
    (imap (fun idx header =>
             if decide (idx = 0%nat) then None
             else Some (Z.of_nat idx - 1, header)%Z)
          (headers data)).

(** The [referenceSample] that [runAnalysis] builds from the value of the
    selected option, [None] for the placeholder, whose value is empty. *)
Definition selectedReference (value : option Z) : reference :=
  match value with
  | None => RefNull
  | Some v => RefValue (Some v)
  end.

(** ** Further predicates *)

(** Two samples agree on everything but the difference curve. *)
Definition same_but_difference (s s' : Sample) : Prop :=
  name s' = name s /\ fluorescence s' = fluorescence s /\
  visible s' = visible s /\ normalized s' = normalized s /\
  derivative s' = derivative s /\ tm s' = tm s.

(** The last value present among the first [i + 1] entries of a column,
    and the first value present in the column. *)
Definition last_present (arr : list (option jsnum)) (i : nat) : option jsnum :=
  last (omap id (take (S i) arr)).
Definition first_present (arr : list (option jsnum)) : option jsnum :=
  head (omap id arr).

(** The curves that a sample contributes to the export, each with the
    title of its column, in the order of the columns. *)
Definition sampleColumns (s : Sample) : list (string * list jsnum) :=
  [(name s +:+ "_Raw", fluorescence s)] ++
  (if normalized s is Some n then [(name s +:+ "_Normalized", n)] else []) ++
  (if derivative s is Some d then [(name s +:+ "_Derivative", d)] else []) ++
  (if difference s is Some d then [(name s +:+ "_Difference", d)] else []).

(** Every curve that a sample holds has [N] values. *)
Definition curves_complete (N : nat) (s : Sample) : Prop :=
  length (fluorescence s) = N /\
  (forall n, normalized s = Some n -> length n = N) /\
  (forall d, derivative s = Some d -> length d = N) /\
  (forall d, difference s = Some d -> length d = N).

(** The processed data hold at least one sample, and every curve has one
    value per temperature. *)
Definition well_formed (pd : ProcessedData) : Prop :=
  samples pd <> [] /\
  Forall (curves_complete (length (temperatures pd))) (samples pd).

(** The processed data of a processor, if any, are well formed. *)
Definition processor_ok (dp : DataProcessor) : Prop :=
  forall pd, processedData dp = Some pd -> well_formed pd.

(** A line made of fields separated by tabs, and a text made of lines. *)
Definition tsv (fields : list string) : string :=
  String.concat (String tab EmptyString) fields.
Definition text_of_lines (lines : list string) : string :=
  String.concat (String lf EmptyString) lines.

(** A reader of unsigned decimal integers, NaN on anything else: what
    [parseFloat] gives on such texts. *)
Definition readDigits (s : string) : jsnum :=
  if all_digits s && bool_decide (s <> EmptyString)
  then of_nat (parseInt_digits 0 s) else NaN.

(** The text of a small archive: two header lines, a record with data, a
    record without temperatures, and a record with data. *)
Definition archive_text : string :=
  text_of_lines
    [tsv ["Session Name"; "demo"];
     tsv ["Well"; "Sample Name"; "Detector"; "Task"; "Tm"];
     tsv ["Rn values"; "9"; "9"];
     tsv ["0"; "A"; "SNP"; "Target"; "61"];
     tsv ["Sample Temperatures"; "60"; "61"; "62"];
     tsv ["Rn values"; "5"; "x"; "3"; ""; "1"];
     "";
     tsv ["1"; "B"; "SNP"; "Target"; ""];
     tsv ["Rn values"; "7"; "7"; "7"];
     tsv ["2"; "C"; "SNP"; "Target"; "60"; "61"];
     tsv ["Sample Temperatures"; "60"; "61"; "62"];
     tsv ["Rn values"; "4"; "2"]].

(** A sample record whose number arrays hold no NaN. *)
Definition record_clean (s : EDSParser.ParsedSample) : Prop :=
  NaN_free (EDSParser.temperatures s) /\ NaN_free (EDSParser.rnValues s) /\
  NaN_free (EDSParser.deltaRnTemperatures s) /\
  NaN_free (EDSParser.deltaRnValues s).

(** The invariant of the second loop of the parser: the records collected
    have temperatures, and no array of a record holds a NaN. *)
Definition scan_ok
    (st : list EDSParser.ParsedSample * option EDSParser.ParsedSample) : Prop :=
  Forall (fun s => EDSParser.temperatures s <> [] /\ record_clean s) st.1 /\
  (forall c, st.2 = Some c -> record_clean c).

(** The string [s] does not hold the character [c0]. *)
Fixpoint no_char (c0 : Ascii.ascii) (s : string) : bool :=
  match s with
  | EmptyString => true
  | String c s' => bool_decide (c <> c0) && no_char c0 s'
  end.

(** The three line separators. *)
Definition sep_lf : string := String lf EmptyString.
Definition sep_cr : string := String cr EmptyString.
Definition sep_crlf : string := String cr (String lf EmptyString).

(** The ASCII part of [toLowerCase]. *)
Definition lower_char (c : Ascii.ascii) : Ascii.ascii :=
  let n := Ascii.nat_of_ascii c in
  if decide (65 <= n <= 90)%nat then Ascii.ascii_of_nat (n + 32) else c.

Fixpoint lower (s : string) : string :=
  match s with
  | EmptyString => EmptyString
  | String c s' => String (lower_char c) (lower s')
  end.

(** A file name that [handleFiles] accepts. *)
Definition validName (toLowerCase : string -> string) (name : string) : Prop :=
  getFileExtension toLowerCase name ∈ validExtensions.

(** The order of [Object.keys] on the rows of a delimited file with the
    columns [Temperature], [A], [B]. *)
Definition keys_TAB (row : Row) : list string := ["Temperature"; "A"; "B"].

#[export] Instance validName_dec (toLowerCase : string -> string)
    (name : string) : Decision (validName toLowerCase name).
Proof. unfold validName. apply _. Defined.

(** A curve is held by every sample or by none. *)
Definition all_or_none {A} (f : Sample -> option A) (l : list Sample) : Prop :=
  Forall (fun s => f s = None) l \/ Forall (fun s => is_Some (f s)) l.

(** Each of the three computed curves is held by every sample or by
    none. *)
Definition curves_uniform (pd : ProcessedData) : Prop :=
  all_or_none normalized (samples pd) /\
  all_or_none derivative (samples pd) /\
  all_or_none difference (samples pd).

Definition processor_uniform (dp : DataProcessor) : Prop :=
  forall pd, processedData dp = Some pd -> curves_uniform pd.

(** * Proof support *)

#[local] Arguments Qcplus : simpl never.
#[local] Arguments Qcopp : simpl never.
#[local] Arguments Qcmult : simpl never.
#[local] Arguments Qcinv : simpl never.
#[local] Arguments Qcdiv : simpl never.
#[local] Arguments Qcminus : simpl never.
#[local] Arguments Q2Qc : simpl never.

(** Closed decidable goals are settled by evaluation. *)
Ltac by_evaluation :=
  match goal with
  | |- ?P => apply (bool_decide_unpack P); vm_compute; exact I
  end.

(** * Properties *)

(** ** Order facts on numbers *)

Ltac js_order :=
  simpl; intros; try discriminate; try reflexivity;
  repeat case_bool_decide; try discriminate; try reflexivity;
  unfold Qclt, Qcle in *; try lra.

Lemma isNaN_abs (x : jsnum) : isNaN (abs x) = isNaN x.
Proof. by destruct x. Qed.

Lemma le_refl (a : jsnum) : isNaN a = false -> JS.le a a = true.
Proof. destruct a; js_order. Qed.

Lemma gt_false_le (a b : jsnum) :
  isNaN a = false -> isNaN b = false -> (a >? b)%js = false -> JS.le a b = true.
Proof. destruct a, b; js_order. Qed.

Lemma gt_le_trans (a b c : jsnum) :
  (a >? b)%js = true -> JS.le c b = true -> (a >? c)%js = true.
Proof. destruct a, b, c; js_order. Qed.

Lemma le_gt_le (a b c : jsnum) :
  JS.le a b = true -> (c >? b)%js = true -> JS.le a c = true.
Proof. destruct a, b, c; js_order. Qed.

Lemma gt_not_le (a b : jsnum) : (a >? b)%js = true -> JS.le a b = false.
Proof. destruct a, b; js_order. Qed.

(** ** Array reads *)

Lemma get_app_l (pre rest : list jsnum) (j : nat) :
  (j < length pre)%nat -> get (pre ++ rest) j = get pre j.
Proof. intros Hj. unfold get. by rewrite lookup_app_l. Qed.

Lemma get_snoc (pre : list jsnum) (d : jsnum) :
  get (pre ++ [d]) (length pre) = d.
Proof. unfold get. by rewrite list_lookup_middle. Qed.

Lemma get_lookup (d : list jsnum) (j : nat) (x : jsnum) :
  d !! j = Some x -> get d j = x.
Proof. intros H. unfold get. by rewrite H. Qed.

Lemma get_NaN_free (d : list jsnum) (j : nat) :
  NaN_free d -> (j < length d)%nat -> isNaN (get d j) = false.
Proof.
  intros Hd Hj. unfold get.
  destruct (lookup_lt_is_Some_2 d j Hj) as [x Hx]. rewrite Hx. simpl.
  by apply (Forall_lookup_1 _ _ _ _ Hd Hx).
Qed.

(** ** Tm detection *)

(** The invariant of the scan: [pre] is the part already scanned, [idx]
    the candidate and [m] its value. *)
Lemma findTm_loop_spec (rest pre : list jsnum) (idx : nat) (m : jsnum) :
  NaN_free (pre ++ rest) ->
  (idx < length pre)%nat ->
  get pre idx = m ->
  (forall j, (j < length pre)%nat -> JS.le (abs (get pre j)) (abs m) = true) ->
  (forall j, (j < idx)%nat -> (abs m >? abs (get pre j))%js = true) ->
  first_max_abs (pre ++ rest) (findTm_loop rest (length pre) idx m).
Proof.
  revert pre idx m.
  induction rest as [|d rest IH]; intros pre idx m Hfree Hidx Hm Hle Hgt.
  - simpl. rewrite app_nil_r. subst m. by repeat split.
  - assert (Hd : isNaN d = false).
    { apply Forall_app in Hfree as [_ Hr]. by inversion Hr. }
    assert (Hmn : isNaN m = false).
    { subst m. apply get_NaN_free; [|done]. by apply Forall_app in Hfree as [? _]. }
    assert (Hlen : length (pre ++ [d]) = S (length pre)).
    { rewrite length_app. simpl. lia. }
    simpl. replace (pre ++ d :: rest) with ((pre ++ [d]) ++ rest) in *
      by (by rewrite <- app_assoc).
    rewrite <- Hlen.
    destruct (abs d >? abs m)%js eqn:Hcmp.
    + apply IH; [done | lia | apply get_snoc | |].
      * intros j Hj. rewrite Hlen in Hj.
        destruct (decide (j = length pre)) as [->|Hne].
        -- rewrite get_snoc. apply le_refl. by rewrite isNaN_abs.
        -- rewrite get_app_l by lia. eapply le_gt_le; [apply Hle; lia | done].
      * intros j Hj. rewrite get_app_l by lia.
        eapply gt_le_trans; [done | apply Hle; lia].
    + apply IH; [done | lia | by rewrite get_app_l | |].
      * intros j Hj. rewrite Hlen in Hj.
        destruct (decide (j = length pre)) as [->|Hne].
        -- rewrite get_snoc. apply gt_false_le; by rewrite ?isNaN_abs.
        -- rewrite get_app_l by lia. apply Hle. lia.
      * intros j Hj. rewrite get_app_l by lia. by apply Hgt.
Qed.

Lemma findTm_index_spec (d : list jsnum) :
  d <> [] -> NaN_free d -> first_max_abs d (findTm_index d).
Proof.
  destruct d as [|x t]; [done|]. intros _ Hfree.
  unfold findTm_index. simpl tail.
  change (x :: t) with ([x] ++ t).
  change 1%nat with (length [x]).
  apply findTm_loop_spec; try done.
  - simpl. lia.
  - intros j Hj. simpl in Hj. assert (j = 0%nat) as -> by lia.
    apply le_refl. rewrite isNaN_abs. by inversion Hfree.
  - intros j Hj. lia.
Qed.

(** There is at most one first index of maximal absolute value. *)
Lemma first_max_abs_unique (d : list jsnum) (i j : nat) :
  first_max_abs d i -> first_max_abs d j -> i = j.
Proof.
  intros (Hi & Hile & Higt) (Hj & Hjle & Hjgt).
  destruct (Nat.lt_trichotomy i j) as [Hlt | [Heq | Hlt]]; [|done|].
  - specialize (Hjgt i Hlt). apply gt_not_le in Hjgt.
    rewrite (Hile j Hj) in Hjgt. discriminate.
  - specialize (Higt j Hlt). apply gt_not_le in Higt.
    rewrite (Hjle i Hi) in Higt. discriminate.
Qed.

(** C2 (as amended).  For a non-empty derivative without NaN and
    temperatures of the same length, [findTm] returns the temperature at
    the first index whose absolute derivative is maximal, and that index
    is the only such one; the scan moves its candidate exactly when the
    absolute value of the element strictly exceeds that of the current
    maximum. *)
Theorem C2_findTm_first_max_abs (temperatures d : list jsnum) :
  d <> [] ->
  length temperatures = length d ->
  NaN_free d ->
  first_max_abs d (findTm_index d) /\
  (forall i, first_max_abs d i -> i = findTm_index d) /\
  (exists t, temperatures !! findTm_index d = Some t /\
             findTm temperatures d = Some t) /\
  (forall x rest i idx m,
      findTm_loop (x :: rest) i idx m =
      if (abs x >? abs m)%js then findTm_loop rest (S i) i x
      else findTm_loop rest (S i) idx m).
Proof.
  intros Hne Hlen Hfree.
  pose proof (findTm_index_spec d Hne Hfree) as Hspec.
  split; [done|]. split.
  - intros i Hi. by apply (first_max_abs_unique d).
  - split; [|done].
    destruct Hspec as (Hlt & _). rewrite <- Hlen in Hlt.
    destruct (lookup_lt_is_Some_2 _ _ Hlt) as [t Ht].
    exists t. by split.
Qed.

(** A tie between [-5] and [5] is won by the earlier index. *)
Lemma C2_findTm_witness :
  findTm [lit 60; lit 61; lit 62] [lit 1; lit (-5); lit 5] = Some (lit 61).
Proof.
  destruct (C2_findTm_first_max_abs
              [lit 60; lit 61; lit 62] [lit 1; lit (-5); lit 5])
    as (_ & _ & (t & Ht & Hf) & _).
  - discriminate.
  - reflexivity.
  - repeat constructor.
  - rewrite Hf, <- Ht. reflexivity.
Defined.

(** C2 (as stated) fails when the first element is NaN: the scan keeps
    index 0 although the value at index 1 has the larger absolute value,
    and no index of that array is one of maximal absolute value. *)
Lemma C2_counterexample :
  findTm [lit 60; lit 61] [NaN; lit 5] = Some (lit 60) /\
  findTm_index [NaN; lit 5] = 0%nat /\
  isNaN (get [NaN; lit 5] 0) = true /\
  ~ (exists i, first_max_abs [NaN; lit 5] i /\
               findTm [lit 60; lit 61] [NaN; lit 5] = [lit 60; lit 61] !! i).
Proof.
  split; [reflexivity|]. split; [reflexivity|]. split; [reflexivity|].
  intros (i & (Hi & Hle & _) & _). simpl in Hi.
  destruct i as [|[|i]]; [| |lia].
  - specialize (Hle 1%nat ltac:(simpl; lia)). discriminate.
  - specialize (Hle 0%nat ltac:(simpl; lia)). discriminate.
Qed.

(** ** Automatic melt regions *)

Lemma floor_mul_tenth (n : nat) : floor_mul n (1 # 10) = (Z.of_nat n `div` 10)%Z.
Proof.
  unfold floor_mul. rewrite Zdiv_Qdiv. apply Qfloor_comp.
  unfold Qdiv, Qinv. simpl. reflexivity.
Qed.

Lemma floor_mul_nine_tenths (n : nat) :
  floor_mul n (9 # 10) = ((9 * Z.of_nat n) `div` 10)%Z.
Proof.
  unfold floor_mul. rewrite Zdiv_Qdiv. apply Qfloor_comp.
  rewrite inject_Z_mult. unfold Qdiv, Qinv. simpl.
  unfold Qeq. simpl. lia.
Qed.

(** C7.  For an axis of [N] temperatures the detected regions are
    [preStart = 0], [preEnd = floor (0.1 * N)], [postStart = floor (0.9 * N)]
    and [postEnd = N] (the two floors are [N / 10] and [9 N / 10] in
    integer division), and they satisfy
    [0 <= preStart <= preEnd <= postStart <= postEnd <= N]. *)
Theorem C7_detectMeltRegions_auto (temperatures fluorescence : list jsnum) :
  let N := length temperatures in
  detectMeltRegions temperatures fluorescence =
    mkRegions 0 (Qfloor (inject_Z (Z.of_nat N) * (1 # 10)))
              (Qfloor (inject_Z (Z.of_nat N) * (9 # 10))) (Z.of_nat N) /\
  preEnd (detectMeltRegions temperatures fluorescence) = (Z.of_nat N `div` 10)%Z /\
  postStart (detectMeltRegions temperatures fluorescence)
    = ((9 * Z.of_nat N) `div` 10)%Z /\
  regions_ordered (detectMeltRegions temperatures fluorescence) N.
Proof.
  intros N. split; [reflexivity|].
  unfold regions_ordered, detectMeltRegions. simpl.
  fold N. rewrite floor_mul_tenth, floor_mul_nine_tenths.
  repeat split; try lia.
  - apply Z.div_pos; lia.
  - apply Z.div_le_mono; lia.
  - apply Z.div_le_upper_bound; lia.
Qed.

(** C9.  The detected regions depend only on the number of temperatures:
    two temperature arrays of the same length give the same regions,
    whatever their values and whatever the fluorescence arrays. *)
Theorem C9_detectMeltRegions_length_only
    (temperatures1 temperatures2 fluorescence1 fluorescence2 : list jsnum) :
  length temperatures1 = length temperatures2 ->
  detectMeltRegions temperatures1 fluorescence1 =
  detectMeltRegions temperatures2 fluorescence2.
Proof. intros Hlen. unfold detectMeltRegions. by rewrite Hlen. Qed.

Lemma C9_detectMeltRegions_witness :
  detectMeltRegions [lit 60; lit 61; lit 62] [lit 100; lit 50; lit 10] =
  detectMeltRegions [lit 70; NaN; PInf] [].
Proof. apply C9_detectMeltRegions_length_only. reflexivity. Defined.

(** ** Normalization *)

Lemma Qc_sub_zero (a b : Qc) : (a + - b = 0)%Qc -> a = b.
Proof. intros H. rewrite <- (Qcplus_0_l b), <- H. ring. Qed.

Ltac Qc_field a b Hab :=
  field; let H0 := fresh in
  intros H0; apply Hab, Qc_sub_zero; rewrite <- H0; ring.

Lemma normalizeValue_finite (a b v : Qc) :
  a <> b ->
  normalizeValue (Fin a) (Fin b) (Fin v) = Fin ((v + - b) / (a + - b))%Qc.
Proof.
  intros Hab. unfold normalizeValue, JS.sub, JS.div. simpl.
  destruct (decide _) as [H0|_]; [|done].
  by apply Qc_sub_zero in H0.
Qed.

Lemma affine_denorm_norm (a b v : Qc) :
  a <> b -> affine_denorm a b (affine_norm a b v) = v.
Proof. intros Hab. unfold affine_denorm, affine_norm. Qc_field a b Hab. Qed.

Lemma affine_norm_denorm (a b y : Qc) :
  a <> b -> affine_norm a b (affine_denorm a b y) = y.
Proof. intros Hab. unfold affine_denorm, affine_norm. Qc_field a b Hab. Qed.

Lemma normalizeValue_affine (a b v : Qc) :
  a <> b -> normalizeValue (Fin a) (Fin b) (Fin v) = Fin (affine_norm a b v).
Proof.
  intros Hab. rewrite normalizeValue_finite by done. f_equal.
  unfold affine_norm. Qc_field a b Hab.
Qed.

Lemma normalizeValue_post (a b : Qc) :
  a <> b -> normalizeValue (Fin a) (Fin b) (Fin b) = zero.
Proof.
  intros Hab. rewrite normalizeValue_finite by done. unfold zero. f_equal.
  Qc_field a b Hab.
Qed.

Lemma normalizeValue_pre (a b : Qc) :
  a <> b -> normalizeValue (Fin a) (Fin b) (Fin a) = one.
Proof.
  intros Hab. rewrite normalizeValue_finite by done. unfold one. f_equal.
  Qc_field a b Hab.
Qed.

Lemma normalizeValue_inj (a b : Qc) (x y : jsnum) :
  a <> b ->
  normalizeValue (Fin a) (Fin b) x = normalizeValue (Fin a) (Fin b) y -> x = y.
Proof.
  intros Hab.
  destruct x as [v| | |], y as [w| | |];
    try (rewrite !normalizeValue_affine by done);
    try (rewrite normalizeValue_affine by done);
    unfold normalizeValue, JS.sub, JS.div; simpl;
    repeat (destruct (decide _)); try done.
  intros H.
  apply (f_equal (fun x => match x with Fin q => q | _ => 0%Qc end)) in H.
  simpl in H. f_equal.
  rewrite <- (affine_denorm_norm a b v Hab), <- (affine_denorm_norm a b w Hab).
  by rewrite H.
Qed.

Lemma map_replicate_const {A B} (f : A -> B) (x : A) (y : B) (n : nat) :
  f x = y -> map f (replicate n x) = replicate n y.
Proof. intros H. induction n as [|n IH]; simpl; [done|]. by rewrite H, IH. Qed.




(** ** The degenerate scenario: an empty pre-melt window *)

Lemma add_NaN_r (x : jsnum) : (x + NaN)%js = NaN.
Proof. by destruct x. Qed.

Lemma fold_add_NaN (l : list jsnum) :
  all_NaN l -> fold_left (fun sum val => sum + val)%js l NaN = NaN.
Proof. induction 1 as [|x l -> _ IH]; simpl; [done|]. exact IH. Qed.

Lemma mean_all_NaN (l : list jsnum) : all_NaN l -> mean l = NaN.
Proof.
  intros Hl. unfold mean. destruct Hl as [|x l -> Hl].
  - by_evaluation.
  - simpl. rewrite ?add_NaN_r, fold_add_NaN by done. reflexivity.
Qed.

Lemma slice_all_NaN (l : list jsnum) (s e : Z) : all_NaN l -> all_NaN (slice l s e).
Proof. intros Hl. unfold slice. by apply Forall_take, Forall_drop. Qed.

(** Smoothing an all-NaN curve gives an all-NaN curve, for every window. *)
Lemma movingAverage_all_NaN (l : list jsnum) (w : Z) :
  all_NaN l -> movingAverage l w = replicate (length l) NaN.
Proof.
  intros Hl. unfold movingAverage.
  assert (Hgen : forall (f : nat -> jsnum) n k,
             (forall i, f i = NaN) -> map f (seq k n) = replicate n NaN).
  { intros f n. induction n as [|n IH]; intros k Hf; simpl; [done|].
    by rewrite Hf, IH. }
  apply Hgen. intros i. by apply mean_all_NaN, slice_all_NaN.
Qed.

Lemma scenario_normalized :
  normalizeArray scenario_fluorescence 0 0 4 5 = replicate 5 NaN.
Proof. by_evaluation. Qed.

Lemma scenario_derivative :
  map neg (calculateDerivative scenario_temperatures (replicate 5 NaN)) =
  replicate 5 NaN.
Proof. by_evaluation. Qed.

Lemma scenario_deriveSample (w : Z) (s : Sample) :
  normalized s = Some (replicate 5 NaN) ->
  deriveSample scenario_temperatures w s =
  Some (set_derivative_tm (replicate 5 NaN) (Some (lit 60)) s).
Proof.
  intros Hn. unfold deriveSample. rewrite Hn. cbn [mbind option_bind].
  rewrite movingAverage_all_NaN by (by repeat constructor).
  change (length (replicate 5 NaN)) with 5%nat.
  rewrite scenario_derivative. reflexivity.
Qed.

Lemma scenario_analyze_try (mode : string) (w : Z) :
  analyze_try (mkSettings mode w RefNull) scenario_data =
  Some (mkProcessedData scenario_temperatures [scenario_sample]
                        (Some (mkRegions 0 0 4 5))).
Proof.
  unfold analyze_try, scenario_data.
  cbn [samples temperatures lookup list_lookup mbind option_bind fluorescence
       smoothingWindow referenceSample map].
  change (detectMeltRegions scenario_temperatures scenario_fluorescence)
    with (mkRegions 0 0 4 5).
  unfold normalizeSample.
  cbn [preStart preEnd postStart postEnd fluorescence].
  rewrite scenario_normalized.
  cbn [mapM].
  rewrite scenario_deriveSample by done. reflexivity.
Qed.

(** C4 (as amended).  In the scenario the automatic regions are
    [preStart = 0], [preEnd = 0], [postStart = 4], [postEnd = 5]; the mean
    of the empty pre-melt window is NaN; the analysis completes (it returns
    its result and announces completion, without an error) for every
    smoothing window; every normalized value and every value of the
    derivative curve is NaN, none is zero; and Tm detection, which scans
    the NaN values as they are, reports the first temperature, 60. *)
Theorem C4_degenerate_scenario (mode : string) (w : Z) :
  detectMeltRegions scenario_temperatures scenario_fluorescence =
    mkRegions 0 0 4 5 /\
  mean (slice scenario_fluorescence 0 0) = NaN /\
  movingAverage (replicate 5 NaN) w = replicate 5 NaN /\
  calculateDerivative scenario_temperatures (replicate 5 NaN) = replicate 5 NaN /\
  findTm scenario_temperatures (replicate 5 NaN) = Some (lit 60) /\
  let dp := mkDataProcessor None (Some scenario_data) (mkSettings mode w RefNull) in
  exists pd,
    analyze dp (mkPatch None None None) =
      (mkDataProcessor None (Some pd) (mkSettings mode w RefNull), Some pd,
       [Loading true; Loading false;
        Toast "Analysis complete" "Data processed successfully" "success";
        Dispatch "analysisComplete"]) /\
    regions pd = Some (mkRegions 0 0 4 5) /\
    temperatures pd = scenario_temperatures /\
    exists s, samples pd = [s] /\
      fluorescence s = scenario_fluorescence /\
      normalized s = Some (replicate 5 NaN) /\
      derivative s = Some (replicate 5 NaN) /\
      tm s = Some (lit 60) /\
      Forall (fun x => isFinite x = false /\ x <> zero) (replicate 5 NaN).
Proof.
  split; [reflexivity|]. split; [by_evaluation|].
  split; [by apply (movingAverage_all_NaN (replicate 5 NaN)); repeat constructor|].
  split; [by_evaluation|]. split; [reflexivity|].
  intros dp. eexists. split.
  - unfold analyze, dp. cbn [processedData settings rawData].
    change (merge_settings _ _) with (mkSettings mode w RefNull).
    rewrite scenario_analyze_try. reflexivity.
  - simpl. repeat split. exists scenario_sample.
    repeat split; repeat constructor; done.
Qed.

(** C4 (as stated) fails at Tm detection: the NaN values do not come out
    of it.  The sample of the scenario gets the Tm 60, a finite number,
    from an all-NaN derivative. *)
Lemma C4_counterexample :
  exists pd s,
    analyze_try (mkSettings "auto" 5 RefNull) scenario_data = Some pd /\
    samples pd = [s] /\
    derivative s = Some (replicate 5 NaN) /\
    tm s = Some (lit 60) /\
    isFinite (lit 60) = true.
Proof.
  eexists _, scenario_sample. rewrite scenario_analyze_try.
  repeat split.
Qed.

(** ** Sample extraction *)

Lemma fraction_gt_half (k n : nat) :
  (0 < n)%nat -> ((1 # 2 < fraction k n)%Q <-> (n < 2 * k)%nat).
Proof.
  intros Hn. destruct n as [|m]; [lia|].
  unfold fraction, Qlt, Qdiv, Qmult, Qinv, inject_Z. simpl Qnum. simpl Qden.
  lia.
Qed.

Lemma coverage_gt_half (fl : list (option jsnum)) (n : nat) :
  (0 < n)%nat ->
  (coverage fl n >? lit (5 # 10))%js = true <->
  (1 # 2 < fraction (validCount fl) n)%Q.
Proof.
  intros Hn. unfold coverage, of_nat, of_Z, JS.div, lit.
  assert (Hq : ~ (inject_Z (Z.of_nat n) == 0)%Q).
  { change 0%Q with (inject_Z 0). rewrite inject_Z_injective. lia. }
  destruct (decide (Q2Qc (inject_Z (Z.of_nat n)) = 0%Qc)) as [H0|H0].
  { exfalso. apply Hq. apply Q2Qc_eq_iff in H0. exact H0. }
  unfold JS.gt. rewrite bool_decide_eq_true.
  unfold Qclt, Qcdiv, Qcmult, Qcinv, fraction, Qdiv. simpl this.
  rewrite !Qred_correct.
  assert (He : (5 # 10 == 1 # 2)%Q) by reflexivity.
  rewrite He. reflexivity.
Qed.

Lemma validCount_columnValues (rows : list Row) (h : string) :
  validCount (columnValues rows h) = present rows h.
Proof.
  unfold validCount, present, columnValues.
  induction rows as [|row rows IH]; [done|].
  cbn [map]. rewrite !filter_cons.
  destruct (isNaN (parseFloat (row !! h))) eqn:Hnan.
  - rewrite decide_False by (intros H; by apply H).
    rewrite decide_False by done. exact IH.
  - rewrite decide_True by done. rewrite decide_True by done.
    simpl. by rewrite IH.
Qed.

Lemma extractColumn_cases (raw : RawData) (acc : list Sample * list effect)
    (h : string) :
  (0 < length (validRows raw))%nat ->
  extractColumn raw (validRows raw) (length (validRows raw)) acc h =
  if decide (accepted raw h) then
    (acc.1 ++ [columnSample (validRows raw) h], acc.2)
  else if decide (dropped raw h) then (acc.1, acc.2 ++ [Warn h])
  else acc.
Proof.
  intros Hn. unfold extractColumn, accepted, dropped.
  destruct (decide (h = tempHeader raw)) as [->|Hne].
  - rewrite decide_False by (by intros [? _]).
    by rewrite decide_False by (by intros [? _]).
  - pose proof (coverage_gt_half (columnValues (validRows raw) h)
                  (length (validRows raw)) Hn) as Hcov.
    rewrite validCount_columnValues in Hcov.
    destruct (_ >? _)%js.
    + rewrite decide_True; [done|]. split; [done|]. by apply Hcov.
    + assert (Hnot : ~ (1 # 2 < fraction (present (validRows raw) h)
                                    (length (validRows raw)))%Q).
      { intros H. apply Hcov in H. discriminate. }
      rewrite decide_False by (by intros [_ ?]).
      by rewrite decide_True.
Qed.

Lemma fold_extractColumn (raw : RawData) (hs : list string)
    (ss : list Sample) (log : list effect) :
  (0 < length (validRows raw))%nat ->
  fold_left (extractColumn raw (validRows raw) (length (validRows raw)))
            hs (ss, log) =
  (ss ++ map (columnSample (validRows raw)) (filter (accepted raw) hs),
   log ++ map Warn (filter (dropped raw) hs)).
Proof.
  intros Hn. revert ss log.
  induction hs as [|h hs IH]; intros ss log.
  - simpl. by rewrite !app_nil_r.
  - cbn [fold_left]. rewrite extractColumn_cases by done.
    rewrite !filter_cons. cbn [fst snd].
    destruct (decide (accepted raw h)) as [Ha|Ha].
    + rewrite decide_False by (intros [_ Hd]; destruct Ha as [_ Ha]; done).
      rewrite IH. cbn [map]. by rewrite <- app_assoc.
    + destruct (decide (dropped raw h)) as [Hd|Hd].
      * rewrite IH. cbn [map]. by rewrite <- app_assoc.
      * apply IH.
Qed.

Lemma extractSamples_run (dp : DataProcessor) (raw : RawData) :
  rawData dp = Some raw ->
  validRows raw <> [] ->
  let rows := validRows raw in
  let kept := filter (accepted raw) (headers raw) in
  let drops := filter (dropped raw) (headers raw) in
  extractSamples dp =
  if decide (length (map (columnSample rows) kept) = 0%nat) then
    (dp, map Warn drops ++
         [Toast "Error" "No valid samples found. Check CSV format." "error"])
  else
    (mkDataProcessor (rawData dp)
       (Some (mkProcessedData
                (map (fun row : Row => parseFloat (row !! tempHeader raw)) rows)
                (map (columnSample rows) kept) None))
       (settings dp),
     map Warn drops).
Proof.
  intros Hraw Hrows rows kept drops.
  assert (Hn : (0 < length (validRows raw))%nat).
  { destruct (validRows raw); [done|simpl; lia]. }
  unfold extractSamples. rewrite Hraw.
  rewrite decide_False by lia.
  rewrite length_map, fold_extractColumn by done. reflexivity.
Qed.

Lemma fill_pass_length (v : jsnum) (arr : list (option jsnum)) :
  length (fill_pass v arr) = length arr.
Proof.
  revert v. induction arr as [|[x|] arr IH]; intros v; simpl; by rewrite ?IH.
Qed.

Lemma fillMissingValues_length (arr : list (option jsnum)) :
  length (fillMissingValues arr) = length arr.
Proof.
  unfold fillMissingValues.
  by rewrite length_reverse, fill_pass_length, length_reverse, length_fmap,
    fill_pass_length.
Qed.

(** What [extractSamples] stores: every sample has one fluorescence value
    per temperature, is visible, and has no analysis result yet. *)
Lemma extractSamples_invariant (dp : DataProcessor) (raw : RawData) :
  rawData dp = Some raw ->
  validRows raw <> [] ->
  filter (accepted raw) (headers raw) <> [] ->
  exists pd,
    processedData (extractSamples dp).1 = Some pd /\
    samples pd <> [] /\
    Forall (fun s => length (fluorescence s) = length (temperatures pd) /\
                     visible s = true /\ normalized s = None /\
                     derivative s = None /\ tm s = None /\
                     difference s = None)
           (samples pd).
Proof.
  intros Hraw Hrows Hkept.
  rewrite (extractSamples_run dp raw Hraw Hrows).
  destruct (filter (accepted raw) (headers raw)) as [|h kept]; [done|].
  rewrite decide_False by (simpl; lia).
  eexists. split; [reflexivity|]. cbn [samples temperatures].
  split; [done|].
  apply Forall_fmap, Forall_true. intros h'. simpl.
  rewrite fillMissingValues_length. unfold columnValues.
  by rewrite !length_map.
Qed.

(** C1 (as amended).  After the rows without a temperature are dropped,
    a column other than the temperature column becomes a sample if and
    only if the fraction of the kept rows in which its cell is present is
    strictly greater than 1/2, a cell being present when [parseFloat] does
    not give NaN on it (a cell that reads as an infinity counts as
    present).  Equivalently, more than half of the cells are present: a
    column with exactly half of them is dropped.  The dropped columns are
    reported as warnings, in the order of the headers; dropping is an
    error only when no column is left. *)
Theorem C1_coverage_threshold (dp : DataProcessor) (raw : RawData) :
  rawData dp = Some raw ->
  validRows raw <> [] ->
  let rows := validRows raw in
  let kept := filter (accepted raw) (headers raw) in
  let drops := filter (dropped raw) (headers raw) in
  (forall h, accepted raw h <->
             h <> tempHeader raw /\ (length rows < 2 * present rows h)%nat) /\
  (forall h, dropped raw h <->
             h <> tempHeader raw /\ (2 * present rows h <= length rows)%nat) /\
  (kept <> [] ->
   exists pd,
     extractSamples dp =
       (mkDataProcessor (rawData dp) (Some pd) (settings dp), map Warn drops) /\
     length (temperatures pd) = length rows /\
     samples pd = map (columnSample rows) kept /\
     map name (samples pd) = kept) /\
  (kept = [] ->
   extractSamples dp =
     (dp, map Warn drops ++
          [Toast "Error" "No valid samples found. Check CSV format." "error"])).
Proof.
  intros Hraw Hrows rows kept drops.
  assert (Hn : (0 < length rows)%nat).
  { destruct rows eqn:E; [done|simpl; lia]. }
  assert (Hacc : forall h, accepted raw h <->
             h <> tempHeader raw /\ (length rows < 2 * present rows h)%nat).
  { intros h. unfold accepted. fold rows. by rewrite fraction_gt_half. }
  split; [exact Hacc|]. split.
  { intros h. unfold dropped. fold rows. rewrite fraction_gt_half by done.
    split; intros [? ?]; (split; [done|lia]). }
  rewrite (extractSamples_run dp raw Hraw Hrows). fold rows kept drops.
  rewrite length_map. split.
  - intros Hk. rewrite decide_False by (destruct kept; [done|simpl; lia]).
    eexists. split; [reflexivity|]. cbn [temperatures samples].
    split; [by rewrite length_map|]. split; [done|].
    rewrite map_map. simpl. apply map_id.
  - intros Hk. rewrite Hk. reflexivity.
Qed.

(** Two cells out of four: dropped, with a warning.  Three out of four:
    kept. *)
Lemma C1_coverage_threshold_witness :
  sample_names (extractSamples coverage_processor).1 = Some ["B"] /\
  (extractSamples coverage_processor).2 = [Warn "A"] /\
  present (validRows coverage_raw) "A" = 2%nat /\
  present (validRows coverage_raw) "B" = 3%nat /\
  length (validRows coverage_raw) = 4%nat.
Proof.
  destruct (C1_coverage_threshold coverage_processor coverage_raw) as (_ & _ & Hkept & _).
  - reflexivity.
  - by_evaluation.
  - destruct Hkept as (pd & Hrun & _ & _ & Hnames); [by_evaluation|].
    unfold sample_names. rewrite Hrun. cbn [fst snd processedData].
    cbn [fmap option_fmap option_map]. rewrite Hnames.
    repeat split; by_evaluation.
Defined.

(** C1 (as stated) fails on cells that read as an infinity: the column
    [S] has no cell that reads as a finite number, so the fraction of such
    cells is 0, yet the column is accepted, because two of its three cells
    are not NaN. *)
Lemma C1_counterexample :
  sample_names (extractSamples infinity_processor).1 = Some ["S"] /\
  (extractSamples infinity_processor).2 = [] /\
  length (validRows infinity_raw) = 3%nat /\
  finite_cells (validRows infinity_raw) "S" = 0%nat /\
  present (validRows infinity_raw) "S" = 2%nat /\
  ~ (1 # 2 < fraction (finite_cells (validRows infinity_raw) "S")
                      (length (validRows infinity_raw)))%Q.
Proof. repeat split; by_evaluation. Qed.

(** ** The stages of the analysis *)

Lemma mapM_map_total {A B C} (f : B -> option C) (h : A -> B) (g : A -> C)
    (l : list A) :
  (forall x, f (h x) = Some (g x)) -> mapM f (map h l) = Some (map g l).
Proof.
  intros Hf. apply mapM_Some_2.
  induction l as [|x l IH]; simpl; constructor; [apply Hf | apply IH].
Qed.

Lemma mapM_imap_total {A B C} (f : B -> option C) (F : nat -> A -> B)
    (G : nat -> A -> C) (l : list A) :
  (forall k x, l !! k = Some x -> f (F k x) = Some (G k x)) ->
  mapM f (imap F l) = Some (imap G l).
Proof.
  revert F G. induction l as [|x l IH]; intros F G Hf; [done|].
  apply mapM_Some_2. simpl. constructor.
  - by apply (Hf 0%nat).
  - apply mapM_Some_1, IH. intros k y Hk. by apply (Hf (S k)).
Qed.

Lemma deriveSample_normalizeSample (temperatures : list jsnum) (w : Z)
    (r : Regions) (s : Sample) :
  deriveSample temperatures w (normalizeSample r s) =
  Some (derivedSample temperatures w r s).
Proof. reflexivity. Qed.

Lemma analyze_try_stages (st : Settings) (pd : ProcessedData) (s0 : Sample) :
  samples pd !! 0%nat = Some s0 ->
  let r := detectMeltRegions (temperatures pd) (fluorescence s0) in
  analyze_try st pd =
  (differenceSamples ←
     differenceStage (referenceSample st)
       (map (derivedSample (temperatures pd) (smoothingWindow st) r) (samples pd));
   Some (mkProcessedData (temperatures pd) differenceSamples (Some r))).
Proof.
  intros H0 r. unfold analyze_try. rewrite H0. cbn [mbind option_bind].
  fold r.
  by rewrite (mapM_map_total _ _
                (derivedSample (temperatures pd) (smoothingWindow st) r)).
Qed.

Lemma differenceSample_total (refIdx : nat) (reference : list jsnum) (idx : nat)
    (s : Sample) :
  is_Some (normalized s) ->
  differenceSample refIdx reference idx s =
  Some (differencedSample refIdx reference idx s).
Proof.
  intros [n Hn]. unfold differenceSample, differencedSample.
  destruct (decide (idx = refIdx)); [done|]. by rewrite Hn.
Qed.

Lemma differenceStage_pass (ref : reference) (ds : list Sample) :
  no_reference ref (length ds) -> differenceStage ref ds = Some ds.
Proof.
  destruct ref as [|[r|]]; simpl; intros Hno; try done.
  by destruct (decide _).
Qed.

Lemma differenceStage_valid (r : Z) (ds : list Sample) :
  Forall (fun s => is_Some (normalized s)) ds ->
  (0 <= r < Z.of_nat (length ds))%Z ->
  exists sr nr,
    ds !! Z.to_nat r = Some sr /\ normalized sr = Some nr /\
    differenceStage (RefValue (Some r)) ds =
    Some (imap (differencedSample (Z.to_nat r) nr) ds).
Proof.
  intros Hall Hr.
  destruct (lookup_lt_is_Some_2 ds (Z.to_nat r)) as [sr Hsr]; [lia|].
  destruct (Forall_lookup_1 _ _ _ _ Hall Hsr) as [nr Hnr].
  exists sr, nr. split; [done|]. split; [done|].
  unfold differenceStage. destruct (decide _) as [_|Hn]; [|done].
  rewrite Hsr. cbn [mbind option_bind]. rewrite Hnr. cbn [mbind option_bind].
  apply mapM_imap_total. intros k x Hk. simpl.
  apply differenceSample_total. by apply (Forall_lookup_1 _ _ _ _ Hall Hk).
Qed.

Lemma derivedSample_normalized (temperatures : list jsnum) (w : Z) (r : Regions)
    (s : Sample) :
  exists n, normalized (derivedSample temperatures w r s) = Some n /\
            length n = length (fluorescence s).
Proof.
  eexists. split; [reflexivity|]. unfold normalizeArray. by rewrite length_map.
Qed.

Lemma derivedSample_difference (temperatures : list jsnum) (w : Z) (r : Regions)
    (s : Sample) :
  difference (derivedSample temperatures w r s) = difference s.
Proof. reflexivity. Qed.

Lemma differencedSample_normalized (refIdx : nat) (reference : list jsnum)
    (idx : nat) (s : Sample) :
  normalized (differencedSample refIdx reference idx s) = normalized s.
Proof. unfold differencedSample. by destruct (decide _). Qed.

(** C6.  Let the analysis run on data whose samples all have as many
    fluorescence values as there are temperatures.  If the reference of the
    settings is a valid index [r], the sample at [r] gets as difference the
    all-zero array of the length of the temperature axis, and every other
    sample gets [difference[i] = normalized[i] - normalized_r[i]] at every
    index [i]; if the reference is absent or out of range, the difference
    stage returns the samples it received and the difference field of
    every sample is what it was before the analysis. *)
Theorem C6_difference_stage (st : Settings) (pd : ProcessedData) :
  samples pd <> [] ->
  Forall (fun s => length (fluorescence s) = length (temperatures pd))
         (samples pd) ->
  exists pd',
    analyze_try st pd = Some pd' /\
    temperatures pd' = temperatures pd /\
    length (samples pd') = length (samples pd) /\
    (forall r : Z,
        referenceSample st = RefValue (Some r) ->
        (0 <= r < Z.of_nat (length (samples pd)))%Z ->
        exists sr nr,
          samples pd' !! Z.to_nat r = Some sr /\
          normalized sr = Some nr /\
          difference sr = Some (replicate (length (temperatures pd)) zero) /\
          forall k s', k <> Z.to_nat r -> samples pd' !! k = Some s' ->
            exists n d,
              normalized s' = Some n /\ difference s' = Some d /\
              length d = length (temperatures pd) /\
              forall i v, n !! i = Some v -> d !! i = Some (v - get nr i)%js) /\
    (no_reference (referenceSample st) (length (samples pd)) ->
        forall k s s', samples pd !! k = Some s -> samples pd' !! k = Some s' ->
          difference s' = difference s) /\
    (forall ds, no_reference (referenceSample st) (length ds) ->
                differenceStage (referenceSample st) ds = Some ds).
Proof.
  intros Hne Hlen.
  destruct (samples pd) as [|s0 rest] eqn:Hss; [done|]. clear Hne.
  assert (H0 : samples pd !! 0%nat = Some s0) by (by rewrite Hss).
  rewrite (analyze_try_stages st pd s0 H0). cbn zeta.
  set (r0 := detectMeltRegions (temperatures pd) (fluorescence s0)).
  set (g := derivedSample (temperatures pd) (smoothingWindow st) r0).
  rewrite <- Hss in *. clear H0.
  assert (Hall : Forall (fun s => is_Some (normalized s)) (map g (samples pd))).
  { apply Forall_fmap, Forall_true. intros s. by eexists. }
  assert (Hlg : length (map g (samples pd)) = length (samples pd))
    by apply length_map.
  destruct (decide (no_reference (referenceSample st) (length (samples pd))))
    as [Hno|Hyes].
  - rewrite differenceStage_pass by (by rewrite Hlg). cbn [mbind option_bind].
    eexists. split; [reflexivity|]. cbn [temperatures samples].
    split; [done|]. split; [done|]. split; [|split].
    + intros r Href Hr. rewrite Href in Hno. simpl in Hno. done.
    + intros _ k s s' Hs Hs'. rewrite list_lookup_fmap, Hs in Hs'.
      injection Hs' as <-. reflexivity.
    + intros ds Hds. by apply differenceStage_pass.
  - destruct (referenceSample st) as [|[r|]] eqn:Href; simpl in Hyes; try done.
    apply dec_stable in Hyes.
    destruct (differenceStage_valid r (map g (samples pd)) Hall)
      as (sr & nr & Hsr & Hnr & Hstage); [by rewrite Hlg|].
    rewrite Hstage. cbn [mbind option_bind].
    eexists. split; [reflexivity|]. cbn [temperatures samples].
    split; [done|]. split; [by rewrite length_imap|]. split; [|split].
    + intros r' [= <-] _.
      rewrite list_lookup_fmap in Hsr.
      destruct (samples pd !! Z.to_nat r) as [s|] eqn:Hs; [|done].
      injection Hsr as <-.
      assert (Hnl : length nr = length (temperatures pd)).
      { destruct (derivedSample_normalized (temperatures pd) (smoothingWindow st)
                    r0 s) as (n & Hn & Hl).
        fold g in Hn. rewrite Hn in Hnr. injection Hnr as <-.
        rewrite Hl. by apply (Forall_lookup_1 _ _ _ _ Hlen Hs). }
      exists (differencedSample (Z.to_nat r) nr (Z.to_nat r) (g s)), nr.
      split.
      { by rewrite list_lookup_imap, list_lookup_fmap, Hs. }
      split; [by rewrite differencedSample_normalized|].
      split.
      { unfold differencedSample. rewrite decide_True by done. simpl.
        by rewrite Hnl. }
      intros k s' Hk Hs'.
      rewrite list_lookup_imap, list_lookup_fmap in Hs'.
      destruct (samples pd !! k) as [sk|] eqn:Hsk; [|done].
      injection Hs' as <-.
      destruct (derivedSample_normalized (temperatures pd) (smoothingWindow st)
                  r0 sk) as (n & Hn & Hl).
      fold g in Hn.
      exists n, (imap (fun i val => (val - get nr i)%js) n).
      split; [by rewrite differencedSample_normalized|].
      split.
      { unfold differencedSample. rewrite decide_False by done.
        cbn [difference set_difference]. by rewrite Hn. }
      split.
      { rewrite length_imap, Hl. by apply (Forall_lookup_1 _ _ _ _ Hlen Hsk). }
      intros i v Hv. by rewrite list_lookup_imap, Hv.
    + intros Hno. simpl in Hno. done.
    + intros ds Hds. by apply differenceStage_pass.
Qed.

Lemma C6_difference_stage_witness :
  exists pd',
    analyze_try (mkSettings "auto" 1 (RefValue (Some 1%Z)))
      (mkProcessedData [lit 60; lit 61]
         [mkSample "A" [lit 2; lit 1] true None None None None;
          mkSample "B" [lit 3; lit 1] true None None None None] None)
    = Some pd' /\ length (samples pd') = 2%nat.
Proof.
  destruct (C6_difference_stage
              (mkSettings "auto" 1 (RefValue (Some 1%Z)))
              (mkProcessedData [lit 60; lit 61]
                 [mkSample "A" [lit 2; lit 1] true None None None None;
                  mkSample "B" [lit 3; lit 1] true None None None None] None))
    as (pd' & Hrun & _ & Hlen & _).
  - discriminate.
  - repeat constructor.
  - exists pd'. split; [exact Hrun | exact Hlen].
Defined.

(** ** Visibility *)

Lemma alter_out_of_range {A} (f : A -> A) (l : list A) (i : nat) :
  l !! i = None -> alter f i l = l.
Proof.
  intros Hi. apply list_eq. intros k.
  destruct (decide (k = i)) as [->|Hne].
  - by rewrite list_lookup_alter_eq, Hi.
  - by rewrite list_lookup_alter_ne.
Qed.

Lemma map_const_replicate {A B} (f : A -> B) (v : B) (l : list A) :
  (forall x, f x = v) -> map f l = replicate (length l) v.
Proof. intros Hf. induction l as [|x l IH]; simpl; [done|]. by rewrite Hf, IH. Qed.

Lemma numeric_fields_set_visible (v : bool) (s : Sample) :
  numeric_fields (set_visible v s) = numeric_fields s.
Proof. reflexivity. Qed.

Lemma numeric_state_update_visible (f : bool -> bool) (i : nat)
    (pd : ProcessedData) :
  numeric_state (update_visible f i pd) = numeric_state pd.
Proof.
  unfold numeric_state, update_visible. cbn [temperatures regions samples].
  f_equal. apply list_eq. intros k.
  rewrite !list_lookup_fmap.
  destruct (decide (k = i)) as [->|Hne].
  - rewrite list_lookup_alter_eq. by destruct (samples pd !! i).
  - by rewrite list_lookup_alter_ne.
Qed.

Lemma visibility_update_visible (f : bool -> bool) (i : nat)
    (pd : ProcessedData) :
  visibility (update_visible f i pd) = alter f i (visibility pd).
Proof.
  unfold visibility, update_visible. cbn [samples].
  apply list_eq. intros k. rewrite list_lookup_fmap.
  destruct (decide (k = i)) as [->|Hne].
  - rewrite !list_lookup_alter_eq, list_lookup_fmap.
    by destruct (samples pd !! i).
  - by rewrite !list_lookup_alter_ne, list_lookup_fmap.
Qed.

Lemma visible_derivedSample (temperatures : list jsnum) (w : Z) (r : Regions)
    (s : Sample) :
  visible (derivedSample temperatures w r s) = visible s.
Proof. reflexivity. Qed.

Lemma visible_differencedSample (refIdx : nat) (reference : list jsnum)
    (idx : nat) (s : Sample) :
  visible (differencedSample refIdx reference idx s) = visible s.
Proof. unfold differencedSample. by destruct (decide _). Qed.

(** The analysis succeeds on every non-empty list of samples and keeps the
    visibility flags. *)
Lemma analyze_try_visibility (st : Settings) (pd pd' : ProcessedData) :
  analyze_try st pd = Some pd' -> visibility pd' = visibility pd.
Proof.
  intros Hrun.
  destruct (samples pd !! 0%nat) as [s0|] eqn:H0;
    [|unfold analyze_try in Hrun; by rewrite H0 in Hrun].
  rewrite (analyze_try_stages st pd s0 H0) in Hrun. cbn zeta in Hrun.
  set (r0 := detectMeltRegions (temperatures pd) (fluorescence s0)) in *.
  set (g := derivedSample (temperatures pd) (smoothingWindow st) r0) in *.
  assert (Hall : Forall (fun s => is_Some (normalized s)) (map g (samples pd))).
  { apply Forall_fmap, Forall_true. intros s. by eexists. }
  assert (Hg : map visible (map g (samples pd)) = map visible (samples pd)).
  { rewrite map_map. by apply map_ext. }
  destruct (decide (no_reference (referenceSample st)
                                 (length (map g (samples pd))))) as [Hno|Hyes].
  - rewrite differenceStage_pass in Hrun by done.
    injection Hrun as <-. exact Hg.
  - destruct (referenceSample st) as [|[r|]]; simpl in Hyes; try done.
    apply dec_stable in Hyes.
    destruct (differenceStage_valid r _ Hall Hyes) as (sr & nr & _ & _ & Hst).
    rewrite Hst in Hrun. injection Hrun as <-.
    unfold visibility. cbn [samples]. rewrite <- Hg.
    apply list_eq. intros k.
    rewrite !list_lookup_fmap, list_lookup_imap, !list_lookup_fmap.
    destruct (samples pd !! k); [|done]. simpl.
    by rewrite visible_differencedSample.
Qed.

(** C8.  Toggling or setting the visibility of one sample, or setting that
    of all samples, leaves the raw data, the settings, the temperatures,
    the regions and, for every sample, the name and the fluorescence,
    normalized, derivative, Tm and difference fields as they were; the
    only event raised is the visibility notification, never an analysis;
    the flags change as asked.  Conversely [analyze] leaves the visibility
    flag of every sample as it was. *)
Theorem C8_visibility_frame (dp : DataProcessor) :
  (forall i,
      let r := toggleSampleVisibility dp i in
      rawData r.1 = rawData dp /\ settings r.1 = settings dp /\
      numeric_state <$> processedData r.1 = numeric_state <$> processedData dp /\
      visibility <$> processedData r.1 =
        alter negb i <$> (visibility <$> processedData dp) /\
      (r.2 = [] \/ r.2 = [Dispatch "sampleVisibilityChanged"])) /\
  (forall i v,
      let r := setSampleVisibility dp i v in
      rawData r.1 = rawData dp /\ settings r.1 = settings dp /\
      numeric_state <$> processedData r.1 = numeric_state <$> processedData dp /\
      visibility <$> processedData r.1 =
        alter (fun _ => v) i <$> (visibility <$> processedData dp) /\
      (r.2 = [] \/ r.2 = [Dispatch "sampleVisibilityChanged"])) /\
  (forall v,
      let r := setAllSamplesVisibility dp v in
      rawData r.1 = rawData dp /\ settings r.1 = settings dp /\
      numeric_state <$> processedData r.1 = numeric_state <$> processedData dp /\
      visibility <$> processedData r.1 =
        (fun l => replicate (length l) v) <$> (visibility <$> processedData dp) /\
      (r.2 = [] \/ r.2 = [Dispatch "sampleVisibilityChanged"])) /\
  (forall patch,
      visibility <$> processedData (analyze dp patch).1.1 =
      visibility <$> processedData dp).
Proof.
  split; [|split; [|split]].
  - intros i. unfold toggleSampleVisibility.
    destruct (processedData dp) as [pd|] eqn:Hpd; cbn zeta.
    + destruct (decide _) as [Hi|Hi]; cbn [fst snd rawData settings processedData].
      * rewrite ?Hpd. cbn [fmap option_fmap option_map].
        rewrite numeric_state_update_visible, visibility_update_visible.
        repeat split; by right.
      * rewrite ?Hpd. cbn [fmap option_fmap option_map].
        repeat split; [|by left]. f_equal. symmetry.
        apply alter_out_of_range. unfold visibility.
        rewrite list_lookup_fmap. destruct (samples pd !! i); [|done].
        exfalso. apply Hi. by eexists.
    + cbn [fst snd]. rewrite ?Hpd. repeat split. by left.
  - intros i v. unfold setSampleVisibility.
    destruct (processedData dp) as [pd|] eqn:Hpd; cbn zeta.
    + destruct (decide _) as [Hi|Hi]; cbn [fst snd rawData settings processedData].
      * rewrite ?Hpd. cbn [fmap option_fmap option_map].
        rewrite numeric_state_update_visible, visibility_update_visible.
        repeat split; by right.
      * rewrite ?Hpd. cbn [fmap option_fmap option_map].
        repeat split; [|by left]. f_equal. symmetry.
        apply alter_out_of_range. unfold visibility.
        rewrite list_lookup_fmap. destruct (samples pd !! i); [|done].
        exfalso. apply Hi. by eexists.
    + cbn [fst snd]. rewrite ?Hpd. repeat split. by left.
  - intros v. unfold setAllSamplesVisibility.
    destruct (processedData dp) as [pd|] eqn:Hpd; cbn zeta;
      cbn [fst snd rawData settings processedData]; rewrite ?Hpd;
      cbn [fmap option_fmap option_map].
    + repeat split; [| |by right].
      * unfold numeric_state. cbn [temperatures regions samples].
        do 2 f_equal. rewrite map_map. by apply map_ext.
      * f_equal. unfold visibility. cbn [samples]. rewrite map_map, length_map.
        by apply map_const_replicate.
    + repeat split. by left.
  - intros patch. unfold analyze.
    destruct (processedData dp) as [pd|] eqn:Hpd;
      [|cbn [fst snd]; by rewrite ?Hpd].
    destruct (analyze_try _ pd) as [pd'|] eqn:Hrun;
      cbn [fst snd processedData fmap option_fmap option_map]; [|done].
    f_equal. by apply (analyze_try_visibility _ _ _ Hrun).
Qed.

(** ** The archive parser *)

Lemma imap_snoc {A B} (F : nat -> A -> B) (l : list A) (x : A) :
  imap F (l ++ [x]) = imap F l ++ [F (length l) x].
Proof. rewrite imap_app. simpl. by rewrite Nat.add_0_r. Qed.

(** The accumulator of the header loop after the samples [l]: the
    headers are the temperature header followed by one name per sample,
    and the set of used names holds exactly these names. *)
Lemma fold_headerStep_spec (l : list EDSParser.ParsedSample) :
  let acc := fold_left EDSParser.headerStep (imap pair l) (["Temperature"], ∅) in
  exists names,
    acc.1 = "Temperature" :: names /\ length names = length l /\
    (forall x, x ∈ acc.2 <-> x ∈ names) /\
    forall k s, l !! k = Some s ->
                names !! k = Some (headerName (take k names) k s).
Proof.
  induction l as [|s l IH] using rev_ind.
  - exists []. simpl. repeat split; set_solver.
  - cbn zeta in *. rewrite imap_snoc, fold_left_app. cbn [fold_left].
    destruct IH as (names & Hh & Hlen & Hused & Hnames).
    set (acc := fold_left EDSParser.headerStep (imap pair l) (["Temperature"], ∅)) in *.
    unfold EDSParser.headerStep. cbn [fst snd].
    set (name := if decide (EDSParser.baseName s ∈ acc.2)
                 then EDSParser.baseName s +:+ "_" +:+ pretty (length l + 1)%nat
                 else EDSParser.baseName s).
    assert (Hname : name = headerName names (length l) s).
    { unfold name, headerName.
      destruct (decide (EDSParser.baseName s ∈ acc.2)) as [Hin|Hin].
      - by rewrite decide_True by (by apply Hused).
      - by rewrite decide_False by (by rewrite <- Hused). }
    exists (names ++ [name]). rewrite Hh. split; [done|]. split.
    { rewrite !length_app. simpl. lia. }
    split.
    { intros x. cbn [fst snd].
      by rewrite elem_of_union, elem_of_singleton, elem_of_app,
        list_elem_of_singleton, Hused. }
    intros k s' Hk.
    destruct (decide (k = length l)) as [->|Hne].
    + rewrite list_lookup_middle in Hk by done. injection Hk as <-.
      rewrite <- Hlen, list_lookup_middle by done.
      rewrite take_app_length. rewrite Hlen. by rewrite Hname.
    + assert (Hkl : (k < length l)%nat).
      { apply lookup_lt_Some in Hk. rewrite length_app in Hk. simpl in Hk. lia. }
      rewrite lookup_app_l in Hk by done.
      rewrite lookup_app_l by lia.
      rewrite take_app_le by lia. by apply Hnames.
Qed.

Lemma buildHeaders_spec (l : list EDSParser.ParsedSample) :
  exists names,
    EDSParser.buildHeaders l = "Temperature" :: names /\
    length names = length l /\
    forall k s, l !! k = Some s ->
                names !! k = Some (headerName (take k names) k s).
Proof.
  destruct (fold_headerStep_spec l) as (names & Hh & Hlen & _ & Hnames).
  exists names. by repeat split.
Qed.

(** A row of the output when the headers are pairwise distinct: [l] is the
    part of the samples already written. *)
Lemma buildRow_spec (names : list string) (l : list EDSParser.ParsedSample)
    (refTemps : list jsnum) (i : nat) :
  NoDup ("Temperature" :: names) ->
  (length l <= length names)%nat ->
  let row := EDSParser.buildRow ("Temperature" :: names) l refTemps i in
  row !! "Temperature" = Some (CNum (get refTemps i)) /\
  (forall k s h, l !! k = Some s -> names !! k = Some h ->
                 row !! h = Some (rnCell s i)) /\
  dom row = {["Temperature"]} ∪ list_to_set (take (length l) names).
Proof.
  intros Hnd. apply NoDup_cons in Hnd as [Htemp Hnames].
  induction l as [|s l IH] using rev_ind; intros Hlen; cbn zeta.
  - unfold EDSParser.buildRow. simpl. rewrite lookup_singleton_eq.
    split; [done|]. split; [done|].
    rewrite dom_singleton_L. simpl. by rewrite (right_id_L ∅ (∪)).
  - rewrite length_app in Hlen. simpl in Hlen.
    destruct IH as (IHt & IHk & IHd); [lia|].
    unfold EDSParser.buildRow in *.
    rewrite imap_snoc, fold_left_app. cbn [fold_left].
    set (row := fold_left (EDSParser.rowStep ("Temperature" :: names) i)
                          (imap pair l) _) in *.
    destruct (lookup_lt_is_Some_2 names (length l)) as [hn Hhn]; [lia|].
    unfold EDSParser.rowStep. cbn [fst snd].
    replace (length l + 1)%nat with (S (length l)) by lia.
    change (("Temperature" :: names) !! S (length l)) with (names !! length l).
    rewrite Hhn. cbn [default].
    fold (rnCell s i).
    assert (Hne : hn <> "Temperature").
    { intros ->. apply Htemp. by apply list_elem_of_lookup_2 in Hhn. }
    split; [by rewrite lookup_insert_ne|]. split.
    + intros k s' h Hk Hh.
      destruct (decide (k = length l)) as [->|Hkn].
      * rewrite list_lookup_middle in Hk by done. injection Hk as <-.
        rewrite Hhn in Hh. injection Hh as <-. by rewrite lookup_insert_eq.
      * assert (Hkl : (k < length l)%nat).
        { apply lookup_lt_Some in Hk. rewrite length_app in Hk. simpl in Hk. lia. }
        rewrite lookup_app_l in Hk by done.
        rewrite lookup_insert_ne; [by apply (IHk k s')|].
        intros Heq. rewrite <- Heq in Hh. apply Hkn.
        by apply (NoDup_lookup names k (length l) hn).
    + rewrite dom_insert_L, IHd, length_app. simpl.
      replace (length l + 1)%nat with (S (length l)) by lia.
      rewrite (take_S_r _ _ _ Hhn), list_to_set_app_L.
      apply set_eq. intros x.
      rewrite !elem_of_union, !elem_of_singleton, !elem_of_list_to_set,
        list_elem_of_singleton.
      tauto.
Qed.

(** When the header names are pairwise distinct, the table has one row per
    temperature of the first sample; each row holds that temperature, for
    every sample its Rn value at the row index or [null] past the end of
    its Rn values, and exactly one cell per header. *)
Lemma formatForHRMAnalyzer_rows (l : list EDSParser.ParsedSample)
    (s0 : EDSParser.ParsedSample) :
  l !! 0%nat = Some s0 ->
  NoDup (EDSParser.buildHeaders l) ->
  exists raw,
    EDSParser.formatForHRMAnalyzer l = Some raw /\
    headers raw = EDSParser.buildHeaders l /\
    length (data raw) = length (EDSParser.temperatures s0) /\
    forall i row, data raw !! i = Some row ->
      row !! "Temperature" = Some (CNum (get (EDSParser.temperatures s0) i)) /\
      (forall k s, l !! k = Some s ->
         exists h, headers raw !! S k = Some h /\ row !! h = Some (rnCell s i)) /\
      dom row = list_to_set (headers raw) /\
      size row = length (headers raw).
Proof.
  intros H0 Hnd. unfold EDSParser.formatForHRMAnalyzer. rewrite H0.
  cbn [mbind option_bind]. eexists. split; [reflexivity|].
  cbn [headers data]. split; [done|].
  split; [by rewrite length_map, length_seq|].
  intros i row Hrow.
  rewrite list_lookup_fmap in Hrow.
  destruct (seq 0 (length (EDSParser.temperatures s0)) !! i) as [j|] eqn:Hj;
    [|done].
  apply lookup_seq in Hj as [-> _]. simpl in Hrow. injection Hrow as <-.
  destruct (buildHeaders_spec l) as (names & Hh & Hlen & _).
  rewrite Hh in *.
  destruct (buildRow_spec names l (EDSParser.temperatures s0) i Hnd)
    as (Ht & Hk & Hd); [lia|].
  split; [exact Ht|]. split.
  - intros k s Hs.
    destruct (lookup_lt_is_Some_2 names k) as [h Hhk].
    { rewrite Hlen. by apply lookup_lt_Some in Hs. }
    exists h. split; [exact Hhk|]. by apply (Hk k s h).
  - assert (Hdom : dom (EDSParser.buildRow ("Temperature" :: names) l
                          (EDSParser.temperatures s0) i)
                   = list_to_set ("Temperature" :: names)).
    { rewrite Hd, <- Hlen, firstn_all. reflexivity. }
    split; [exact Hdom|].
    by rewrite <- size_dom, Hdom, size_list_to_set.
Qed.

(** C5.  The header names are the temperature header followed by one name
    per sample: the sample name, or [Well_<wellNumber+1>] when it is
    empty, suffixed with the 1-based position of the sample when that name
    is among the names given before.  Two unnamed samples of well 0 get
    [Well_1] and [Well_1_2].  The suffixed name is not compared with the
    names in use: the samples [A_3], [A], [A] get the headers [A_3], [A],
    [A_3], which are not pairwise distinct. *)
Theorem C5_header_names :
  (forall l, exists names,
      EDSParser.buildHeaders l = "Temperature" :: names /\
      length names = length l /\
      forall k s, l !! k = Some s ->
                  names !! k = Some (headerName (take k names) k s)) /\
  (forall s, EDSParser.sampleName s = "" ->
             EDSParser.baseName s
             = "Well_" +:+ pretty (EDSParser.wellNumber s + 1)%nat) /\
  (forall s, EDSParser.sampleName s <> "" ->
             EDSParser.baseName s = EDSParser.sampleName s) /\
  EDSParser.buildHeaders unnamed_samples = ["Temperature"; "Well_1"; "Well_1_2"] /\
  EDSParser.buildHeaders collision_samples = ["Temperature"; "A_3"; "A"; "A_3"] /\
  ~ NoDup (EDSParser.buildHeaders collision_samples).
Proof.
  split; [exact buildHeaders_spec|].
  split; [intros s Hs; unfold EDSParser.baseName; by rewrite decide_True|].
  split; [intros s Hs; unfold EDSParser.baseName; by rewrite decide_False|].
  split; [by_evaluation|]. split; [by_evaluation|].
  by_evaluation.
Qed.

(** C10.  With the samples [A_3], [A], [A] the first and the third sample
    share the header [A_3].  The first sample has one Rn value for two
    temperatures, yet in the second row the cell of its column holds the
    number 5 written for the third sample, not [null]; and each row has
    three cells for four headers. *)
Theorem C10_collision_rows :
  let out := EDSParser.formatForHRMAnalyzer collision_samples in
  headers <$> out = Some ["Temperature"; "A_3"; "A"; "A_3"] /\
  (length ∘ data) <$> out = Some 2%nat /\
  (EDSParser.rnValues <$> collision_samples !! 0%nat) = Some [lit 1] /\
  output_cell out 1 "A_3" = Some (CNum (lit 5)) /\
  output_cell out 1 "A_3" <> Some CNull /\
  output_row_size out 0 = Some 3%nat /\
  output_row_size out 1 = Some 3%nat /\
  (length ∘ headers) <$> out = Some 4%nat.
Proof. cbn zeta. repeat split; by_evaluation. Qed.

(** * Further properties of the numeric utilities *)

Lemma add_zero_l (x : jsnum) : (zero + x)%js = x.
Proof. destruct x; simpl; try done. by rewrite Qcplus_0_l. Qed.

Lemma div_one_r (x : jsnum) : (x / of_nat 1)%js = x.
Proof.
  destruct x as [q| | |]; try by_evaluation.
  unfold of_nat, of_Z, JS.div.
  change (Q2Qc (inject_Z (Z.of_nat 1))) with 1%Qc.
  rewrite decide_False by done. f_equal. field. done.
Qed.

Lemma mean_singleton (x : jsnum) : mean [x] = x.
Proof. unfold mean. cbn [fold_left length]. by rewrite add_zero_l, div_one_r. Qed.

Lemma slice_singleton {A} (arr : list A) (i : nat) (x : A) :
  arr !! i = Some x -> slice arr (Z.of_nat i) (Z.of_nat i + 1) = [x].
Proof.
  intros Hi. pose proof (lookup_lt_Some _ _ _ Hi) as Hlt.
  unfold slice.
  destruct (Z.ltb_spec (Z.of_nat i) 0); [lia|].
  destruct (Z.ltb_spec (Z.of_nat i + 1) 0); [lia|].
  rewrite Z.min_l by lia. rewrite Z.min_l by lia.
  replace (Z.to_nat (Z.of_nat i + 1 - Z.of_nat i)) with 1%nat by lia.
  rewrite Nat2Z.id. rewrite (drop_S _ _ _ Hi). reflexivity.
Qed.

Lemma map_seq_lookup {A} (f : nat -> A) (arr : list A) :
  (forall i x, arr !! i = Some x -> f i = x) ->
  map f (seq 0 (length arr)) = arr.
Proof.
  intros Hf. apply list_eq. intros i. rewrite list_lookup_fmap.
  destruct (arr !! i) as [x|] eqn:Hi.
  - rewrite (lookup_seq_lt _ _ _ (lookup_lt_Some _ _ _ Hi)). simpl.
    by rewrite (Hf i x).
  - rewrite lookup_seq_ge; [done|]. by apply lookup_ge_None.
Qed.

(** X1.  A smoothing window of 1 (or 0) leaves every curve as it is, NaN and
    infinities included. *)
Theorem movingAverage_window_one (arr : list jsnum) :
  movingAverage arr 1 = arr /\ movingAverage arr 0 = arr.
Proof.
  split; unfold movingAverage; apply map_seq_lookup; intros i x Hi;
    pose proof (lookup_lt_Some _ _ _ Hi) as Hlt;
    change (1 `div` 2)%Z with 0%Z; change (0 `div` 2)%Z with 0%Z;
    rewrite Z.sub_0_r, Z.add_0_r, Z.max_r, Z.min_r by lia;
    by rewrite (slice_singleton arr i x Hi), mean_singleton.
Qed.

Lemma add_NaN_l (x : jsnum) : (NaN + x)%js = NaN.
Proof. reflexivity. Qed.

Lemma fold_add_from_NaN (l : list jsnum) :
  fold_left (fun sum val => sum + val)%js l NaN = NaN.
Proof. induction l as [|x l IH]; [done|]. simpl. exact IH. Qed.

Lemma mean_has_NaN (l : list jsnum) : NaN ∈ l -> mean l = NaN.
Proof.
  intros Hin. apply list_elem_of_split in Hin as (l1 & l2 & ->).
  unfold mean. rewrite fold_left_app. cbn [fold_left].
  by rewrite add_NaN_r, fold_add_from_NaN.
Qed.

Lemma slice_elem_of {A} (arr : list A) (s e : Z) (j : nat) (x : A) :
  (0 <= s <= Z.of_nat j)%Z -> (Z.of_nat j < e)%Z ->
  arr !! j = Some x -> x ∈ slice arr s e.
Proof.
  intros Hs He Hj. pose proof (lookup_lt_Some _ _ _ Hj) as Hlt.
  unfold slice.
  destruct (Z.ltb_spec s 0); [lia|]. destruct (Z.ltb_spec e 0); [lia|].
  rewrite (Z.min_l s) by lia.
  apply list_elem_of_lookup. exists (j - Z.to_nat s)%nat.
  rewrite lookup_take_lt by lia. rewrite lookup_drop.
  by replace (Z.to_nat s + (j - Z.to_nat s))%nat with j by lia.
Qed.

(** X2.  Smoothing spreads a NaN over its whole window: the smoothed value at
    [i] is NaN as soon as the curve is NaN at some [j] within half a window
    of [i]. *)
Theorem movingAverage_spreads_NaN (arr : list jsnum) (w : Z) (i j : nat) :
  (0 <= w)%Z ->
  arr !! j = Some NaN ->
  (i < length arr)%nat ->
  (Z.abs (Z.of_nat i - Z.of_nat j) <= w `div` 2)%Z ->
  movingAverage arr w !! i = Some NaN.
Proof.
  intros Hw Hj Hi Hij. unfold movingAverage.
  rewrite list_lookup_fmap, lookup_seq_lt by done. simpl. f_equal.
  pose proof (lookup_lt_Some _ _ _ Hj) as Hjl.
  apply mean_has_NaN, (slice_elem_of _ _ _ j); [lia|lia|done].
Qed.

Lemma movingAverage_spreads_NaN_witness :
  movingAverage [lit 1; NaN; lit 3; lit 4; lit 5] 3 !! 2%nat = Some NaN.
Proof.
  apply (movingAverage_spreads_NaN _ 3 2 1); [lia|reflexivity|simpl; lia|].
  by_evaluation.
Defined.

(** ** The derivative *)

Lemma derivative_quotient (m b xj xk : Qc) :
  xj <> xk ->
  ((Fin (m * xj + b) - Fin (m * xk + b)) / (Fin xj - Fin xk))%js = Fin m.
Proof.
  intros Hne. unfold JS.sub, JS.div, JS.add, JS.neg.
  destruct (decide _) as [H0|H0]; [by apply Qc_sub_zero in H0|].
  f_equal. field. intros Hz. apply Hne, Qc_sub_zero. rewrite <- Hz. ring.
Qed.

Lemma get_fmap_lookup {A} (f : A -> jsnum) (l : list A) (i : nat) (x : A) :
  l !! i = Some x -> get (f <$> l) i = f x.
Proof. intros H. unfold get. by rewrite list_lookup_fmap, H. Qed.

(** X3.  On pairwise distinct x values, the derivative of the line
    [y = m x + b] is [m] at every point, the two end points included
    (finite arithmetic being exact). *)
Theorem calculateDerivative_linear (xs : list Qc) (m b : Qc) :
  (2 <= length xs)%nat ->
  NoDup xs ->
  calculateDerivative (Fin <$> xs) ((fun x => Fin (m * x + b)%Qc) <$> xs) =
  replicate (length xs) (Fin m).
Proof.
  intros Hlen Hnd. unfold calculateDerivative. rewrite length_fmap.
  assert (Hq : forall j k xj xk, xs !! j = Some xj -> xs !! k = Some xk -> j <> k ->
     ((get ((fun x => Fin (m * x + b)%Qc) <$> xs) j
       - get ((fun x => Fin (m * x + b)%Qc) <$> xs) k)
      / (get (Fin <$> xs) j - get (Fin <$> xs) k))%js = Fin m).
  { intros j k xj xk Hj Hk Hjk.
    rewrite (get_fmap_lookup _ _ _ _ Hj), (get_fmap_lookup _ _ _ _ Hk).
    rewrite (get_fmap_lookup Fin _ _ _ Hj), (get_fmap_lookup Fin _ _ _ Hk).
    apply derivative_quotient. intros ->. apply Hjk.
    by apply (NoDup_lookup xs j k xk). }
  apply list_eq. intros i. rewrite list_lookup_fmap.
  destruct (decide (i < length xs)%nat) as [Hi|Hi].
  - rewrite lookup_seq_lt, lookup_replicate_2 by done. simpl. f_equal.
    assert (Hex : forall k, (k < length xs)%nat -> exists x, xs !! k = Some x).
    { intros k Hk. by apply lookup_lt_is_Some_2. }
    destruct (decide (i = 0%nat)) as [->|Hi0].
    + destruct (Hex 1%nat) as [x1 H1]; [lia|].
      destruct (Hex 0%nat) as [x0 H0]; [lia|]. by apply (Hq 1 0 x1 x0)%nat.
    + destruct (decide (i = (length xs - 1)%nat)) as [Hil|Hil].
      * destruct (Hex i) as [xi Hxi]; [lia|].
        destruct (Hex (i - 1)%nat) as [xp Hxp]; [lia|].
        apply (Hq i (i - 1)%nat xi xp); [done|done|lia].
      * destruct (Hex (i + 1)%nat) as [xn Hxn]; [lia|].
        destruct (Hex (i - 1)%nat) as [xp Hxp]; [lia|].
        apply (Hq (i + 1)%nat (i - 1)%nat xn xp); [done|done|lia].
  - rewrite lookup_seq_ge by lia. symmetry. apply lookup_replicate_None. lia.
Qed.

Lemma calculateDerivative_linear_witness :
  calculateDerivative (Fin <$> [Q2Qc 60; Q2Qc 61; Q2Qc 63])
    ((fun x => Fin (Q2Qc (-2) * x + Q2Qc 150)%Qc) <$> [Q2Qc 60; Q2Qc 61; Q2Qc 63])
  = replicate 3 (Fin (Q2Qc (-2))).
Proof.
  apply (calculateDerivative_linear [Q2Qc 60; Q2Qc 61; Q2Qc 63]).
  - simpl. lia.
  - by_evaluation.
Defined.

Lemma div_NaN_r (x : jsnum) : (x / NaN)%js = NaN.
Proof. by destruct x. Qed.

Lemma div_NaN_l (x : jsnum) : (NaN / x)%js = NaN.
Proof. reflexivity. Qed.

Lemma map_seq_const {A} (f : nat -> A) (v : A) (n k : nat) :
  (forall i, f i = v) -> map f (seq k n) = replicate n v.
Proof.
  intros Hf. revert k. induction n as [|n IH]; intros k; simpl; [done|].
  by rewrite Hf, IH.
Qed.

(** The derivative of a curve that reads as NaN everywhere is NaN
    everywhere, whatever the x values. *)
Lemma calculateDerivative_NaN (xValues yValues : list jsnum) :
  (forall i, get yValues i = NaN) ->
  calculateDerivative xValues yValues = replicate (length xValues) NaN.
Proof.
  intros Hy. unfold calculateDerivative. apply map_seq_const. intros i.
  rewrite !Hy. by repeat (destruct (decide _)).
Qed.

(** X4.  The derivative has one value per x value; a single point, or an empty
    [yValues], gives NaN. *)
Theorem calculateDerivative_edges (xValues yValues : list jsnum) :
  length (calculateDerivative xValues yValues) = length xValues /\
  (forall x, calculateDerivative [x] yValues = [NaN]) /\
  (yValues = [] -> calculateDerivative xValues yValues
                   = replicate (length xValues) NaN).
Proof.
  split; [unfold calculateDerivative; by rewrite length_map, length_seq|].
  split.
  - intros x. unfold calculateDerivative. cbn [length seq map].
    rewrite decide_True by done.
    change (get [x] 1 - get [x] 0)%js with NaN. by rewrite div_NaN_r.
  - intros ->. by apply calculateDerivative_NaN.
Qed.

(** ** Degenerate normalization *)

Lemma normalizeValue_equal_means (a : Qc) (v : jsnum) :
  isFinite (normalizeValue (Fin a) (Fin a) v) = false /\
  (forall q, v = Fin q ->
     normalizeValue (Fin a) (Fin a) v =
     if decide (q = a) then NaN else if decide (a < q)%Qc then PInf else NInf).
Proof.
  assert (Hz : (a + - a)%Qc = 0%Qc) by ring.
  unfold normalizeValue, JS.sub, JS.add, JS.neg, JS.div. rewrite Hz.
  destruct v as [q| | |]; (split; [|intros q' [= <-] || (intros q' Hq; discriminate)]).
  - rewrite decide_True by done. by repeat (destruct (decide _)).
  - rewrite decide_True by done.
    destruct (decide (q = a)) as [->|Hne].
    + rewrite decide_True by ring. done.
    + rewrite decide_False by (intros H0; by apply Hne, Qc_sub_zero).
      destruct (decide (a < q)%Qc) as [Hlt|Hge].
      * rewrite decide_True; [done|]. unfold Qclt in *. simpl in *.
        rewrite !Qred_correct. lra.
      * rewrite decide_False; [done|]. unfold Qclt in *. simpl in *.
        rewrite !Qred_correct. lra.
  - by rewrite decide_True.
  - by rewrite decide_True.
  - done.
Qed.



Lemma normalizeValue_NaN_pre (post v : jsnum) : normalizeValue NaN post v = NaN.
Proof. unfold normalizeValue. change (NaN - post)%js with NaN. apply div_NaN_r. Qed.

Lemma normalizeValue_NaN_post (pre v : jsnum) : normalizeValue pre NaN v = NaN.
Proof.
  unfold normalizeValue. unfold JS.sub at 1. simpl neg. by rewrite add_NaN_r.
Qed.

Lemma mean_nil : mean [] = NaN.
Proof. by_evaluation. Qed.

Lemma normalizeArray_empty (arr : list jsnum)
    (preStart preEnd postStart postEnd : Z) :
  slice arr preStart preEnd = [] \/ slice arr postStart postEnd = [] ->
  normalizeArray arr preStart preEnd postStart postEnd =
  replicate (length arr) NaN.
Proof.
  intros Hempty. unfold normalizeArray.
  apply map_const_replicate. intros v.
  destruct Hempty as [-> | ->]; rewrite mean_nil.
  - apply normalizeValue_NaN_pre.
  - apply normalizeValue_NaN_post.
Qed.

(** X6.  An empty pre-melt or post-melt window makes every normalized value
    NaN. *)
Theorem normalizeArray_empty_window (arr : list jsnum)
    (preStart preEnd postStart postEnd : Z) :
  slice arr preStart preEnd = [] \/ slice arr postStart postEnd = [] ->
  normalizeArray arr preStart preEnd postStart postEnd =
  replicate (length arr) NaN.
Proof. apply normalizeArray_empty. Qed.

Lemma normalizeArray_empty_window_witness :
  normalizeArray [lit 5; lit 4; lit 1] 0 0 2 3 = replicate 3 NaN.
Proof. apply (normalizeArray_empty_window [lit 5; lit 4; lit 1]). by left. Defined.

(** ** Tm detection on arbitrary input *)

Lemma findTm_loop_range (rest : list jsnum) (i idx : nat) (m : jsnum) :
  findTm_loop rest i idx m = idx \/
  (i <= findTm_loop rest i idx m < i + length rest)%nat.
Proof.
  revert i idx m. induction rest as [|d rest IH]; intros i idx m; [by left|].
  simpl. destruct (_ >? _)%js.
  - right. destruct (IH (S i) i d) as [-> | H]; lia.
  - destruct (IH (S i) idx m) as [-> | H]; [by left | right; lia].
Qed.

Lemma findTm_index_range (d : list jsnum) :
  (findTm_index d < Nat.max 1 (length d))%nat.
Proof.
  unfold findTm_index.
  destruct (findTm_loop_range (tail d) 1 0 (get d 0)) as [-> | H]; [lia|].
  destruct d; simpl in *; lia.
Qed.

(** X7.  Whatever the derivative holds (NaN and infinities included), the Tm
    is one of the temperatures: the one at an index of the derivative, or
    the first one when the derivative is empty. *)
Theorem findTm_is_a_temperature (temperatures d : list jsnum) :
  temperatures <> [] ->
  (length d <= length temperatures)%nat ->
  exists t, findTm temperatures d = Some t /\ t ∈ temperatures /\
            (findTm_index d < Nat.max 1 (length d))%nat.
Proof.
  intros Hne Hlen. pose proof (findTm_index_range d) as Hr.
  destruct (lookup_lt_is_Some_2 temperatures (findTm_index d)) as [t Ht].
  { destruct temperatures; [done|]. simpl in *. lia. }
  exists t. split; [exact Ht|]. split; [|exact Hr].
  by apply list_elem_of_lookup_2 in Ht.
Qed.

Lemma findTm_is_a_temperature_witness :
  exists t, findTm [lit 60; lit 61; lit 62] [PInf; NaN; NInf] = Some t /\
            t ∈ [lit 60; lit 61; lit 62].
Proof.
  destruct (findTm_is_a_temperature [lit 60; lit 61; lit 62] [PInf; NaN; NInf])
    as (t & Ht & Hin & _).
  - discriminate.
  - simpl. lia.
  - exists t. by split.
Defined.

Lemma findTm_loop_all_NaN (rest : list jsnum) (i idx : nat) (m : jsnum) :
  all_NaN rest -> findTm_loop rest i idx m = idx.
Proof.
  intros Hall. revert i. induction Hall as [|d rest -> _ IH]; intros i; [done|].
  simpl. apply IH.
Qed.

Lemma findTm_index_all_NaN (d : list jsnum) : all_NaN d -> findTm_index d = 0%nat.
Proof.
  intros Hall. unfold findTm_index. apply findTm_loop_all_NaN.
  destruct Hall; [constructor|done].
Qed.

(** * Further properties of the analysis *)

Lemma same_but_difference_refl (s : Sample) : same_but_difference s s.
Proof. by repeat split. Qed.

Lemma same_but_difference_differenced (refIdx : nat) (reference : list jsnum)
    (idx : nat) (s : Sample) :
  same_but_difference s (differencedSample refIdx reference idx s).
Proof. unfold differencedSample. destruct (decide _); by repeat split. Qed.

Lemma derived_all_normalized (g : Sample -> Sample) (l : list Sample) :
  (forall s, is_Some (normalized (g s))) ->
  Forall (fun s => is_Some (normalized s)) (map g l).
Proof. intros Hg. by apply Forall_fmap, Forall_true. Qed.

(** The samples that [analyze] stores, in its two cases. *)
Lemma analyze_try_cases (st : Settings) (pd : ProcessedData) (s0 : Sample) :
  samples pd !! 0%nat = Some s0 ->
  let r0 := detectMeltRegions (temperatures pd) (fluorescence s0) in
  let ds := map (derivedSample (temperatures pd) (smoothingWindow st) r0)
                (samples pd) in
  (no_reference (referenceSample st) (length (samples pd)) /\
   analyze_try st pd = Some (mkProcessedData (temperatures pd) ds (Some r0))) \/
  (exists r sr nr,
      referenceSample st = RefValue (Some r) /\
      (0 <= r < Z.of_nat (length (samples pd)))%Z /\
      ds !! Z.to_nat r = Some sr /\ normalized sr = Some nr /\
      analyze_try st pd =
      Some (mkProcessedData (temperatures pd)
              (imap (differencedSample (Z.to_nat r) nr) ds) (Some r0))).
Proof.
  intros H0 r0 ds. rewrite (analyze_try_stages st pd s0 H0). cbn zeta.
  fold r0. fold ds.
  assert (Hall : Forall (fun s => is_Some (normalized s)) ds).
  { apply derived_all_normalized. intros s. by eexists. }
  assert (Hlen : length ds = length (samples pd)) by apply length_map.
  destruct (decide (no_reference (referenceSample st) (length (samples pd))))
    as [Hno|Hyes].
  - left. split; [done|].
    by rewrite differenceStage_pass by (by rewrite Hlen).
  - right. destruct (referenceSample st) as [|[r|]]; simpl in Hyes; try done.
    apply dec_stable in Hyes.
    destruct (differenceStage_valid r ds Hall) as (sr & nr & Hsr & Hnr & Hst);
      [by rewrite Hlen|].
    exists r, sr, nr. repeat split; try done; try lia. by rewrite Hst.
Qed.

(** What [analyze] stores for each sample: the sample of stages 2 and 3,
    up to its difference curve. *)
Lemma analyze_try_samples (st : Settings) (pd pd' : ProcessedData) :
  analyze_try st pd = Some pd' ->
  exists s0,
    samples pd !! 0%nat = Some s0 /\
    temperatures pd' = temperatures pd /\
    regions pd' = Some (detectMeltRegions (temperatures pd) (fluorescence s0)) /\
    length (samples pd') = length (samples pd) /\
    forall k s, samples pd !! k = Some s ->
      exists s', samples pd' !! k = Some s' /\
        same_but_difference
          (derivedSample (temperatures pd) (smoothingWindow st)
             (detectMeltRegions (temperatures pd) (fluorescence s0)) s) s'.
Proof.
  intros Hrun.
  destruct (samples pd !! 0%nat) as [s0|] eqn:H0;
    [|unfold analyze_try in Hrun; by rewrite H0 in Hrun].
  exists s0. split; [done|].
  destruct (analyze_try_cases st pd s0 H0) as [[_ Heq] | (r & sr & nr & _ & _ & _ & _ & Heq)];
    rewrite Heq in Hrun; injection Hrun as <-; cbn [temperatures regions samples].
  - repeat split; [by rewrite length_map|].
    intros k s Hs. eexists. rewrite list_lookup_fmap, Hs. split; [done|].
    apply same_but_difference_refl.
  - repeat split; [by rewrite length_imap, length_map|].
    intros k s Hs. eexists. rewrite list_lookup_imap, list_lookup_fmap, Hs.
    split; [done|]. apply same_but_difference_differenced.
Qed.

Lemma analyze_try_succeeds (st : Settings) (pd : ProcessedData) :
  samples pd <> [] -> is_Some (analyze_try st pd).
Proof.
  intros Hne. destruct (samples pd) as [|s0 rest] eqn:Hss; [done|].
  assert (H0 : samples pd !! 0%nat = Some s0) by (by rewrite Hss).
  destruct (analyze_try_cases st pd s0 H0) as [[_ ->] | (r & sr & nr & _ & _ & _ & _ & ->)];
    by eexists.
Qed.

Lemma analyze_try_fails (st : Settings) (pd : ProcessedData) :
  samples pd = [] -> analyze_try st pd = None.
Proof. intros H. unfold analyze_try. by rewrite H. Qed.

(** X8.  [analyze] succeeds exactly when data with at least one sample is
    loaded.  On success it stores what it returns, merges the settings and
    announces completion; without data it changes nothing, the settings
    included; it never touches the raw data. *)
Theorem analyze_outcome (dp : DataProcessor) (patch : SettingsPatch) :
  rawData (analyze dp patch).1.1 = rawData dp /\
  (is_Some (analyze dp patch).1.2 <->
   exists pd, processedData dp = Some pd /\ samples pd <> []) /\
  (is_Some (analyze dp patch).1.2 ->
   processedData (analyze dp patch).1.1 = (analyze dp patch).1.2 /\
   settings (analyze dp patch).1.1 = merge_settings (settings dp) patch /\
   last (analyze dp patch).2 = Some (Dispatch "analysisComplete")) /\
  ((analyze dp patch).1.2 = None ->
   processedData (analyze dp patch).1.1 = processedData dp /\
   Forall (fun e => e <> Dispatch "analysisComplete") (analyze dp patch).2) /\
  (processedData dp = None -> (analyze dp patch).1.1 = dp).
Proof.
  unfold analyze. destruct (processedData dp) as [pd|] eqn:Hpd.
  - destruct (decide (samples pd = [])) as [Hemp|Hne].
    + rewrite (analyze_try_fails _ pd Hemp). cbn [fst snd rawData processedData].
      split; [done|]. split.
      { split; [by intros [? ?]|]. intros (pd0 & [= <-] & Hs). done. }
      split; [by intros [? ?]|]. split; [|done].
      intros _. split; [done|]. by repeat constructor.
    + destruct (analyze_try_succeeds (merge_settings (settings dp) patch) pd Hne)
        as [pd' ->].
      cbn [fst snd rawData processedData settings].
      split; [done|]. split.
      { split; [intros _; by exists pd|by eexists]. }
      split; [done|]. split; [done|done].
  - cbn [fst snd]. rewrite Hpd. split; [done|]. split.
    { split; [by intros [? ?]|]. by intros (pd0 & ? & _). }
    split; [by intros [? ?]|]. split; [|done].
    intros _. split; [done|]. by repeat constructor.
Qed.

(** X9.  What a successful analysis stores.  The temperatures, and for each
    sample the name, the fluorescence and the visibility, are unchanged;
    the regions are the automatic ones, whatever the normalization mode;
    the normalized curve has one value per fluorescence value; the stored
    derivative is the negated derivative of the smoothed normalized curve,
    one value per temperature; the Tm is the one [findTm] reads off the
    stored derivative. *)
Theorem analyze_result_shape (st : Settings) (pd pd' : ProcessedData) :
  analyze_try st pd = Some pd' ->
  temperatures pd' = temperatures pd /\
  regions pd' =
    Some (mkRegions 0 (Z.of_nat (length (temperatures pd)) `div` 10)
                    ((9 * Z.of_nat (length (temperatures pd))) `div` 10)
                    (Z.of_nat (length (temperatures pd)))) /\
  length (samples pd') = length (samples pd) /\
  forall k s, samples pd !! k = Some s ->
    exists s' n d,
      samples pd' !! k = Some s' /\
      name s' = name s /\ fluorescence s' = fluorescence s /\
      visible s' = visible s /\
      normalized s' = Some n /\ length n = length (fluorescence s) /\
      derivative s' = Some d /\ length d = length (temperatures pd) /\
      d = map neg (calculateDerivative (temperatures pd)
                     (movingAverage n (smoothingWindow st))) /\
      tm s' = findTm (temperatures pd) d.
Proof.
  intros Hrun.
  destruct (analyze_try_samples st pd pd' Hrun)
    as (s0 & _ & Ht & Hr & Hl & Hs).
  split; [done|]. split.
  { rewrite Hr. unfold detectMeltRegions.
    by rewrite floor_mul_tenth, floor_mul_nine_tenths. }
  split; [done|].
  intros k s Hk. destruct (Hs k s Hk) as (s' & Hk' & Hn & Hf & Hv & Hnm & Hd & Htm).
  eexists s', _, _. split; [done|]. split; [done|]. split; [done|].
  split; [done|]. split; [rewrite Hnm; reflexivity|].
  split; [unfold normalizeArray; by rewrite length_map|].
  split; [rewrite Hd; reflexivity|].
  split.
  { rewrite length_map. unfold calculateDerivative.
    by rewrite length_map, length_seq. }
  split; [reflexivity|]. by rewrite Htm.
Qed.

Lemma analyze_result_shape_witness :
  exists pd',
    analyze_try (mkSettings "manual" 3 RefNull)
      (mkProcessedData [lit 60; lit 61]
         [mkSample "A" [lit 2; lit 1] true None None None None] None)
    = Some pd' /\ temperatures pd' = [lit 60; lit 61].
Proof.
  destruct (analyze_try_succeeds (mkSettings "manual" 3 RefNull)
              (mkProcessedData [lit 60; lit 61]
                 [mkSample "A" [lit 2; lit 1] true None None None None] None))
    as [pd' Hrun]; [discriminate|].
  exists pd'. split; [exact Hrun|].
  by destruct (analyze_result_shape _ _ _ Hrun) as (Ht & _).
Defined.

Lemma slice_0_0 {A} (arr : list A) : slice arr 0 0 = [].
Proof. unfold slice. simpl. rewrite Z.min_l by lia. reflexivity. Qed.

Lemma get_replicate_NaN (n i : nat) : get (replicate n NaN) i = NaN.
Proof.
  unfold get. destruct (replicate n NaN !! i) as [x|] eqn:H; [|done].
  by apply lookup_replicate in H as [-> _].
Qed.

Lemma all_NaN_replicate (n : nat) : all_NaN (replicate n NaN).
Proof. by apply Forall_replicate. Qed.

(** X10.  A reading with fewer than ten temperatures has an empty automatic
    pre-melt window: for every sample the normalized curve and the
    derivative curve are NaN throughout and the Tm is the first
    temperature, whatever the fluorescence values and the settings. *)
Theorem analyze_short_reading (st : Settings) (pd : ProcessedData) :
  samples pd <> [] ->
  (0 < length (temperatures pd) < 10)%nat ->
  exists pd',
    analyze_try st pd = Some pd' /\
    Forall (fun s' =>
              normalized s' = Some (replicate (length (fluorescence s')) NaN) /\
              derivative s' = Some (replicate (length (temperatures pd)) NaN) /\
              tm s' = head (temperatures pd))
           (samples pd').
Proof.
  intros Hne HN.
  destruct (analyze_try_succeeds st pd Hne) as [pd' Hrun].
  exists pd'. split; [done|].
  destruct (analyze_try_samples st pd pd' Hrun) as (s0 & _ & _ & _ & Hl & Hs).
  apply Forall_lookup_2. intros k s' Hk'.
  destruct (lookup_lt_is_Some_2 (samples pd) k) as [s Hk].
  { rewrite <- Hl. by apply lookup_lt_Some in Hk'. }
  destruct (Hs k s Hk) as (s'' & Hk'' & _ & Hf & _ & Hnm & Hd & Htm).
  rewrite Hk' in Hk''. injection Hk'' as <-.
  rewrite Hnm, Hd, Htm, Hf. unfold derivedSample.
  cbn [normalized derivative tm set_derivative_tm set_normalized fluorescence].
  assert (Hpre : preEnd (detectMeltRegions (temperatures pd) (fluorescence s0))
                 = 0%Z).
  { unfold detectMeltRegions. cbn [preEnd]. rewrite floor_mul_tenth.
    apply Z.div_small. lia. }
  rewrite Hpre. change (preStart (detectMeltRegions _ _)) with 0%Z.
  rewrite normalizeArray_empty by (left; apply slice_0_0).
  rewrite movingAverage_all_NaN by apply all_NaN_replicate.
  rewrite length_replicate.
  rewrite calculateDerivative_NaN by (intros i; apply get_replicate_NaN).
  rewrite (map_replicate_const neg NaN NaN) by done.
  unfold findTm. rewrite findTm_index_all_NaN by apply all_NaN_replicate.
  by rewrite head_lookup.
Qed.

Lemma analyze_short_reading_witness :
  exists pd',
    analyze_try (mkSettings "auto" 5 RefNull)
      (mkProcessedData [lit 60; lit 61; lit 62]
         [mkSample "A" [lit 9; lit 5; lit 1] true None None None None] None)
    = Some pd' /\
    Forall (fun s' => tm s' = Some (lit 60)) (samples pd').
Proof.
  destruct (analyze_short_reading (mkSettings "auto" 5 RefNull)
              (mkProcessedData [lit 60; lit 61; lit 62]
                 [mkSample "A" [lit 9; lit 5; lit 1] true None None None None]
                 None))
    as (pd' & Hrun & Hall).
  - discriminate.
  - simpl. lia.
  - exists pd'. split; [exact Hrun|].
    eapply Forall_impl; [exact Hall|]. intros s' (_ & _ & Htm). exact Htm.
Defined.

Lemma derivedSample_fix (t : list jsnum) (w : Z) (r : Regions) (s o : Sample) :
  same_but_difference (derivedSample t w r s) o -> derivedSample t w r o = o.
Proof.
  destruct o as [n f v nm d tmo df]. unfold same_but_difference.
  cbn [name fluorescence visible normalized derivative tm].
  intros (_ & -> & _ & -> & -> & ->). reflexivity.
Qed.

Lemma differencedSample_twice (refIdx : nat) (reference : list jsnum) (k : nat)
    (s : Sample) :
  differencedSample refIdx reference k (differencedSample refIdx reference k s)
  = differencedSample refIdx reference k s.
Proof. unfold differencedSample. by destruct (decide _). Qed.

Lemma regions_any_fluorescence (t f1 f2 : list jsnum) :
  detectMeltRegions t f1 = detectMeltRegions t f2.
Proof. reflexivity. Qed.

(** X11.  Running the analysis again on its own result, with the same smoothing
    window and with the same reference or with none, changes nothing.  In
    particular deselecting the reference (or selecting one out of range)
    leaves the difference curves of the earlier reference in place. *)
Theorem analyze_again (st st' : Settings) (pd pd' : ProcessedData) :
  analyze_try st pd = Some pd' ->
  smoothingWindow st' = smoothingWindow st ->
  referenceSample st' = referenceSample st \/
  no_reference (referenceSample st') (length (samples pd)) ->
  analyze_try st' pd' = Some pd'.
Proof.
  intros Hrun Hw Href.
  destruct (analyze_try_samples st pd pd' Hrun) as (s0 & H0 & Ht & Hr & Hl & Hs).
  destruct (Hs 0%nat s0 H0) as (o0 & Ho0 & _).
  set (r0 := detectMeltRegions (temperatures pd) (fluorescence s0)) in *.
  set (g := derivedSample (temperatures pd) (smoothingWindow st) r0) in *.
  assert (Hfix : map g (samples pd') = samples pd').
  { apply list_eq. intros k. rewrite list_lookup_fmap.
    destruct (samples pd' !! k) as [o|] eqn:Hk; [|done]. simpl. f_equal.
    destruct (lookup_lt_is_Some_2 (samples pd) k) as [s Hsk].
    { rewrite <- Hl. by apply lookup_lt_Some in Hk. }
    destruct (Hs k s Hsk) as (o' & Hk' & Hsame).
    rewrite Hk in Hk'. injection Hk' as <-.
    by apply (derivedSample_fix _ _ _ s). }
  destruct (analyze_try_cases st' pd' o0 Ho0) as [[Hno Heq] | Hvalid].
  - rewrite Heq, Ht, Hw.
    rewrite (regions_any_fluorescence _ _ (fluorescence s0)). fold r0 g.
    rewrite Hfix. destruct pd'. cbn in *. by subst.
  - destruct Hvalid as (r & sr & nr & Hr' & Hrange & Hsr & Hnr & Heq).
    rewrite Heq. clear Heq.
    rewrite Ht, Hw in *.
    rewrite (regions_any_fluorescence _ _ (fluorescence s0)) in *. fold r0 g in Hsr |- *.
    rewrite Hfix in *.
    destruct Href as [Href|Href];
      [|rewrite Hr' in Href; simpl in Href; rewrite <- Hl in Href; done].
    rewrite Hr' in Href.
    destruct (analyze_try_cases st pd s0 H0)
      as [[Hno _] | (r1 & sr1 & nr1 & Hr1 & _ & Hsr1 & Hnr1 & Heq1)].
    { rewrite <- Href in Hno. simpl in Hno. rewrite <- Hl in Hno. done. }
    rewrite Hr1 in Href. injection Href as ->.
    rewrite Hrun in Heq1. injection Heq1 as Hpd'.
    fold r0 g in Hsr1, Hpd'.
    assert (Hnr_eq : nr = nr1).
    { rewrite Hpd' in Hsr. cbn [samples] in Hsr.
      rewrite list_lookup_imap, Hsr1 in Hsr. simpl in Hsr.
      injection Hsr as <-. rewrite differencedSample_normalized, Hnr1 in Hnr.
      by injection Hnr. }
    subst nr.
    assert (Hsm : samples pd' =
                  imap (differencedSample (Z.to_nat r1) nr1) (map g (samples pd)))
      by (by rewrite Hpd').
    rewrite Hsm, Hpd'. do 2 f_equal. apply list_eq. intros k.
    rewrite !list_lookup_imap. destruct (map g (samples pd) !! k); [|done].
    simpl. by rewrite differencedSample_twice.
Qed.

Lemma analyze_again_witness :
  exists pd',
    analyze_try (mkSettings "auto" 1 (RefValue (Some 0%Z)))
      (mkProcessedData [lit 60; lit 61]
         [mkSample "A" [lit 2; lit 1] true None None None None;
          mkSample "B" [lit 3; lit 1] true None None None None] None)
    = Some pd' /\
    analyze_try (mkSettings "auto" 1 RefNull) pd' = Some pd'.
Proof.
  destruct (analyze_try_succeeds (mkSettings "auto" 1 (RefValue (Some 0%Z)))
      (mkProcessedData [lit 60; lit 61]
         [mkSample "A" [lit 2; lit 1] true None None None None;
          mkSample "B" [lit 3; lit 1] true None None None None] None))
    as [pd' Hrun]; [discriminate|].
  exists pd'. split; [exact Hrun|].
  apply (analyze_again _ _ _ _ Hrun); [reflexivity|by right].
Defined.

(** * Further properties of the extraction *)

Lemma fill_pass_present (v : jsnum) (l : list jsnum) :
  fill_pass v (Some <$> l) = l.
Proof. revert v. induction l as [|x l IH]; intros v; simpl; [done|]. by rewrite IH. Qed.

(** The backward pass of [fillMissingValues] finds nothing to fill. *)
Lemma fillMissingValues_forward (arr : list (option jsnum)) :
  fillMissingValues arr = fill_pass (or_zero (first_present arr)) arr.
Proof.
  unfold fillMissingValues, first_present.
  by rewrite <- fmap_reverse, fill_pass_present, reverse_involutive.
Qed.

Lemma last_cons_default {A} (x : A) (l : list A) :
  last (x :: l) = Some (default x (last l)).
Proof.
  revert x. induction l as [|y l IH]; intros x; [done|].
  change (last (x :: y :: l)) with (last (y :: l)). by rewrite IH.
Qed.

Lemma fill_pass_lookup (v : jsnum) (arr : list (option jsnum)) (i : nat) :
  (i < length arr)%nat ->
  fill_pass v arr !! i = Some (default v (last_present arr i)).
Proof.
  unfold last_present. revert v i.
  induction arr as [|[x|] arr IH]; intros v i Hi; [simpl in Hi; lia| |].
  - destruct i as [|j]; [done|]. simpl in Hi.
    cbn [fill_pass lookup list_lookup]. change (list_lookup j) with (lookup (M:=list jsnum) j).
    rewrite IH by lia. f_equal.
    change (omap id (take (S (S j)) (Some x :: arr)))
      with (x :: omap id (take (S j) arr)).
    by rewrite last_cons_default.
  - destruct i as [|j]; [done|]. simpl in Hi.
    cbn [fill_pass lookup list_lookup]. change (list_lookup j) with (lookup (M:=list jsnum) j).
    by rewrite IH by lia.
Qed.

Lemma first_present_replicate_None (n : nat) :
  first_present (replicate n None) = None.
Proof. unfold first_present. induction n as [|n IH]; [done|exact IH]. Qed.

Lemma fillMissingValues_present (arr : list (option jsnum)) (i : nat)
    (v : jsnum) :
  arr !! i = Some (Some v) -> fillMissingValues arr !! i = Some v.
Proof.
  intros Hi. rewrite fillMissingValues_forward.
  rewrite fill_pass_lookup by (by apply lookup_lt_Some in Hi).
  unfold last_present. rewrite (take_S_r _ _ _ Hi), omap_app. simpl.
  by rewrite last_snoc.
Qed.

(** X12.  [fillMissingValues] keeps the length; every entry becomes the last
    value present at or before it, and the entries before the first
    present value become that value (0 when it is NaN or when the column
    has no value at all); a column without gaps is returned as it is. *)
Theorem fillMissingValues_spec (arr : list (option jsnum)) :
  length (fillMissingValues arr) = length arr /\
  (forall i, (i < length arr)%nat ->
     fillMissingValues arr !! i =
     Some (default (or_zero (first_present arr)) (last_present arr i))) /\
  (forall i v, arr !! i = Some (Some v) -> fillMissingValues arr !! i = Some v) /\
  (forall l, arr = Some <$> l -> fillMissingValues arr = l) /\
  (forall n, arr = replicate n None ->
             fillMissingValues arr = replicate n zero).
Proof.
  split; [apply fillMissingValues_length|].
  assert (Hpt : forall i, (i < length arr)%nat ->
     fillMissingValues arr !! i =
     Some (default (or_zero (first_present arr)) (last_present arr i))).
  { intros i Hi. rewrite fillMissingValues_forward. by apply fill_pass_lookup. }
  split; [exact Hpt|]. split.
  - intros i v Hi. rewrite Hpt by (by apply lookup_lt_Some in Hi).
    unfold last_present. rewrite (take_S_r _ _ _ Hi), omap_app. simpl.
    by rewrite last_snoc.
  - split.
    + intros l ->. rewrite fillMissingValues_forward. apply fill_pass_present.
    + intros n ->. rewrite fillMissingValues_forward.
      rewrite first_present_replicate_None. cbn [or_zero].
      clear Hpt. induction n as [|n IH]; [done|].
      cbn [replicate fill_pass]. by rewrite IH.
Qed.

Lemma or_zero_not_NaN (o : option jsnum) : isNaN (or_zero o) = false.
Proof. by destruct o as [[| | |]|]. Qed.

Lemma fill_pass_NaN_free (v : jsnum) (arr : list (option jsnum)) :
  isNaN v = false ->
  Forall (fun o => forall x, o = Some x -> isNaN x = false) arr ->
  NaN_free (fill_pass v arr).
Proof.
  intros Hv Harr. revert v Hv.
  induction Harr as [|[x|] arr Hx _ IH]; intros v Hv; simpl.
  - constructor.
  - constructor; [by apply Hx|]. apply IH. by apply Hx.
  - constructor; [done|]. by apply IH.
Qed.

Lemma columnValues_no_NaN (rows : list Row) (h : string) :
  Forall (fun o => forall x, o = Some x -> isNaN x = false) (columnValues rows h).
Proof.
  unfold columnValues. apply Forall_fmap, Forall_true. intros row. simpl.
  destruct (isNaN (parseFloat (row !! h))) eqn:Hn; [done|].
  by intros x [= <-].
Qed.

Lemma columnSample_NaN_free (rows : list Row) (h : string) :
  NaN_free (fluorescence (columnSample rows h)).
Proof.
  simpl. rewrite fillMissingValues_forward.
  apply fill_pass_NaN_free; [apply or_zero_not_NaN | apply columnValues_no_NaN].
Qed.

(** X13.  What a successful extraction stores: the temperatures of the rows
    whose temperature parses, none of them NaN; one sample per accepted
    column, in header order, with one fluorescence value per temperature,
    none of them NaN, the value of every cell that parses being kept as it
    is; every sample visible and without analysis results; no regions. *)
Theorem extractSamples_postcondition (dp : DataProcessor) (raw : RawData) :
  rawData dp = Some raw ->
  validRows raw <> [] ->
  filter (accepted raw) (headers raw) <> [] ->
  exists pd,
    processedData (extractSamples dp).1 = Some pd /\
    temperatures pd =
      map (fun row : Row => parseFloat (row !! tempHeader raw)) (validRows raw) /\
    NaN_free (temperatures pd) /\
    regions pd = None /\
    map name (samples pd) = filter (accepted raw) (headers raw) /\
    Forall (fun s =>
              length (fluorescence s) = length (temperatures pd) /\
              NaN_free (fluorescence s) /\
              visible s = true /\ normalized s = None /\
              derivative s = None /\ tm s = None /\ difference s = None /\
              forall i (row : Row),
                validRows raw !! i = Some row ->
                isNaN (parseFloat (row !! name s)) = false ->
                fluorescence s !! i = Some (parseFloat (row !! name s)))
           (samples pd).
Proof.
  intros Hraw Hrows Hkept.
  rewrite (extractSamples_run dp raw Hraw Hrows).
  destruct (filter (accepted raw) (headers raw)) as [|h0 kept] eqn:Hk; [done|].
  rewrite decide_False by (simpl; lia).
  eexists. split; [reflexivity|]. cbn [temperatures samples regions].
  split; [done|]. split.
  { apply Forall_fmap. unfold validRows. apply Forall_forall. intros row Hin.
    by apply list_elem_of_filter in Hin as [Hn _]. }
  split; [done|]. split.
  { rewrite map_map. simpl. by rewrite map_id. }
  apply Forall_fmap, Forall_true. intros h.
  split.
  { simpl. rewrite fillMissingValues_length. unfold columnValues.
    by rewrite !length_map. }
  split; [apply columnSample_NaN_free|].
  repeat (split; [done|]).
  intros i row Hi Hn. cbn [name fluorescence columnSample] in *.
  apply fillMissingValues_present.
  unfold columnValues. rewrite list_lookup_fmap, Hi. simpl. by rewrite Hn.
Qed.

Lemma extractSamples_postcondition_witness :
  exists pd,
    processedData (extractSamples coverage_processor).1 = Some pd /\
    NaN_free (temperatures pd).
Proof.
  destruct (extractSamples_postcondition coverage_processor coverage_raw)
    as (pd & Hpd & _ & Hfree & _).
  - reflexivity.
  - by_evaluation.
  - by_evaluation.
  - exists pd. by split.
Defined.

(** X14.  [setData] always stores the new reading as raw data and never touches
    the settings.  When no row has a temperature, or when no column is
    accepted, the processed data of the earlier reading stays in place and
    the last effect is an error toast; otherwise the processed data are
    replaced and no toast is raised. *)
Theorem setData_outcome (dp : DataProcessor) (raw : RawData) :
  rawData (setData dp raw).1 = Some raw /\
  settings (setData dp raw).1 = settings dp /\
  (validRows raw = [] \/ filter (accepted raw) (headers raw) = [] ->
   processedData (setData dp raw).1 = processedData dp /\
   exists msg, last (setData dp raw).2 = Some (Toast "Error" msg "error")) /\
  (validRows raw <> [] -> filter (accepted raw) (headers raw) <> [] ->
   exists pd,
     processedData (setData dp raw).1 = Some pd /\
     map name (samples pd) = filter (accepted raw) (headers raw) /\
     (setData dp raw).2 = map Warn (filter (dropped raw) (headers raw))).
Proof.
  unfold setData.
  set (dp0 := mkDataProcessor (Some raw) (processedData dp) (settings dp)).
  assert (Hraw : rawData dp0 = Some raw) by done.
  destruct (decide (validRows raw = [])) as [Hrows|Hrows].
  - assert (Hrun : extractSamples dp0 =
                   (dp0, [Toast "Error" "No valid temperature data found" "error"])).
    { unfold extractSamples. rewrite Hraw, Hrows. reflexivity. }
    rewrite Hrun. cbn [fst snd]. split; [done|]. split; [done|]. split.
    + intros _. split; [done|]. by eexists.
    + done.
  - rewrite (extractSamples_run dp0 raw Hraw Hrows).
    destruct (filter (accepted raw) (headers raw)) as [|h0 kept] eqn:Hk.
    + cbn [map length]. rewrite decide_True by done. cbn [fst snd].
      split; [done|]. split; [done|]. split; [|done].
      intros _. split; [done|]. eexists. by rewrite last_snoc.
    + rewrite decide_False by (simpl; lia). cbn [fst snd rawData settings processedData].
      split; [done|]. split; [done|]. split.
      * intros [?|?]; done.
      * intros _ _. eexists. split; [reflexivity|]. cbn [samples].
        split; [|done]. rewrite map_map. simpl. by rewrite map_id.
Qed.

(** * The export table *)

Lemma fold_left_push {A B} (f : A -> list B) (l : list A) (init : list B) :
  fold_left (fun acc x => acc ++ f x) l init = init ++ flat_map f l.
Proof.
  revert init. induction l as [|x l IH]; intros init; simpl.
  - by rewrite app_nil_r.
  - by rewrite IH, app_assoc.
Qed.

Lemma exportHeaderStep_push (headers : list export_cell) (s : Sample) :
  exportHeaderStep headers s =
  headers ++ map (fun c => EText c.1) (sampleColumns s).
Proof.
  unfold exportHeaderStep, sampleColumns.
  destruct (normalized s), (derivative s), (difference s); cbn [map app fst];
    rewrite <- ?app_assoc; reflexivity.
Qed.

Lemma exportRowStep_push (i : nat) (row : list export_cell) (s : Sample) :
  exportRowStep i row s =
  row ++ map (fun c => cell_at c.2 i) (sampleColumns s).
Proof.
  unfold exportRowStep, sampleColumns.
  destruct (normalized s), (derivative s), (difference s); cbn [map app snd];
    rewrite <- ?app_assoc; reflexivity.
Qed.

Lemma fold_left_ext {A B} (f g : B -> A -> B) (l : list A) (init : B) :
  (forall b a, f b a = g b a) -> fold_left f l init = fold_left g l init.
Proof.
  intros H. revert init. induction l as [|x l IH]; intros init; simpl; [done|].
  by rewrite H, IH.
Qed.

Lemma flat_map_map {A B C} (f : A -> list B) (g : B -> C) (l : list A) :
  flat_map (fun x => map g (f x)) l = map g (flat_map f l).
Proof.
  induction l as [|x l IH]; [done|]. cbn [flat_map]. by rewrite map_app, IH.
Qed.

Lemma export_header_row (l : list Sample) :
  fold_left exportHeaderStep l [EText "Temperature"] =
  EText "Temperature" :: map (fun c => EText c.1) (flat_map sampleColumns l).
Proof.
  rewrite (fold_left_ext _ (fun acc s => acc ++ map (fun c => EText c.1)
                                                 (sampleColumns s)))
    by apply exportHeaderStep_push.
  by rewrite fold_left_push, flat_map_map.
Qed.

Lemma export_data_row (l : list Sample) (i : nat) (first : export_cell) :
  fold_left (exportRowStep i) l [first] =
  first :: map (fun c => cell_at c.2 i) (flat_map sampleColumns l).
Proof.
  rewrite (fold_left_ext _ (fun acc s => acc ++ map (fun c => cell_at c.2 i)
                                                 (sampleColumns s)))
    by apply exportRowStep_push.
  by rewrite fold_left_push, flat_map_map.
Qed.

(** X15.  The export is [null] without processed data.  Otherwise it is a
    header row followed by one row per temperature; the columns are the
    temperature and then, sample by sample, the raw curve and whichever of
    the normalized, derivative and difference curves the sample holds, in
    that order; every row has as many cells as the header row; the cell of
    a curve in row [i] is its value at [i], or [undefined] past its end. *)
Theorem exportProcessedData_table (dp : DataProcessor) :
  (processedData dp = None -> exportProcessedData dp = None) /\
  (forall pd, processedData dp = Some pd ->
     let columns := flat_map sampleColumns (samples pd) in
     exists rows,
       exportProcessedData dp =
         Some ((EText "Temperature" :: map (fun c => EText c.1) columns)
               :: rows) /\
       length rows = length (temperatures pd) /\
       Forall (fun row => length row = S (length columns)) rows /\
       forall i, (i < length (temperatures pd))%nat ->
         rows !! i =
         Some (cell_at (temperatures pd) i
               :: map (fun c => cell_at c.2 i) columns)).
Proof.
  unfold exportProcessedData. split; [by intros ->|].
  intros pd ->. cbn zeta. eexists. split; [|split; [|split]].
  - by rewrite export_header_row.
  - by rewrite length_map, length_seq.
  - apply Forall_fmap, Forall_true. intros i. cbn [compose].
    rewrite export_data_row. cbn [length]. by rewrite length_map.
  - intros i Hi. rewrite list_lookup_fmap, lookup_seq_lt by done.
    cbn [fmap option_fmap option_map]. by rewrite export_data_row.
Qed.

(** * The invariant of the processed data *)

Lemma curves_complete_set_visible (N : nat) (v : bool) (s : Sample) :
  curves_complete N s -> curves_complete N (set_visible v s).
Proof. done. Qed.

Lemma curves_complete_derived (N : nat) (t : list jsnum) (w : Z) (r : Regions)
    (s : Sample) :
  length t = N -> curves_complete N s ->
  curves_complete N (derivedSample t w r s).
Proof.
  intros Ht (Hf & _ & _ & Hd). unfold curves_complete, derivedSample.
  cbn [fluorescence normalized derivative difference set_derivative_tm
       set_normalized].
  split; [done|]. split.
  { intros n [= <-]. unfold normalizeArray. by rewrite length_map. }
  split; [|done].
  intros d [= <-]. rewrite length_map. unfold calculateDerivative.
  by rewrite length_map, length_seq.
Qed.

Lemma curves_complete_differenced (N refIdx : nat) (reference : list jsnum)
    (k : nat) (s : Sample) :
  length reference = N -> curves_complete N s ->
  is_Some (normalized s) ->
  curves_complete N (differencedSample refIdx reference k s).
Proof.
  intros Hr (Hf & Hn & Hd & _) [n Hsn]. unfold differencedSample.
  destruct (decide _); unfold curves_complete;
    cbn [fluorescence normalized derivative difference set_difference];
    (split; [done|]); (split; [done|]); (split; [done|]); intros d [= <-].
  - by rewrite length_replicate.
  - rewrite Hsn. cbn [default]. rewrite length_imap. by apply Hn.
Qed.

Lemma well_formed_analyze_try (st : Settings) (pd pd' : ProcessedData) :
  well_formed pd -> analyze_try st pd = Some pd' -> well_formed pd'.
Proof.
  intros [Hne Hall] Hrun.
  destruct (samples pd !! 0%nat) as [s0|] eqn:H0;
    [|unfold analyze_try in Hrun; by rewrite H0 in Hrun].
  pose proof (analyze_try_cases st pd s0 H0) as Hcases. cbn zeta in Hcases.
  remember (map (derivedSample (temperatures pd) (smoothingWindow st)
                   (detectMeltRegions (temperatures pd) (fluorescence s0)))
                (samples pd)) as ds eqn:Hdsdef.
  assert (Hds : Forall (curves_complete (length (temperatures pd))) ds).
  { subst ds. apply Forall_fmap. eapply Forall_impl; [exact Hall|].
    intros s Hs. by apply curves_complete_derived. }
  assert (Hsome : Forall (fun s => is_Some (normalized s)) ds).
  { subst ds. apply Forall_fmap, Forall_true. intros s. by eexists. }
  assert (Hlen : length ds = length (samples pd)) by (subst ds; apply length_map).
  assert (Hnil : forall (l : list Sample), length l = length ds -> l <> []).
  { intros l Hl ->. rewrite Hlen in Hl. destruct (samples pd); [done|].
    simpl in Hl. lia. }
  destruct Hcases as [[_ Heq] | (r & sr & nr & _ & _ & Hsr & Hnr & Heq)];
    rewrite Heq in Hrun; injection Hrun as <-;
    split; cbn [samples temperatures].
  - by apply Hnil.
  - exact Hds.
  - apply Hnil. by rewrite length_imap.
  - apply Forall_lookup_2. intros k o Hk. rewrite list_lookup_imap in Hk.
    destruct (ds !! k) as [s|] eqn:Hs; [|done].
    injection Hk as <-.
    apply curves_complete_differenced.
    + destruct (Forall_lookup_1 _ _ _ _ Hds Hsr) as (_ & Hn & _). by apply Hn.
    + by apply (Forall_lookup_1 _ _ _ _ Hds Hs).
    + by apply (Forall_lookup_1 _ _ _ _ Hsome Hs).
Qed.

Lemma processor_ok_analyze (dp : DataProcessor) (patch : SettingsPatch) :
  processor_ok dp -> processor_ok (analyze dp patch).1.1.
Proof.
  intros Hok. unfold analyze.
  destruct (processedData dp) as [pd|] eqn:Hpd; [|done].
  destruct (analyze_try _ pd) as [pd'|] eqn:Hrun; cbn [fst]; intros pd0 [= <-].
  - eapply well_formed_analyze_try; [by apply Hok|exact Hrun].
  - by apply Hok.
Qed.

Lemma processor_ok_setData (dp : DataProcessor) (raw : RawData) :
  processor_ok dp -> processor_ok (setData dp raw).1.
Proof.
  intros Hok. unfold setData.
  set (dp0 := mkDataProcessor (Some raw) (processedData dp) (settings dp)).
  assert (Hraw : rawData dp0 = Some raw) by done.
  destruct (decide (validRows raw = [])) as [Hrows|Hrows].
  - unfold extractSamples. rewrite Hraw, Hrows. cbn [length].
    rewrite decide_True by done. exact Hok.
  - destruct (decide (filter (accepted raw) (headers raw) = [])) as [Hk|Hk].
    + rewrite (extractSamples_run dp0 raw Hraw Hrows), Hk. cbn [map length].
      rewrite decide_True by done. exact Hok.
    + destruct (extractSamples_invariant dp0 raw Hraw Hrows Hk)
        as (pd & Hpd & Hne & Hall).
      intros pd0 Hpd0. rewrite Hpd in Hpd0. injection Hpd0 as <-.
      split; [done|]. eapply Forall_impl; [exact Hall|].
      intros s (Hf & _ & Hn & Hd & _ & Hdf). unfold curves_complete.
      rewrite Hn, Hd, Hdf. by repeat split.
Qed.

Lemma well_formed_update_visible (f : bool -> bool) (i : nat)
    (pd : ProcessedData) :
  well_formed pd -> well_formed (update_visible f i pd).
Proof.
  intros [Hne Hall]. unfold well_formed, update_visible.
  cbn [samples temperatures]. split.
  - intros Hnil. apply Hne. apply (f_equal length) in Hnil.
    rewrite length_alter in Hnil. by destruct (samples pd).
  - apply Forall_lookup_2. intros k s Hk.
    destruct (decide (k = i)) as [->|Hki].
    + rewrite list_lookup_alter_eq in Hk.
      destruct (samples pd !! i) as [s1|] eqn:H1; [|done].
      injection Hk as <-. by apply (Forall_lookup_1 _ _ _ _ Hall H1).
    + rewrite list_lookup_alter_ne in Hk by done.
      by apply (Forall_lookup_1 _ _ _ _ Hall Hk).
Qed.

Lemma processor_ok_visibility (dp : DataProcessor) :
  processor_ok dp ->
  (forall i, processor_ok (toggleSampleVisibility dp i).1) /\
  (forall i v, processor_ok (setSampleVisibility dp i v).1) /\
  (forall v, processor_ok (setAllSamplesVisibility dp v).1).
Proof.
  intros Hok. split; [|split].
  - intros i. unfold toggleSampleVisibility.
    destruct (processedData dp) as [pd|] eqn:Hpd; [|done].
    destruct (decide _); [|done]. intros pd0 [= <-].
    by apply well_formed_update_visible, Hok.
  - intros i v. unfold setSampleVisibility.
    destruct (processedData dp) as [pd|] eqn:Hpd; [|done].
    destruct (decide _); [|done]. intros pd0 [= <-].
    by apply well_formed_update_visible, Hok.
  - intros v. unfold setAllSamplesVisibility.
    destruct (processedData dp) as [pd|] eqn:Hpd; [|done].
    intros pd0 [= <-]. destruct (Hok pd Hpd) as [Hne Hall].
    split; cbn [samples temperatures].
    + by destruct (samples pd).
    + apply Forall_fmap. eapply Forall_impl; [exact Hall|]. done.
Qed.

(** X16.  Every processor reached from a new one by loading readings, running
    analyses and changing visibility holds, if it holds processed data at
    all, at least one sample, and every curve of every sample (raw,
    normalized, derivative, difference) has exactly one value per
    temperature. *)
Theorem processor_invariant :
  processor_ok new_DataProcessor /\
  (forall dp raw, processor_ok dp -> processor_ok (setData dp raw).1) /\
  (forall dp patch, processor_ok dp -> processor_ok (analyze dp patch).1.1) /\
  (forall dp i, processor_ok dp -> processor_ok (toggleSampleVisibility dp i).1) /\
  (forall dp i v, processor_ok dp ->
                  processor_ok (setSampleVisibility dp i v).1) /\
  (forall dp v, processor_ok dp ->
                processor_ok (setAllSamplesVisibility dp v).1).
Proof.
  split; [done|]. split; [apply processor_ok_setData|].
  split; [apply processor_ok_analyze|].
  split; [intros dp i Hok; by apply processor_ok_visibility|].
  split; [intros dp i v Hok; by apply processor_ok_visibility|].
  intros dp v Hok; by apply processor_ok_visibility.
Qed.

Lemma sampleColumns_complete (N : nat) (s : Sample) (c : string * list jsnum) :
  curves_complete N s -> c ∈ sampleColumns s -> length c.2 = N.
Proof.
  intros (Hf & Hn & Hd & Hdf). unfold sampleColumns.
  rewrite !elem_of_app, list_elem_of_singleton.
  intros [-> | [Hc | [Hc | Hc]]]; [done| | |].
  - destruct (normalized s) as [n|]; [|by apply elem_of_nil in Hc].
    apply list_elem_of_singleton in Hc as ->. by apply Hn.
  - destruct (derivative s) as [d|]; [|by apply elem_of_nil in Hc].
    apply list_elem_of_singleton in Hc as ->. by apply Hd.
  - destruct (difference s) as [d|]; [|by apply elem_of_nil in Hc].
    apply list_elem_of_singleton in Hc as ->. by apply Hdf.
Qed.

Lemma cell_at_number (arr : list jsnum) (i : nat) :
  (i < length arr)%nat -> exists x, cell_at arr i = ENumber x.
Proof.
  intros Hi. unfold cell_at.
  destruct (lookup_lt_is_Some_2 arr i Hi) as [x ->]. by eexists.
Qed.

(** X17.  The export of a processor whose data are well formed has no
    [undefined] cell: below the header row every cell is a number. *)
Theorem export_all_numbers (dp : DataProcessor) (table : list (list export_cell)) :
  processor_ok dp ->
  exportProcessedData dp = Some table ->
  exists header rows,
    table = header :: rows /\
    Forall (fun row => length row = length header /\
                       Forall (fun c => exists x, c = ENumber x) row) rows.
Proof.
  intros Hok Hex. unfold exportProcessedData in Hex.
  destruct (processedData dp) as [pd|] eqn:Hpd; [|done].
  injection Hex as <-. destruct (Hok pd Hpd) as [_ Hall].
  eexists _, _. split; [reflexivity|].
  apply Forall_fmap, Forall_forall. intros i Hi.
  apply elem_of_seq in Hi as [_ Hi]. cbn [compose]. simpl in Hi.
  rewrite export_data_row, export_header_row. split.
  { cbn [length]. by rewrite !length_map. }
  constructor; [by apply cell_at_number|].
  apply Forall_fmap, Forall_forall. intros c Hc. cbn [compose].
  apply list_elem_of_In, in_flat_map in Hc as (s & Hs & Hc).
  apply list_elem_of_In in Hs. apply list_elem_of_In in Hc.
  apply cell_at_number.
  rewrite (sampleColumns_complete (length (temperatures pd)) s c); [done| |done].
  by apply (proj1 (Forall_forall _ _) Hall).
Qed.

Lemma export_all_numbers_witness :
  exists header rows,
    exportProcessedData
      (analyze (extractSamples coverage_processor).1 (mkPatch None None None)).1.1
    = Some (header :: rows) /\
    Forall (fun row => length row = length header) rows.
Proof.
  pose (dp := (analyze (extractSamples coverage_processor).1
                 (mkPatch None None None)).1.1).
  assert (Hok : processor_ok dp).
  { apply processor_ok_analyze.
    apply (processor_ok_setData new_DataProcessor coverage_raw). done. }
  destruct (exportProcessedData dp) as [table|] eqn:Hex; [|by vm_compute in Hex].
  destruct (export_all_numbers dp table Hok Hex) as (header & rows & -> & Hall).
  exists header, rows. split; [exact Hex|].
  eapply Forall_impl; [exact Hall|]. by intros row [? _].
Defined.

(** * The text of the archive *)

Section ParserProperties.

Variable trim : string -> string.
Variable parseFloatString : string -> jsnum.

Lemma parseTabValues_loop_spec (parts : list string) :
  NaN_free (parseTabValues_loop trim parseFloatString parts) /\
  (length (parseTabValues_loop trim parseFloatString parts) <= length parts)%nat /\
  forall x, x ∈ parseTabValues_loop trim parseFloatString parts ->
    exists part, part ∈ parts /\ trim part <> EmptyString /\
                 x = parseFloatString (trim part).
Proof.
  induction parts as [|part parts (IHf & IHl & IHx)]; simpl.
  - split; [constructor|]. split; [done|]. intros x Hx. by apply elem_of_nil in Hx.
  - destruct (decide (trim part = EmptyString)) as [He|He].
    + split; [done|]. split; [lia|]. intros x Hx.
      destruct (IHx x Hx) as (p & Hp & Hq). exists p. split; [by right|done].
    + destruct (isNaN (parseFloatString (trim part))) eqn:Hn.
      * split; [done|]. split; [lia|]. intros x Hx.
        destruct (IHx x Hx) as (p & Hp & Hq). exists p. split; [by right|done].
      * split; [by constructor|]. split; [simpl; lia|]. intros x Hx.
        apply elem_of_cons in Hx as [-> | Hx].
        -- exists part. split; [by left|done].
        -- destruct (IHx x Hx) as (p & Hp & Hq). exists p. split; [by right|done].
Qed.

(** X18.  [parseTabValues] never returns NaN; it returns at most one number per
    tab-separated part, each read by [parseFloat] from a part that is not
    blank. *)
Theorem parseTabValues_spec (str : string) :
  NaN_free (parseTabValues trim parseFloatString str) /\
  (length (parseTabValues trim parseFloatString str) <= length (split tab str))%nat /\
  forall x, x ∈ parseTabValues trim parseFloatString str ->
    exists part, part ∈ split tab str /\ trim part <> EmptyString /\
                 x = parseFloatString (trim part).
Proof. apply parseTabValues_loop_spec. Qed.

Lemma parseTabValues_NaN_free (str : string) :
  NaN_free (parseTabValues trim parseFloatString str).
Proof. apply parseTabValues_loop_spec. Qed.

Lemma pushCurrent_ok
    (st : list EDSParser.ParsedSample * option EDSParser.ParsedSample) :
  scan_ok st ->
  Forall (fun s => EDSParser.temperatures s <> [] /\ record_clean s)
         (pushCurrent st.1 st.2).
Proof.
  intros [Hs Hc]. unfold pushCurrent. destruct st.2 as [c|]; [|done].
  destruct (decide _) as [Hlen|_]; [|done].
  apply Forall_app. split; [done|]. constructor; [|done].
  split; [|by apply Hc]. intros Hnil. rewrite Hnil in Hlen. simpl in Hlen. lia.
Qed.

Lemma scanLine_ok
    (st : list EDSParser.ParsedSample * option EDSParser.ParsedSample)
    (line : string) :
  scan_ok st -> scan_ok (scanLine trim parseFloatString st line).
Proof.
  intros Hok. unfold scanLine.
  destruct (decide _); [done|].
  destruct (sampleMatch line) as [[[[[g1 g2] g3] g4] g5]|].
  - split; cbn [fst snd]; [by apply pushCurrent_ok|].
    intros c [= <-]. unfold record_clean. cbn. repeat split; constructor.
  - destruct st.2 as [c|] eqn:Hc; [|done].
    destruct Hok as [Hs Hcur]. destruct (Hcur c Hc) as (H1 & H2 & H3 & H4).
    repeat (destruct (String.prefix _ line));
      try (split; cbn [fst snd]; [done|]; intros c' [= <-];
           repeat split; cbn; try done; apply parseTabValues_NaN_free).
    split; [done|]. intros c' Hc'. rewrite Hc in Hc'. injection Hc' as <-.
    by repeat split.
Qed.

Lemma fold_scanLine_ok (lines : list string)
    (st : list EDSParser.ParsedSample * option EDSParser.ParsedSample) :
  scan_ok st -> scan_ok (fold_left (scanLine trim parseFloatString) lines st).
Proof.
  revert st. induction lines as [|line lines IH]; intros st Hok; [done|].
  simpl. by apply IH, scanLine_ok.
Qed.

Lemma parseSamples_ok (meltText : string) :
  Forall (fun s => EDSParser.temperatures s <> [] /\ record_clean s)
         (parseSamples trim parseFloatString meltText).
Proof.
  unfold parseSamples. apply pushCurrent_ok, fold_scanLine_ok.
  split; [constructor|]. by intros c.
Qed.

(** X19.  Every sample record that the parser returns has at least one
    temperature, and its temperatures and Rn values hold no NaN: records
    without a temperature line are silently left out. *)
Theorem parseSamples_records (meltText : string) :
  Forall (fun s => EDSParser.temperatures s <> [] /\
                   NaN_free (EDSParser.temperatures s) /\
                   NaN_free (EDSParser.rnValues s))
         (parseSamples trim parseFloatString meltText).
Proof.
  eapply Forall_impl; [apply parseSamples_ok|].
  intros s (Hne & Ht & Hr & _). by repeat split.
Qed.

Lemma formatForHRMAnalyzer_shape (l : list EDSParser.ParsedSample)
    (s0 : EDSParser.ParsedSample) :
  l !! 0%nat = Some s0 ->
  exists parsed,
    EDSParser.formatForHRMAnalyzer l = Some parsed /\
    filename parsed = "eds_file" /\
    tempHeader parsed = "Temperature" /\
    headers parsed = EDSParser.buildHeaders l /\
    length (headers parsed) = S (length l) /\
    head (headers parsed) = Some "Temperature" /\
    sampleCount parsed = length l /\
    length (data parsed) = length (EDSParser.temperatures s0).
Proof.
  intros H0. unfold EDSParser.formatForHRMAnalyzer. rewrite H0.
  cbn [mbind option_bind]. eexists. split; [reflexivity|].
  cbn [filename tempHeader headers sampleCount data].
  destruct (buildHeaders_spec l) as (names & -> & Hlen & _).
  repeat split; try done.
  - simpl. by rewrite Hlen.
  - by rewrite length_map, length_seq.
Qed.

(** X20.  [parseMeltCurveResult] fails, with its own message, exactly when the
    text yields no sample record with temperatures.  Otherwise it returns
    the table of the records: the temperature header followed by one
    header per record, and one row per temperature of the first record,
    hence at least one row. *)
Theorem parseMeltCurveResult_outcome (meltText : string) :
  let samples := parseSamples trim parseFloatString meltText in
  (samples = [] ->
   parseMeltCurveResult trim parseFloatString meltText =
   inl "No valid melt curve data found in file") /\
  (forall s0, samples !! 0%nat = Some s0 ->
   exists parsed,
     parseMeltCurveResult trim parseFloatString meltText = inr parsed /\
     EDSParser.formatForHRMAnalyzer samples = Some parsed /\
     tempHeader parsed = "Temperature" /\
     head (headers parsed) = Some "Temperature" /\
     length (headers parsed) = S (length samples) /\
     sampleCount parsed = length samples /\
     length (data parsed) = length (EDSParser.temperatures s0) /\
     data parsed <> []).
Proof.
  intros samples. unfold parseMeltCurveResult. fold samples. split.
  - intros ->. reflexivity.
  - intros s0 H0.
    destruct (formatForHRMAnalyzer_shape samples s0 H0)
      as (parsed & Hf & _ & Ht & _ & Hl & Hh & Hc & Hd).
    exists parsed. rewrite Hf.
    rewrite decide_False by (destruct samples; [done|simpl; lia]).
    repeat split; try done.
    intros Hnil. rewrite Hnil in Hd. simpl in Hd.
    pose proof (parseSamples_ok meltText) as Hok. fold samples in Hok.
    destruct (Forall_lookup_1 _ _ _ _ Hok H0) as [Hne _].
    destruct (EDSParser.temperatures s0); [done|discriminate].
Qed.

End ParserProperties.

(** ** From the archive to the samples *)

Lemma filter_length_prefix {A} (P : A -> Prop) `{!forall x, Decision (P x)}
    (l : list A) (m : nat) :
  (forall i x, l !! i = Some x -> (P x <-> (i < m)%nat)) ->
  length (filter P l) = Nat.min m (length l).
Proof.
  induction l as [|x l IH] using rev_ind; intros HP; [simpl; lia|].
  rewrite filter_app, !length_app. simpl length.
  rewrite IH.
  2:{ intros i y Hi. apply HP. by rewrite lookup_app_l by (by apply lookup_lt_Some in Hi). }
  pose proof (HP (length l) x (list_lookup_middle _ _ _ _ eq_refl)) as Hx.
  rewrite filter_cons, filter_nil.
  destruct (decide (P x)) as [Hp|Hp]; simpl.
  - apply Hx in Hp. lia.
  - assert (Hnlt : ~ (length l < m)%nat) by (intros Hlt; by apply Hp, Hx). lia.
Qed.

Lemma filter_all {A} (P : A -> Prop) `{!forall x, Decision (P x)} (l : list A) :
  (forall x, x ∈ l -> P x) -> filter P l = l.
Proof.
  induction l as [|x l IH]; intros HP; [done|].
  rewrite filter_cons, decide_True by (apply HP; by left).
  f_equal. apply IH. intros y Hy. apply HP. by right.
Qed.

Lemma rnCell_present (s : EDSParser.ParsedSample) (i : nat) :
  NaN_free (EDSParser.rnValues s) ->
  isNaN (parseFloat (Some (rnCell s i))) = false <->
  (i < length (EDSParser.rnValues s))%nat.
Proof.
  intros Hfree. unfold rnCell.
  destruct (EDSParser.rnValues s !! i) as [v|] eqn:Hv; simpl.
  - split; [intros _; by apply lookup_lt_Some in Hv|]. intros _.
    by apply (Forall_lookup_1 _ _ _ _ Hfree Hv).
  - split; [done|]. intros Hlt. apply lookup_ge_None in Hv. lia.
Qed.

Lemma formatForHRMAnalyzer_extraction (l : list EDSParser.ParsedSample)
    (s0 : EDSParser.ParsedSample) :
  l !! 0%nat = Some s0 ->
  NaN_free (EDSParser.temperatures s0) ->
  NoDup (EDSParser.buildHeaders l) ->
  exists parsed,
    EDSParser.formatForHRMAnalyzer l = Some parsed /\
    validRows parsed = data parsed /\
    map (fun row : Row => parseFloat (row !! tempHeader parsed)) (validRows parsed)
      = EDSParser.temperatures s0 /\
    forall k s, l !! k = Some s -> NaN_free (EDSParser.rnValues s) ->
      exists h, headers parsed !! S k = Some h /\
        present (validRows parsed) h =
          Nat.min (length (EDSParser.rnValues s))
                  (length (EDSParser.temperatures s0)) /\
        (accepted parsed h <->
         (length (EDSParser.temperatures s0)
          < 2 * Nat.min (length (EDSParser.rnValues s))
                        (length (EDSParser.temperatures s0)))%nat).
Proof.
  intros H0 Hfree Hnd.
  destruct (formatForHRMAnalyzer_rows l s0 H0 Hnd)
    as (parsed & Hf & Hh & Hlen & Hrows).
  assert (Htemp : tempHeader parsed = "Temperature").
  { unfold EDSParser.formatForHRMAnalyzer in Hf. rewrite H0 in Hf.
    by injection Hf as <-. }
  exists parsed. split; [done|].
  assert (Hvalid : validRows parsed = data parsed).
  { unfold validRows. apply filter_all. intros row Hrow.
    apply list_elem_of_lookup in Hrow as [i Hi].
    destruct (Hrows i row Hi) as (Ht & _). rewrite Htemp, Ht. simpl.
    apply get_NaN_free; [done|]. rewrite <- Hlen. by apply lookup_lt_Some in Hi. }
  split; [done|]. rewrite Hvalid. split.
  { apply list_eq. intros i. rewrite list_lookup_fmap.
    destruct (data parsed !! i) as [row|] eqn:Hi; simpl.
    - destruct (Hrows i row Hi) as (Ht & _). rewrite Htemp, Ht. simpl.
      unfold get.
      destruct (lookup_lt_is_Some_2 (EDSParser.temperatures s0) i) as [t Hti].
      { rewrite <- Hlen. by apply lookup_lt_Some in Hi. }
      by rewrite Hti.
    - symmetry. apply lookup_ge_None. rewrite <- Hlen. by apply lookup_ge_None. }
  intros k s Hk Hrn.
  assert (Hhk : exists h, headers parsed !! S k = Some h).
  { apply lookup_lt_is_Some_2. rewrite Hh.
    destruct (buildHeaders_spec l) as (names & -> & Hnl & _). simpl.
    apply lookup_lt_Some in Hk. lia. }
  destruct Hhk as [h Hhk]. exists h. split; [done|].
  assert (Hpres : present (data parsed) h =
                  Nat.min (length (EDSParser.rnValues s))
                          (length (EDSParser.temperatures s0))).
  { unfold present. rewrite <- Hlen. apply filter_length_prefix.
    intros i row Hi. destruct (Hrows i row Hi) as (_ & Hcells & _).
    destruct (Hcells k s Hk) as (h' & Hh' & Hcell).
    rewrite Hhk in Hh'. injection Hh' as <-. rewrite Hcell.
    by apply rnCell_present. }
  split; [done|].
  assert (Hne : h <> tempHeader parsed).
  { rewrite Htemp. intros ->. rewrite Hh in Hhk.
    destruct (buildHeaders_spec l) as (names & Hb & _). rewrite Hb in Hhk, Hnd.
    apply NoDup_cons in Hnd as [Hnotin _]. apply Hnotin.
    change (names !! k = Some "Temperature") in Hhk.
    by apply list_elem_of_lookup_2 in Hhk. }
  unfold accepted. rewrite Hvalid, Hpres, <- Hlen.
  destruct (decide (length (data parsed) = 0%nat)) as [Hz|Hz].
  - rewrite Hz. split; [|lia]. intros [_ Hq]. exfalso.
    unfold fraction, Qlt, Qdiv, Qmult, Qinv, inject_Z in Hq. simpl in Hq.
    rewrite Nat.min_0_r in Hq. simpl in Hq. lia.
  - rewrite fraction_gt_half by lia. rewrite Hlen. 
    split; [by intros [_ ?]|by intros ?].
Qed.



Section ArchiveLoad.

Variable trim : string -> string.
Variable parseFloatString : string -> jsnum.

(** X22.  Loading a parsed archive whose header names are pairwise distinct
    never fails for want of temperatures: every row of the table is kept,
    there is at least one, and if the load replaces the processed data
    their temperatures are those of the first record of the archive. *)
Theorem archive_load (meltText : string) (parsed : RawData)
    (dp : DataProcessor) :
  parseMeltCurveResult trim parseFloatString meltText = inr parsed ->
  NoDup (headers parsed) ->
  validRows parsed = data parsed /\
  data parsed <> [] /\
  Forall (fun e => e <> Toast "Error" "No valid temperature data found" "error")
         (setData dp parsed).2 /\
  (filter (accepted parsed) (headers parsed) <> [] ->
   exists pd s0,
     processedData (setData dp parsed).1 = Some pd /\
     parseSamples trim parseFloatString meltText !! 0%nat = Some s0 /\
     temperatures pd = EDSParser.temperatures s0).
Proof.
  intros Hparse Hnd. unfold parseMeltCurveResult in Hparse.
  set (samples := parseSamples trim parseFloatString meltText) in *.
  destruct (decide (length samples = 0%nat)) as [|Hlen]; [done|].
  destruct (EDSParser.formatForHRMAnalyzer samples) as [p|] eqn:Hf; [|done].
  injection Hparse as ->.
  destruct (samples !! 0%nat) as [s0|] eqn:H0;
    [|apply lookup_ge_None in H0; lia].
  pose proof (parseSamples_ok trim parseFloatString meltText) as Hok.
  fold samples in Hok.
  destruct (Forall_lookup_1 _ _ _ _ Hok H0) as (Hne & Hclean & _).
  assert (Hheaders : headers parsed = EDSParser.buildHeaders samples).
  { unfold EDSParser.formatForHRMAnalyzer in Hf. rewrite H0 in Hf.
    by injection Hf as <-. }
  rewrite Hheaders in Hnd.
  destruct (formatForHRMAnalyzer_extraction samples s0 H0 Hclean Hnd)
    as (parsed' & Hf' & Hvalid & Htemps & _).
  rewrite Hf in Hf'. injection Hf' as <-.
  assert (Hdata : data parsed <> []).
  { intros Hnil. rewrite Hvalid, Hnil in Htemps. simpl in Htemps.
    by rewrite <- Htemps in Hne. }
  split; [done|]. split; [done|].
  assert (Hrows : validRows parsed <> []) by (by rewrite Hvalid).
  unfold setData.
  set (dp0 := mkDataProcessor (Some parsed) (processedData dp) (settings dp)).
  rewrite (extractSamples_run dp0 parsed eq_refl Hrows).
  destruct (filter (accepted parsed) (headers parsed)) as [|h kept] eqn:Hk.
  - cbn [map length]. rewrite decide_True by done. cbn [fst snd].
    split; [|done]. apply Forall_app. split.
    + apply Forall_fmap, Forall_true. done.
    + by repeat constructor.
  - rewrite decide_False by (simpl; lia). cbn [fst snd processedData].
    split.
    + apply Forall_fmap, Forall_true. done.
    + intros _. eexists _, s0. split; [reflexivity|]. split; [done|].
      exact Htemps.
Qed.

End ArchiveLoad.

Lemma archive_load_witness :
  exists parsed,
    parseMeltCurveResult id readDigits archive_text = inr parsed /\
    validRows parsed = data parsed.
Proof.
  destruct (parseMeltCurveResult id readDigits archive_text) as [m|parsed] eqn:Hp;
    [by vm_compute in Hp|].
  exists parsed. split; [reflexivity|].
  assert (Hnd : NoDup (headers parsed)).
  { vm_compute in Hp. injection Hp as <-. by_evaluation. }
  apply (archive_load id readDigits archive_text parsed new_DataProcessor Hp Hnd).
Defined.


(** ** Line endings *)

Lemma no_line_terminator_no_char (s : string) :
  no_line_terminator s = true -> no_char lf s = true /\ no_char cr s = true.
Proof.
  induction s as [|c s IH]; [done|]. simpl.
  intros [Hc Hs]%andb_prop. destruct (IH Hs) as [H1 H2].
  apply bool_decide_eq_true in Hc as [Hlf Hcr].
  rewrite H1, H2, !bool_decide_eq_true_2 by done. done.
Qed.

Lemma replace_crlf_no_cr (s : string) : no_char cr s = true -> replace_crlf s = s.
Proof.
  induction s as [|c s IH]; [done|]. simpl no_char.
  intros [Hc Hs]%andb_prop. apply bool_decide_eq_true in Hc.
  cbn [replace_crlf]. destruct s as [|c' s'] eqn:Hs'; [done|].
  rewrite decide_False by (by intros [? _]). by rewrite IH.
Qed.

Lemma replace_crlf_no_lf (s : string) : no_char lf s = true -> replace_crlf s = s.
Proof.
  induction s as [|c s IH]; [done|]. simpl no_char.
  intros [Hc Hs]%andb_prop.
  cbn [replace_crlf]. destruct s as [|c' s'] eqn:Hs'; [done|].
  assert (Hc' : c' <> lf).
  { simpl in Hs. apply andb_prop in Hs as [Hc' _].
    by apply bool_decide_eq_true in Hc'. }
  rewrite decide_False by (by intros [_ ?]). by rewrite IH.
Qed.

Lemma replace_crlf_app (x r : string) :
  no_char cr x = true -> replace_crlf (x +:+ r) = x +:+ replace_crlf r.
Proof.
  induction x as [|c x IH]; [done|]. simpl no_char.
  intros [Hc Hx]%andb_prop. apply bool_decide_eq_true in Hc.
  change (String c x +:+ r) with (String c (x +:+ r)).
  change (String c x +:+ replace_crlf r) with (String c (x +:+ replace_crlf r)).
  cbn [replace_crlf]. specialize (IH Hx).
  destruct (x +:+ r) as [|c' s'] eqn:Hxr.
  - by rewrite <- IH.
  - rewrite decide_False by (by intros [? _]). by rewrite IH.
Qed.

Lemma replace_cr_no_cr (s : string) : no_char cr s = true -> replace_cr s = s.
Proof.
  induction s as [|c s IH]; [done|]. simpl.
  intros [Hc Hs]%andb_prop. apply bool_decide_eq_true in Hc.
  by rewrite decide_False, IH.
Qed.

Lemma replace_cr_app (x r : string) :
  replace_cr (x +:+ r) = replace_cr x +:+ replace_cr r.
Proof. induction x as [|c x IH]; [done|]. simpl. by rewrite IH. Qed.

Lemma no_char_app (c0 : Ascii.ascii) (x r : string) :
  no_char c0 (x +:+ r) = no_char c0 x && no_char c0 r.
Proof. induction x as [|c x IH]; [done|]. simpl. by rewrite IH, andb_assoc. Qed.

Lemma no_char_concat (c0 : Ascii.ascii) (sep : string) (lines : list string) :
  no_char c0 sep = true ->
  Forall (fun l => no_char c0 l = true) lines ->
  no_char c0 (String.concat sep lines) = true.
Proof.
  intros Hsep Hall. induction Hall as [|x l Hx Hl IH]; [done|].
  destruct l as [|y l]; [done|].
  change (String.concat sep (x :: y :: l))
    with (x +:+ sep +:+ String.concat sep (y :: l)).
  by rewrite !no_char_app, Hx, Hsep, IH.
Qed.

Lemma split_no_sep (sep : Ascii.ascii) (x : string) :
  no_char sep x = true -> split sep x = [x].
Proof.
  induction x as [|c x IH]; [done|]. simpl.
  intros [Hc Hx]%andb_prop. apply bool_decide_eq_true in Hc.
  by rewrite decide_False, IH.
Qed.

Lemma split_app_sep (sep : Ascii.ascii) (x r : string) :
  no_char sep x = true ->
  split sep (x +:+ String sep r) = x :: split sep r.
Proof.
  induction x as [|c x IH].
  - intros _. simpl. by rewrite decide_True.
  - simpl no_char. intros [Hc Hx]%andb_prop. apply bool_decide_eq_true in Hc.
    change (String c x +:+ String sep r) with (String c (x +:+ String sep r)).
    cbn [split]. by rewrite decide_False, IH.
Qed.

Lemma split_concat (sep : Ascii.ascii) (lines : list string) :
  lines <> [] ->
  Forall (fun l => no_char sep l = true) lines ->
  split sep (String.concat (String sep EmptyString) lines) = lines.
Proof.
  intros Hne Hall. induction Hall as [|x l Hx Hl IH]; [done|].
  destruct l as [|y l]; [by apply split_no_sep|].
  change (String.concat (String sep EmptyString) (x :: y :: l))
    with (x +:+ String sep (String.concat (String sep EmptyString) (y :: l))).
  rewrite split_app_sep by done. f_equal. by apply IH.
Qed.

Lemma replace_crlf_concat (lines : list string) :
  Forall (fun l => no_char cr l = true) lines ->
  replace_crlf (String.concat sep_crlf lines) = String.concat sep_lf lines.
Proof.
  intros Hall. induction Hall as [|x l Hx Hl IH]; [done|].
  destruct l as [|y l]; [by apply replace_crlf_no_cr|].
  change (String.concat sep_crlf (x :: y :: l))
    with (x +:+ String cr (String lf (String.concat sep_crlf (y :: l)))).
  rewrite replace_crlf_app by done.
  remember (String.concat sep_crlf (y :: l)) as rest.
  cbn [replace_crlf]. rewrite decide_True by done. by rewrite IH.
Qed.

Lemma replace_cr_concat (lines : list string) :
  Forall (fun l => no_char cr l = true) lines ->
  replace_cr (String.concat sep_cr lines) = String.concat sep_lf lines.
Proof.
  intros Hall. induction Hall as [|x l Hx Hl IH]; [done|].
  destruct l as [|y l]; [by apply replace_cr_no_cr|].
  change (String.concat sep_cr (x :: y :: l))
    with (x +:+ String cr (String.concat sep_cr (y :: l))).
  rewrite replace_cr_app, replace_cr_no_cr by done.
  remember (String.concat sep_cr (y :: l)) as rest.
  cbn [replace_cr]. rewrite decide_True by done. by rewrite IH.
Qed.

(** X23.  Lines without line terminators are recovered from their text whether
    they are joined by line feeds, by carriage returns, or by carriage
    return and line feed pairs. *)
Theorem textLines_line_endings (lines : list string) :
  lines <> [] ->
  Forall (fun l => no_line_terminator l = true) lines ->
  textLines (String.concat sep_lf lines) = lines /\
  textLines (String.concat sep_cr lines) = lines /\
  textLines (String.concat sep_crlf lines) = lines.
Proof.
  intros Hne Hall.
  assert (Hlf : Forall (fun l => no_char lf l = true) lines).
  { eapply Forall_impl; [exact Hall|]. intros l Hl.
    by apply no_line_terminator_no_char in Hl as [? _]. }
  assert (Hcr : Forall (fun l => no_char cr l = true) lines).
  { eapply Forall_impl; [exact Hall|]. intros l Hl.
    by apply no_line_terminator_no_char in Hl as [_ ?]. }
  assert (Hsplit : split lf (String.concat sep_lf lines) = lines)
    by (by apply split_concat).
  unfold textLines. split; [|split].
  - rewrite replace_crlf_no_cr by (by apply no_char_concat).
    rewrite replace_cr_no_cr by (by apply no_char_concat). done.
  - rewrite replace_crlf_no_lf by (by apply no_char_concat).
    by rewrite replace_cr_concat.
  - rewrite replace_crlf_concat by done.
    rewrite replace_cr_no_cr by (by apply no_char_concat). done.
Qed.

Lemma textLines_line_endings_witness :
  textLines (String.concat sep_crlf ["Well"; ""; "0"]) = ["Well"; ""; "0"].
Proof.
  apply (textLines_line_endings ["Well"; ""; "0"]); [done|].
  by repeat constructor.
Defined.

(** * Delimited files and file names *)

Section CsvLoad.

Variable Object_keys : Row -> list string.

Lemma validateCSVData_inr (data : list Row) (hs : list string) (th : string) :
  validateCSVData Object_keys data = inr (hs, th) ->
  exists row0 rest,
    data = row0 :: rest /\ hs = Object_keys row0 /\
    (2 <= length hs)%nat /\ hs !! 0%nat = Some th /\
    isNaN (parseFloat (row0 !! th)) = false.
Proof.
  unfold validateCSVData. destruct data as [|row0 rest]; [done|].
  destruct (decide _) as [|Hlen]; [done|].
  destruct (Object_keys row0) as [|h0 hs'] eqn:Hk; [simpl in Hlen; lia|].
  cbn [lookup list_lookup default]. unfold id.
  destruct (isNaN (parseFloat (row0 !! h0))) eqn:Hnan; [done|].
  intros [= <- <-]. exists row0, rest. rewrite Hk.
  repeat split; try done. simpl in *; lia.
Qed.

(** X24.  A delimited file is accepted exactly when it has a first row, that
    row has at least two columns and its first cell reads as a number; the
    other rows are not looked at.  The reading that is stored then has the
    columns of the first row as headers, the first of them as temperature
    header, and one sample less than it has headers.  Loading it never
    fails for want of temperatures: the first row is a valid row, so
    [setData] does not raise "No valid temperature data found", whatever
    the rows below it hold. *)
Theorem csv_load (dp : DataProcessor) (fileName : string) (results : list Row)
    (raw : RawData) :
  parseCSVFile_complete Object_keys fileName results = inr raw ->
  exists row0 rest,
    results = row0 :: rest /\
    filename raw = fileName /\
    headers raw = Object_keys row0 /\
    head (headers raw) = Some (tempHeader raw) /\
    data raw = results /\
    (S (sampleCount raw) = length (headers raw)) /\
    head (validRows raw) = Some row0 /\
    Toast "Error" "No valid temperature data found" "error"
       ∉ (setData dp raw).2.
Proof.
  unfold parseCSVFile_complete.
  destruct (validateCSVData Object_keys results) as [e|[hs th]] eqn:Hv; [done|].
  intros [= <-].
  destruct (validateCSVData_inr _ _ _ Hv) as (row0 & rest & -> & -> & Hlen & H0 & Hnan).
  exists row0, rest. cbn [filename headers tempHeader data sampleCount].
  assert (Hrows : validRows
            (mkRawData fileName (Object_keys row0) th (row0 :: rest)
                       (length (Object_keys row0) - 1))
          = row0 :: filter (fun row : Row => isNaN (parseFloat (row !! th)) = false) rest).
  { unfold validRows. cbn [data tempHeader].
    rewrite filter_cons. by rewrite decide_True. }
  repeat split; try done.
  - by rewrite <- head_lookup in H0.
  - lia.
  - by rewrite Hrows.
  - unfold setData.
    match goal with |- context [extractSamples ?d] => set (dp0 := d) end.
    rewrite (extractSamples_run dp0 _ eq_refl) by (by rewrite Hrows).
    destruct (decide _); cbn [snd].
    + intros [Hin|Hin]%elem_of_app.
      * apply list_elem_of_fmap in Hin as (h & Hh & _). done.
      * apply list_elem_of_singleton in Hin. done.
    + intros Hin. apply list_elem_of_fmap in Hin as (h & Hh & _). done.
Qed.

End CsvLoad.

Lemma csv_load_witness :
  Toast "Error" "No valid temperature data found" "error"
    ∉ (setData new_DataProcessor
         (mkRawData "run.csv" ["Temperature"; "A"; "B"] "Temperature"
            [ {[ "Temperature" := CNum (of_Z 70); "A" := CNum (of_Z 5);
                 "B" := CNull ]} ] 2)).2.
Proof.
  destruct (csv_load keys_TAB new_DataProcessor "run.csv"
              [ {[ "Temperature" := CNum (of_Z 70); "A" := CNum (of_Z 5);
                   "B" := CNull ]} ]
              (mkRawData "run.csv" ["Temperature"; "A"; "B"] "Temperature"
                 [ {[ "Temperature" := CNum (of_Z 70); "A" := CNum (of_Z 5);
                      "B" := CNull ]} ] 2))
    as (row0 & rest & _ & _ & _ & _ & _ & _ & _ & H).
  - vm_compute. reflexivity.
  - exact H.
Defined.

(** ** File names *)

Lemma lastIndexOf_loop_no_char (c0 : Ascii.ascii) (i found : Z) (s : string) :
  no_char c0 s = true -> lastIndexOf_loop c0 i found s = found.
Proof.
  revert i found. induction s as [|c s IH]; [done|]. intros i found.
  simpl. intros [Hc Hs]%andb_prop. apply bool_decide_eq_true in Hc.
  rewrite decide_False by done. by apply IH.
Qed.

Lemma lastIndexOf_loop_last (c0 : Ascii.ascii) (i found : Z) (a b : string) :
  no_char c0 b = true ->
  lastIndexOf_loop c0 i found (a +:+ String c0 b)
  = (i + Z.of_nat (String.length a))%Z.
Proof.
  intros Hb. revert i found. induction a as [|c a IH]; intros i found.
  - simpl. rewrite decide_True by done.
    rewrite lastIndexOf_loop_no_char by done. lia.
  - change (String c a +:+ String c0 b) with (String c (a +:+ String c0 b)).
    cbn [lastIndexOf_loop String.length]. rewrite IH. lia.
Qed.

Lemma slice_from_past (start : Z) (s : string) :
  (Z.of_nat (String.length s) < start)%Z -> slice_from start s = EmptyString.
Proof.
  revert start. induction s as [|c s IH]; [done|]. intros start Hlen.
  cbn [slice_from String.length] in *.
  destruct (Z.leb_spec start 0); [lia|]. apply IH. lia.
Qed.

Lemma slice_from_app (a b : string) :
  slice_from (Z.of_nat (String.length a)) (a +:+ b) = b.
Proof.
  induction a as [|c a IH].
  - simpl. by destruct b.
  - change (String c a +:+ b) with (String c (a +:+ b)).
    cbn [slice_from String.length].
    destruct (Z.leb_spec (Z.of_nat (S (String.length a))) 0); [lia|].
    replace (Z.of_nat (S (String.length a)) - 1)%Z
      with (Z.of_nat (String.length a)) by lia.
    exact IH.
Qed.

Lemma length_app_string (a b : string) :
  String.length (a +:+ b) = (String.length a + String.length b)%nat.
Proof. induction a as [|c a IH]; [done|]. simpl. by rewrite <- IH. Qed.

Section FileNames.

Variable toLowerCase : string -> string.

Lemma getFileExtension_no_dot (ext : string) :
  no_char dot ext = true ->
  (Z.of_nat (String.length ext) < 2 ^ 32)%Z ->
  getFileExtension toLowerCase ext = toLowerCase EmptyString.
Proof.
  intros Hext Hlen. unfold getFileExtension, lastIndexOf.
  rewrite lastIndexOf_loop_no_char by done.
  change (toUint32 (-1 - 1)) with (2 ^ 32 - 2)%Z.
  rewrite slice_from_past; [done|lia].
Qed.

Lemma getFileExtension_leading_dot (ext : string) :
  no_char dot ext = true ->
  (Z.of_nat (String.length ext) < 2 ^ 32)%Z ->
  getFileExtension toLowerCase (String dot ext) = toLowerCase EmptyString.
Proof.
  intros Hext Hlen. unfold getFileExtension, lastIndexOf.
  change (String dot ext) with (EmptyString +:+ String dot ext) at 1.
  rewrite (lastIndexOf_loop_last dot 0 (-1) EmptyString ext Hext).
  change (toUint32 (0 + Z.of_nat (String.length EmptyString) - 1))
    with (2 ^ 32 - 1)%Z.
  rewrite slice_from_past; [done|]. cbn [String.length]. lia.
Qed.

Lemma getFileExtension_stem (stem ext : string) :
  no_char dot ext = true ->
  stem <> EmptyString ->
  (Z.of_nat (String.length stem) <= 2 ^ 32)%Z ->
  getFileExtension toLowerCase (stem +:+ String dot ext) = toLowerCase ext.
Proof.
  intros Hext Hstem Hlen. unfold getFileExtension, lastIndexOf.
  rewrite lastIndexOf_loop_last by done.
  assert (0 < String.length stem)%nat by (destruct stem; [done|simpl; lia]).
  unfold toUint32. rewrite Z.mod_small by lia.
  replace (0 + Z.of_nat (String.length stem) - 1 + 2)%Z
    with (Z.of_nat (String.length (stem +:+ String dot EmptyString))).
  2:{ rewrite length_app_string. simpl. lia. }
  replace (stem +:+ String dot ext)
    with ((stem +:+ String dot EmptyString) +:+ ext).
  2:{ clear. induction stem as [|c s IH]; [done|].
      change (String c ((s +:+ String dot EmptyString) +:+ ext)
              = String c (s +:+ String dot ext)).
      by f_equal. }
  by rewrite slice_from_app.
Qed.

(** X25.  The extension of a file name is the lower-cased text after its last
    dot, provided that dot is not the first character: a name without a
    dot and a name whose only dot comes first (such as [.csv]) have the
    extension of the empty string.  (Names are shorter than 2^32
    characters.) *)
Theorem getFileExtension_spec (stem ext : string) :
  no_char dot ext = true ->
  (Z.of_nat (String.length stem + String.length ext) < 2 ^ 32)%Z ->
  getFileExtension toLowerCase ext = toLowerCase EmptyString /\
  getFileExtension toLowerCase (String dot ext) = toLowerCase EmptyString /\
  (stem <> EmptyString ->
   getFileExtension toLowerCase (stem +:+ String dot ext) = toLowerCase ext).
Proof.
  intros Hext Hlen. split; [|split].
  - apply getFileExtension_no_dot; [done|lia].
  - apply getFileExtension_leading_dot; [done|lia].
  - intros Hstem. apply getFileExtension_stem; [done|done|lia].
Qed.

Lemma filter_first {A} (P : A -> Prop) `{!forall x, Decision (P x)}
    (l : list A) (x : A) (l' : list A) :
  filter P l = x :: l' ->
  exists before after,
    l = before ++ x :: after /\ Forall (fun y => ~ P y) before /\ P x /\
    l' = filter P after.
Proof.
  induction l as [|y l IH]; [done|].
  rewrite filter_cons. destruct (decide (P y)) as [Hy|Hy].
  - intros [= -> <-]. exists [], l. by repeat split.
  - intros (before & after & -> & Hb & Hx & Hl')%IH.
    exists (y :: before), after. repeat split; try done. by constructor.
Qed.

Lemma handleFiles_unfold (names : list string) :
  handleFiles toLowerCase names =
  if decide (length names = 0%nat) then NoFiles
  else
    match filter (validName toLowerCase) names with
    | [] => InvalidFiles
    | file :: rest =>
        if decide (getFileExtension toLowerCase file = "eds")
        then ParseEDS file
               (length names - length (filter (validName toLowerCase) names))
        else ParseCSV file
               (length names - length (filter (validName toLowerCase) names))
    end.
Proof. reflexivity. Qed.

(** X26.  [handleFiles] parses at most one file: the first one, in the order
    given, whose extension is csv, tsv, txt or eds; every file before it
    has another extension, the files after it are ignored, and the number
    of skipped files it reports is the number of files with another
    extension.  The archive parser is used exactly when the extension is
    eds.  Nothing is parsed exactly when no file has one of the four
    extensions. *)
Theorem handleFiles_first_valid (names : list string) :
  match handleFiles toLowerCase names with
  | NoFiles => names = []
  | InvalidFiles =>
      names <> [] /\ Forall (fun n => ~ validName toLowerCase n) names
  | ParseEDS file skipped =>
      getFileExtension toLowerCase file = "eds" /\
      exists before after,
        names = before ++ file :: after /\
        Forall (fun n => ~ validName toLowerCase n) before /\
        skipped = length (filter (fun n => ~ validName toLowerCase n) names)
  | ParseCSV file skipped =>
      getFileExtension toLowerCase file ∈ ["csv"; "tsv"; "txt"] /\
      exists before after,
        names = before ++ file :: after /\
        Forall (fun n => ~ validName toLowerCase n) before /\
        skipped = length (filter (fun n => ~ validName toLowerCase n) names)
  end.
Proof.
  rewrite handleFiles_unfold.
  destruct (decide (length names = 0%nat)) as [Hn|Hn].
  { by destruct names. }
  assert (Hskip : (length names - length (filter (validName toLowerCase) names))%nat
            = length (filter (fun n => ~ validName toLowerCase n) names)).
  { clear.
    induction names as [|n names IH]; [done|].
    rewrite !filter_cons.
    destruct (decide (validName toLowerCase n)) as [Hv|Hv].
    - rewrite decide_False by tauto. simpl. exact IH.
    - rewrite decide_True by done. cbn [length]. rewrite <- IH.
      pose proof (length_filter (validName toLowerCase) names). lia. }
  rewrite Hskip. clear Hskip.
  destruct (filter (validName toLowerCase) names) as [|file rest] eqn:Hf.
  - split; [by destruct names|].
    apply Forall_forall. intros n Hin Hv.
    assert (n ∈ filter (validName toLowerCase) names)
      by (by apply list_elem_of_filter).
    rewrite Hf in H. by apply elem_of_nil in H.
  - destruct (filter_first _ _ _ _ Hf) as (before & after & Hnames & Hb & Hfile & _).
    destruct (decide (getFileExtension toLowerCase file = "eds")) as [He|He].
    + split; [done|]. exists before, after. by repeat split.
    + split.
      * unfold validName, validExtensions in Hfile.
        rewrite !elem_of_cons in Hfile. rewrite !elem_of_cons.
        destruct Hfile as [?|[?|[?|[?|?]]]]; tauto.
      * exists before, after. by repeat split.
Qed.

End FileNames.

Lemma getFileExtension_spec_witness :
  getFileExtension lower "melt.run2.CSV" = "csv".
Proof.
  apply (getFileExtension_spec lower "melt.run2" "CSV"); [done|done|done].
Defined.

(** * Colours and charts *)

Lemma baseColors_NoDup : NoDup baseColors.
Proof. by_evaluation. Qed.

Lemma generateColors_lookup (count i : nat) :
  (i < count)%nat -> generateColors count !! i = Some (baseColor i).
Proof.
  intros Hi. unfold generateColors. rewrite list_lookup_fmap.
  by rewrite lookup_seq_lt.
Qed.

(** X27.  The palette has one colour per sample, and two samples get the same
    colour exactly when their indices differ by a multiple of eight: up to
    eight samples are told apart by colour, a ninth repeats the first. *)
Theorem generateColors_period (count i j : nat) :
  (i < count)%nat -> (j < count)%nat ->
  length (generateColors count) = count /\
  (generateColors count !! i = generateColors count !! j <->
   (i mod 8 = j mod 8)%nat).
Proof.
  intros Hi Hj. split.
  { unfold generateColors. by rewrite length_map, length_seq. }
  rewrite !generateColors_lookup by done. unfold baseColor.
  change (length baseColors) with 8%nat.
  assert (Hlt : forall k, (k mod 8 < length baseColors)%nat).
  { intros k. change (length baseColors) with 8%nat. apply Nat.mod_upper_bound. lia. }
  destruct (lookup_lt_is_Some_2 baseColors _ (Hlt i)) as [ci Hci].
  destruct (lookup_lt_is_Some_2 baseColors _ (Hlt j)) as [cj Hcj].
  rewrite Hci, Hcj. cbn [default from_option]. unfold id. split.
  - intros [= ->]. exact (NoDup_lookup _ _ _ _ baseColors_NoDup Hci Hcj).
  - intros Heq. rewrite Heq in Hci. congruence.
Qed.

Lemma generateColors_period_witness :
  generateColors 9 !! 0%nat = generateColors 9 !! 8%nat.
Proof.
  apply (generateColors_period 9 0 8); [lia|lia|reflexivity].
Defined.

Lemma filter_none {A} (f : Sample -> option A) (l : list Sample) :
  Forall (fun s => f s = None) l -> filter (fun s => is_Some (f s)) l = [].
Proof.
  induction 1 as [|s l Hs Hl IH]; [done|].
  rewrite filter_cons, decide_False; [done|]. rewrite Hs. by intros [? ?].
Qed.

Lemma filter_all_Some {A} (f : Sample -> option A) (l : list Sample) :
  Forall (fun s => is_Some (f s)) l -> filter (fun s => is_Some (f s)) l = l.
Proof.
  induction 1 as [|s l Hs Hl IH]; [done|].
  by rewrite filter_cons, decide_True, IH.
Qed.

Lemma numeric_fields_lookup (l1 l2 : list Sample) (i : nat) (s2 : Sample) :
  map numeric_fields l2 = map numeric_fields l1 ->
  l2 !! i = Some s2 ->
  exists s1, l1 !! i = Some s1 /\ numeric_fields s1 = numeric_fields s2.
Proof.
  intros Heq H2.
  assert (H : map numeric_fields l1 !! i = Some (numeric_fields s2)).
  { rewrite <- Heq, list_lookup_fmap, H2. done. }
  rewrite list_lookup_fmap in H.
  destruct (l1 !! i) as [s1|]; [|done]. simpl in H.
  exists s1. split; [done|]. congruence.
Qed.

Lemma Forall_numeric {A} (f : Sample -> option A) (Q : option A -> Prop)
    (l1 l2 : list Sample) :
  (forall s s', numeric_fields s = numeric_fields s' -> f s = f s') ->
  map numeric_fields l2 = map numeric_fields l1 ->
  Forall (fun s => Q (f s)) l1 -> Forall (fun s => Q (f s)) l2.
Proof.
  intros Hf Heq H. apply Forall_lookup. intros i s2 H2.
  destruct (numeric_fields_lookup l1 l2 i s2 Heq H2) as (s1 & H1 & Hs).
  rewrite <- (Hf s1 s2 Hs). exact (Forall_lookup_1 _ _ _ _ H H1).
Qed.

Lemma filter_numeric {A} (f : Sample -> option A) (l1 l2 : list Sample) :
  (forall s s', numeric_fields s = numeric_fields s' -> f s = f s') ->
  map numeric_fields l2 = map numeric_fields l1 ->
  all_or_none f l1 ->
  (filter (fun s => is_Some (f s)) l1 = [] /\
   filter (fun s => is_Some (f s)) l2 = []) \/
  (filter (fun s => is_Some (f s)) l1 = l1 /\
   filter (fun s => is_Some (f s)) l2 = l2).
Proof.
  intros Hf Heq [N1|S1]; [left|right]; split.
  - by apply filter_none.
  - apply filter_none.
    exact (Forall_numeric f (fun o => o = None) l1 l2 Hf Heq N1).
  - by apply filter_all_Some.
  - apply filter_all_Some.
    exact (Forall_numeric f is_Some l1 l2 Hf Heq S1).
Qed.

Section Charts.

Variable hasCanvas : string -> bool.
Variable formatNumber : option jsnum -> Z -> string.

(** Updating the hidden flags of datasets built from [l1] with the
    samples [l2], which differ from [l1] in visibility only, gives the
    datasets built from [l2]. *)
Lemma update_datasets (colors : list string) (lab : Sample -> string)
    (dat : Sample -> list jsnum) (l1 l2 : list Sample) :
  (forall s s', numeric_fields s = numeric_fields s' ->
                lab s = lab s' /\ dat s = dat s') ->
  map numeric_fields l2 = map numeric_fields l1 ->
  imap (fun idx d =>
          match l2 !! idx with
          | Some sample => ChartManager.set_hidden (negb (visible sample)) d
          | None => d
          end)
       (imap (fun idx s => ChartManager.dataset colors (lab s) (dat s) idx s) l1)
  = imap (fun idx s => ChartManager.dataset colors (lab s) (dat s) idx s) l2.
Proof.
  intros Hf Heq. apply list_eq. intros i.
  rewrite !list_lookup_imap.
  destruct (l2 !! i) as [s2|] eqn:H2.
  - destruct (numeric_fields_lookup l1 l2 i s2 Heq H2) as (s1 & H1 & Hs).
    rewrite H1. cbn [fmap option_fmap option_map]. f_equal.
    destruct (Hf s1 s2 Hs) as [-> ->]. reflexivity.
  - assert (l1 !! i = None) as ->; [|done].
    apply lookup_ge_None. apply lookup_ge_None in H2.
    apply (f_equal length) in Heq. rewrite !length_map in Heq. lia.
Qed.

Lemma numeric_fields_proj (s s' : Sample) :
  numeric_fields s = numeric_fields s' ->
  name s = name s' /\ fluorescence s = fluorescence s' /\
  normalized s = normalized s' /\ derivative s = derivative s' /\
  tm s = tm s' /\ difference s = difference s'.
Proof. unfold numeric_fields. intros [= -> -> -> -> -> ->]. by repeat split. Qed.

(** X28.  Charts created from processed data and then updated with data that
    differ from them in the visibility flags only are exactly the charts
    that would be created afresh from the newer data: in every chart,
    dataset number [i] belongs to sample number [i] and is hidden exactly
    when that sample is not visible.  This needs that each computed curve
    is held by every sample or by none, since a chart is built from the
    samples that hold its curve and is updated by position. *)
Theorem charts_follow_visibility (cm : ChartManager.State)
    (pd1 pd2 : ProcessedData) :
  curves_uniform pd1 ->
  numeric_state pd2 = numeric_state pd1 ->
  ChartManager.updateCharts
    (ChartManager.createCharts hasCanvas formatNumber cm (Some pd1)) (Some pd2)
  = ChartManager.createCharts hasCanvas formatNumber cm (Some pd2).
Proof.
  intros (Un & Ud & Uf). unfold numeric_state. intros [= Ht _ Hs].
  assert (Hlen : length (samples pd2) = length (samples pd1)).
  { apply (f_equal length) in Hs. by rewrite !length_map in Hs. }
  unfold ChartManager.updateCharts, ChartManager.createCharts.
  cbn [ChartManager.charts ChartManager.colors ChartManager.raw
       ChartManager.normalized ChartManager.derivative ChartManager.difference].
  rewrite Hlen, Ht.
  set (colors := generateColors (length (samples pd1))).
  f_equal. f_equal.
  - unfold ChartManager.createRawChart. destruct (hasCanvas _); [|done].
    cbn [ChartManager.updateChart ChartManager.labels ChartManager.datasets].
    do 2 f_equal. unfold ChartManager.rawDatasets.
    apply (update_datasets colors name fluorescence); [|done].
    intros s s' H. apply numeric_fields_proj in H. tauto.
  - unfold ChartManager.createNormalizedChart. destruct (hasCanvas _); [|done].
    cbn [ChartManager.updateChart ChartManager.labels ChartManager.datasets].
    do 2 f_equal. unfold ChartManager.normalizedDatasets.
    destruct (filter_numeric normalized (samples pd1) (samples pd2))
      as [[-> ->]|[-> ->]]; try done.
    { intros s s' H. apply numeric_fields_proj in H. tauto. }
    apply (update_datasets colors name (fun s => default [] (normalized s)));
      [|done].
    intros s s' H. apply numeric_fields_proj in H as (-> & _ & -> & _). done.
  - unfold ChartManager.createDerivativeChart. destruct (hasCanvas _); [|done].
    cbn [ChartManager.updateChart ChartManager.labels ChartManager.datasets].
    do 2 f_equal. unfold ChartManager.derivativeDatasets.
    destruct (filter_numeric derivative (samples pd1) (samples pd2))
      as [[-> ->]|[-> ->]]; try done.
    { intros s s' H. apply numeric_fields_proj in H. tauto. }
    apply (update_datasets colors
             (fun s => name s +:+ " (Tm: " +:+ formatNumber (tm s) 1
                       +:+ String ChartManager.degree "C)")
             (fun s => default [] (derivative s))); [|done].
    intros s s' H. apply numeric_fields_proj in H as (-> & _ & _ & -> & -> & _).
    done.
  - unfold ChartManager.createDifferenceChart. destruct (hasCanvas _); [|done].
    unfold ChartManager.differenceDatasets.
    destruct (filter_numeric difference (samples pd1) (samples pd2))
      as [[-> ->]|[-> ->]]; try done.
    { intros s s' H. apply numeric_fields_proj in H. tauto. }
    rewrite !length_imap, Hlen.
    destruct (decide (length (samples pd1) = 0%nat)); [done|].
    cbn [ChartManager.updateChart ChartManager.labels ChartManager.datasets].
    do 2 f_equal.
    apply (update_datasets colors name (fun s => default [] (difference s)));
      [|done].
    intros s s' H. apply numeric_fields_proj in H as (-> & _ & _ & _ & _ & ->).
    done.
Qed.

End Charts.

Lemma charts_follow_visibility_witness :
  ChartManager.updateCharts
    (ChartManager.createCharts (fun _ => true) (fun _ _ => "60.0")
       ChartManager.new_ChartManager
       (Some (mkProcessedData [lit 60]
                [mkSample "A" [lit 1] true None None None None] None)))
    (Some (mkProcessedData [lit 60]
             [mkSample "A" [lit 1] false None None None None] None))
  = ChartManager.createCharts (fun _ => true) (fun _ _ => "60.0")
      ChartManager.new_ChartManager
      (Some (mkProcessedData [lit 60]
               [mkSample "A" [lit 1] false None None None None] None)).
Proof.
  apply (charts_follow_visibility (fun _ => true) (fun _ _ => "60.0")).
  - repeat split; left; by repeat constructor.
  - reflexivity.
Defined.

(** ** Every curve is held by all samples or by none *)

Lemma all_or_none_ext {A} (f : Sample -> option A) (g : Sample -> Sample)
    (l : list Sample) :
  (forall s, f (g s) = f s) -> all_or_none f l -> all_or_none f (map g l).
Proof.
  intros Hg [H|H]; [left|right]; apply Forall_fmap;
    (eapply Forall_impl; [exact H|]); intros s Hs; simpl; by rewrite Hg.
Qed.

Lemma all_or_none_all {A} (f : Sample -> option A) (l : list Sample) :
  Forall (fun s => is_Some (f s)) l -> all_or_none f l.
Proof. by right. Qed.

Lemma all_or_none_imap {A} (f : Sample -> option A)
    (g : nat -> Sample -> Sample) (l : list Sample) :
  (forall i s, f (g i s) = f s) -> all_or_none f l -> all_or_none f (imap g l).
Proof.
  intros Hg [H|H]; [left|right]; apply Forall_lookup; intros i s';
    rewrite list_lookup_imap; destruct (l !! i) as [s|] eqn:Hi; try done;
    intros [= <-]; rewrite Hg; exact (Forall_lookup_1 _ _ _ _ H Hi).
Qed.

Lemma all_or_none_alter {A} (f : Sample -> option A) (g : Sample -> Sample)
    (i : nat) (l : list Sample) :
  (forall s, f (g s) = f s) -> all_or_none f l -> all_or_none f (alter g i l).
Proof.
  intros Hg [H|H]; [left|right]; apply Forall_lookup; intros k s' Hk;
    (destruct (decide (k = i)) as [->|Hne];
     [rewrite list_lookup_alter_eq in Hk;
      destruct (l !! i) as [s|] eqn:Hi; [|done];
      injection Hk as <-; rewrite Hg; exact (Forall_lookup_1 _ _ _ _ H Hi)
     |rewrite list_lookup_alter_ne in Hk by done;
      exact (Forall_lookup_1 _ _ _ _ H Hk)]).
Qed.

Lemma difference_differencedSample (refIdx : nat) (reference : list jsnum)
    (idx : nat) (s : Sample) :
  is_Some (difference (differencedSample refIdx reference idx s)).
Proof. unfold differencedSample. destruct (decide _); by eexists. Qed.

Lemma derivative_differencedSample (refIdx : nat) (reference : list jsnum)
    (idx : nat) (s : Sample) :
  derivative (differencedSample refIdx reference idx s) = derivative s.
Proof. unfold differencedSample. by destruct (decide _). Qed.

Lemma curves_uniform_analyze_try (st : Settings) (pd pd' : ProcessedData) :
  curves_uniform pd -> analyze_try st pd = Some pd' -> curves_uniform pd'.
Proof.
  intros (_ & _ & Uf) Hrun.
  destruct (samples pd !! 0%nat) as [s0|] eqn:H0.
  2:{ unfold analyze_try in Hrun. by rewrite H0 in Hrun. }
  set (g := derivedSample (temperatures pd) (smoothingWindow st)
              (detectMeltRegions (temperatures pd) (fluorescence s0))).
  assert (Hn : all_or_none normalized (map g (samples pd))).
  { right. apply Forall_fmap, Forall_true. intros s. by eexists. }
  assert (Hd : all_or_none derivative (map g (samples pd))).
  { right. apply Forall_fmap, Forall_true. intros s. by eexists. }
  assert (Hf : all_or_none difference (map g (samples pd))).
  { by apply all_or_none_ext. }
  destruct (analyze_try_cases st pd s0 H0)
    as [[_ Heq] | (r & sr & nr & _ & _ & _ & _ & Heq)];
    rewrite Heq in Hrun; injection Hrun as <-; cbn [samples]; fold g.
  - done.
  - split; [|split].
    + apply all_or_none_imap; [|done]. apply differencedSample_normalized.
    + apply all_or_none_imap; [|done]. apply derivative_differencedSample.
    + right. cbn [samples]. apply Forall_lookup. intros i s'.
      rewrite list_lookup_imap.
      destruct (map g (samples pd) !! i); [|done]. intros [= <-].
      apply difference_differencedSample.
Qed.

Lemma processor_uniform_analyze (dp : DataProcessor) (patch : SettingsPatch) :
  processor_uniform dp -> processor_uniform (analyze dp patch).1.1.
Proof.
  intros Hu. unfold analyze.
  destruct (processedData dp) as [pd|] eqn:Hpd; [|exact Hu].
  destruct (analyze_try _ pd) as [pd'|] eqn:Hrun; cbn [fst];
    intros pd0 [= <-].
  - eapply curves_uniform_analyze_try; [|exact Hrun]. by apply Hu.
  - by apply Hu.
Qed.

Lemma processor_uniform_setData (dp : DataProcessor) (raw : RawData) :
  processor_uniform dp -> processor_uniform (setData dp raw).1.
Proof.
  intros Hu. unfold setData.
  set (dp0 := mkDataProcessor (Some raw) (processedData dp) (settings dp)).
  assert (Hraw : rawData dp0 = Some raw) by done.
  destruct (decide (validRows raw = [])) as [Hrows|Hrows].
  - unfold extractSamples. rewrite Hraw, Hrows. cbn [length].
    rewrite decide_True by done. exact Hu.
  - rewrite (extractSamples_run dp0 raw Hraw Hrows).
    destruct (decide _); [exact Hu|]. cbn [fst processedData].
    intros pd0 [= <-]. cbn [samples].
    repeat split; left; apply Forall_fmap, Forall_true; done.
Qed.

Lemma curves_uniform_update_visible (f : bool -> bool) (i : nat)
    (pd : ProcessedData) :
  curves_uniform pd -> curves_uniform (update_visible f i pd).
Proof.
  intros (Un & Ud & Uf). unfold curves_uniform, update_visible. cbn [samples].
  repeat split; by apply all_or_none_alter.
Qed.

Lemma processor_uniform_visibility (dp : DataProcessor) :
  processor_uniform dp ->
  (forall i, processor_uniform (toggleSampleVisibility dp i).1) /\
  (forall i v, processor_uniform (setSampleVisibility dp i v).1) /\
  (forall v, processor_uniform (setAllSamplesVisibility dp v).1).
Proof.
  intros Hu. split; [|split].
  - intros i. unfold toggleSampleVisibility.
    destruct (processedData dp) as [pd|] eqn:Hpd; [|done].
    destruct (decide _); [|done]. intros pd0 [= <-].
    by apply curves_uniform_update_visible, Hu.
  - intros i v. unfold setSampleVisibility.
    destruct (processedData dp) as [pd|] eqn:Hpd; [|done].
    destruct (decide _); [|done]. intros pd0 [= <-].
    by apply curves_uniform_update_visible, Hu.
  - intros v. unfold setAllSamplesVisibility.
    destruct (processedData dp) as [pd|] eqn:Hpd; [|done].
    intros pd0 [= <-]. destruct (Hu pd Hpd) as (Un & Ud & Uf).
    unfold curves_uniform. cbn [samples].
    repeat split; by apply all_or_none_ext.
Qed.

(** X29.  In every processor reached from a new one by loading readings, running
    analyses and changing visibility, each of the normalized, derivative
    and difference curves is held by every sample or by none: no state has
    the curve for some samples only, so the charts, which keep the samples
    that hold a curve, never skip a sample in the middle. *)
Theorem curves_uniform_invariant :
  processor_uniform new_DataProcessor /\
  (forall dp raw, processor_uniform dp -> processor_uniform (setData dp raw).1) /\
  (forall dp patch, processor_uniform dp ->
                    processor_uniform (analyze dp patch).1.1) /\
  (forall dp i, processor_uniform dp ->
                processor_uniform (toggleSampleVisibility dp i).1) /\
  (forall dp i v, processor_uniform dp ->
                  processor_uniform (setSampleVisibility dp i v).1) /\
  (forall dp v, processor_uniform dp ->
                processor_uniform (setAllSamplesVisibility dp v).1).
Proof.
  split; [done|]. split; [apply processor_uniform_setData|].
  split; [apply processor_uniform_analyze|].
  split; [intros dp i Hu; by apply processor_uniform_visibility|].
  split; [intros dp i v Hu; by apply processor_uniform_visibility|].
  intros dp v Hu; by apply processor_uniform_visibility.
Qed.

(** * The reference menu *)

Lemma omap_imap_Some {A B} (g : nat -> A -> B) (l : list A) :
  omap id (imap (fun k x => Some (g k x)) l) = imap g l.
Proof.
  revert g. induction l as [|x l IH]; intros g; [done|].
  simpl. f_equal. exact (IH (g ∘ S)).
Qed.

Lemma populateReferenceSamples_cons (raw : RawData) (h0 : string)
    (hs : list string) :
  headers raw = h0 :: hs ->
  populateReferenceSamples raw = imap (fun k h => (Z.of_nat k, h)) hs.
Proof.
  intros Hh. unfold populateReferenceSamples. rewrite Hh.
  cbn [imap]. rewrite decide_True by done. simpl omap.
  rewrite <- (omap_imap_Some (fun k h => (Z.of_nat k, h)) hs).
  f_equal. apply imap_ext.
  intros k h _. unfold compose. rewrite decide_False by done.
  do 2 f_equal. lia.
Qed.

Lemma filter_all_same {A} (P : A -> Prop) `{!forall x, Decision (P x)}
    (l : list A) :
  Forall P l -> filter P l = l.
Proof.
  induction 1 as [|x l Hx Hl IH]; [done|].
  by rewrite filter_cons, decide_True, IH.
Qed.

(** X30.  The reference menu numbers the columns after the first header from 0,
    in the order of the headers, whereas the analysis takes the number as
    an index into the samples, which are the accepted columns only.  So,
    for a reading whose first header is its temperature header: the option
    of a column selects, as reference, the sample of that column as long as
    every column is accepted; in general the option with number [v]
    selects the [v]-th accepted column, which is a later column, or none,
    once a column before it has been dropped. *)
Theorem reference_option_target (dp : DataProcessor) (raw : RawData)
    (h0 : string) (hs : list string) (v : Z) (h : string) :
  headers raw = h0 :: hs ->
  tempHeader raw = h0 ->
  validRows raw <> [] ->
  filter (accepted raw) hs <> [] ->
  (v, h) ∈ populateReferenceSamples raw ->
  exists pd,
    processedData (setData dp raw).1 = Some pd /\
    (0 <= v)%Z /\ hs !! Z.to_nat v = Some h /\
    name <$> samples pd !! Z.to_nat v = filter (accepted raw) hs !! Z.to_nat v /\
    (Forall (accepted raw) hs ->
     name <$> samples pd !! Z.to_nat v = Some h).
Proof.
  intros Hh Ht Hrows Hk Hin.
  rewrite (populateReferenceSamples_cons raw h0 hs Hh) in Hin.
  apply list_elem_of_lookup in Hin as [i Hi].
  rewrite list_lookup_imap in Hi.
  destruct (hs !! i) as [h'|] eqn:Hhi; [|done].
  injection Hi as <- <-. rewrite Nat2Z.id.
  assert (Hkept : filter (accepted raw) (headers raw) = filter (accepted raw) hs).
  { rewrite Hh, filter_cons, decide_False; [done|].
    intros [Hne _]. by rewrite Ht in Hne. }
  unfold setData.
  set (dp0 := mkDataProcessor (Some raw) (processedData dp) (settings dp)).
  rewrite (extractSamples_run dp0 raw eq_refl Hrows), Hkept.
  rewrite decide_False.
  2:{ rewrite length_map. destruct (filter (accepted raw) hs); [done|simpl; lia]. }
  eexists. split; [reflexivity|]. cbn [samples].
  split; [lia|]. split; [done|].
  assert (Hn : name <$> map (columnSample (validRows raw))
                            (filter (accepted raw) hs) !! i
               = filter (accepted raw) hs !! i).
  { rewrite list_lookup_fmap. by destruct (filter (accepted raw) hs !! i). }
  split; [exact Hn|].
  intros Hall. rewrite Hn, filter_all_same by done. done.
Qed.

Lemma reference_option_target_witness :
  (1%Z, "B") ∈ populateReferenceSamples coverage_raw /\
  exists pd,
    processedData (setData new_DataProcessor coverage_raw).1 = Some pd /\
    name <$> samples pd !! 0%nat = Some "B" /\
    name <$> samples pd !! 1%nat = None.
Proof.
  split; [by_evaluation|].
  destruct (reference_option_target new_DataProcessor coverage_raw
              "Temperature" ["A"; "B"] 1 "B")
    as (pd & Hpd & _ & _ & Hn & _).
  - reflexivity.
  - reflexivity.
  - by_evaluation.
  - by_evaluation.
  - by_evaluation.
  - exists pd. split; [exact Hpd|]. split.
    + destruct (reference_option_target new_DataProcessor coverage_raw
              "Temperature" ["A"; "B"] 0 "A")
        as (pd0 & Hpd0 & _ & _ & Hn0 & _);
        [reflexivity|reflexivity|by_evaluation|by_evaluation|by_evaluation|].
      rewrite Hpd in Hpd0. injection Hpd0 as <-.
      change (Z.to_nat 0) with 0%nat in Hn0. rewrite Hn0. by_evaluation.
    + change (Z.to_nat 1) with 1%nat in Hn. rewrite Hn. by_evaluation.
Defined.
